(** * cookiecutter-uv: dependency updaters and generation hooks

    A shallow embedding of the scripts of the repository:
    - [cookiecutter_uv/cicd/fetchers.py], [config.py], [updaters.py];
    - [hooks/pre_gen_project.py] and [hooks/post_gen_project.py].

    Text is a list of 8-bit characters (code points below 256), file paths
    are strings, the project directory is a finite map from paths to nodes.
    The regular expressions of the scripts are transcribed into a small
    abstract syntax and run by a backtracking matcher that follows the
    behaviour of Python's [re] module (leftmost match, greedy repetition,
    alternatives tried in order). *)

From Stdlib Require Import Ascii String List Arith Bool Lia.
From stdpp Require Import gmap strings.
Import ListNotations.

Local Open Scope char_scope.
Local Open Scope list_scope.
Local Open Scope nat_scope.

(** ** Text *)

Abbreviation text := (list ascii).

(** A Python string literal, as text. *)
Definition str (s : string) : text := list_ascii_of_string s.

Definition chr_eqb (a b : ascii) : bool := Ascii.eqb a b.

(** [s.startswith(w)] *)
Fixpoint startswith (w s : text) : bool :=
  match w, s with
  | [], _ => true
  | x :: w', y :: s' => chr_eqb x y && startswith w' s'
  | _ :: _, [] => false
  end.

(** [w in s] *)
Fixpoint contains (w s : text) : bool :=
  startswith w s || match s with [] => false | _ :: s' => contains w s' end.

(** [s.removeprefix(w)] when [s] starts with [w]. *)
Fixpoint strip (w s : text) : option text :=
  match w, s with
  | [], _ => Some s
  | x :: w', y :: s' => if chr_eqb x y then strip w' s' else None
  | _ :: _, [] => None
  end.

(** The longest prefix of characters in a class, and the rest. *)
Fixpoint span (p : ascii -> bool) (s : text) : text * text :=
  match s with
  | c :: s' =>
      if p c then let '(a, b) := span p s' in (c :: a, b) else ([], s)
  | [] => ([], [])
  end.

(** ** Character classes of the patterns *)

Definition code (c : ascii) : nat := nat_of_ascii c.

Definition in_range (lo hi c : ascii) : bool :=
  (code lo <=? code c) && (code c <=? code hi).

(** [\s] on a Unicode pattern, restricted to code points below 256:
    tab to carriage return, the four separators 28..31, space, NEL and the
    no-break space. *)
Definition is_space (c : ascii) : bool :=
  ((9 <=? code c) && (code c <=? 13)) || ((28 <=? code c) && (code c <=? 32))
  || (code c =? 133) || (code c =? 160).

(** [[0-9]] *)
Definition is_digit (c : ascii) : bool := in_range "0" "9" c.

(** [[a-zA-Z]] *)
Definition is_alpha (c : ascii) : bool := in_range "a" "z" c || in_range "A" "Z" c.

(** [[^x]] *)
Definition is_not (x c : ascii) : bool := negb (chr_eqb x c).

(** ** Regular expressions

    The fragment used by the scripts: literals, classes, sequence, a greedy
    optional group, greedy repetition of a class, numbered capture groups
    and the two anchors. *)

Inductive regex : Type :=
| Chr (c : ascii)
| Cls (p : ascii -> bool)
| Cat (r1 r2 : regex)
| Eps
| Maybe (r : regex)
| Many (p : ascii -> bool)
| Grp (n : nat) (r : regex)
| Bos
| Eos.

(** [p+] is [p p*]. *)
Definition Many1 (p : ascii -> bool) : regex := Cat (Cls p) (Many p).

(** A literal word; this is what [re.escape] denotes. *)
Fixpoint lit (w : text) : regex :=
  match w with
  | [] => Eps
  | c :: w' => Cat (Chr c) (lit w')
  end.

(** The sequence of several expressions. *)
Fixpoint cat (rs : list regex) : regex :=
  match rs with
  | [] => Eps
  | [r] => r
  | r :: rs' => Cat r (cat rs')
  end.

(** Captured groups: group number to captured text. *)
Abbreviation captures := (gmap nat text).

Section Matcher.
Context {A : Type}.

  (** Length of the whole subject, to recognise its beginning. *)
Variable whole : nat.

  (** Greedy repetition of a class: the longest run first, then shorter
      ones when the continuation fails. *)
Fixpoint many (p : ascii -> bool) (k : text -> option A) (s : text) : option A :=
    match s with
    | c :: s' =>
        if p c then
          match many p k s' with
          | Some a => Some a
          | None => k s
          end
        else k s
    | [] => k s
    end.

  (** The matcher in continuation-passing style: [run r s g k] matches [r]
      at the head of [s] with the groups [g] so far and hands the rest of
      the subject to [k]; when [k] fails the next alternative is tried. *)
Fixpoint run (r : regex) (s : text) (g : captures)
      (k : text -> captures -> option A) : option A :=
    match r with
    | Chr c =>
        match s with
        | c' :: s' => if chr_eqb c c' then k s' g else None
        | [] => None
        end
    | Cls p =>
        match s with
        | c' :: s' => if p c' then k s' g else None
        | [] => None
        end
    | Cat r1 r2 => run r1 s g (fun s1 g1 => run r2 s1 g1 k)
    | Eps => k s g
    | Maybe r1 =>
        match run r1 s g k with
        | Some a => Some a
        | None => k s g
        end
    | Many p => many p (fun s' => k s' g) s
    | Grp n r1 =>
        run r1 s g (fun s' g' => k s' (<[n := take (length s - length s') s]> g'))
    | Bos => if length s =? whole then k s g else None
    | Eos =>
        match s with
        | [] => k s g
        | [c] => if chr_eqb c "010" then k s g else None
        | _ => None
        end
    end.
End Matcher.

(** One match attempt at the head of [s]: the number of characters matched
    and the groups. With [must_advance] an empty match is refused. *)
Definition match_at (whole : nat) (r : regex) (s : text) (must_advance : bool)
  : option (nat * captures) :=
  run whole r s ∅
    (fun s' g =>
       if must_advance && (length s' =? length s) then None
       else Some (length s - length s', g)).

(** [re.match]: an attempt at the beginning of the subject only. *)
Definition re_match (r : regex) (s : text) : option (nat * captures) :=
  match_at (length s) r s false.

(** [re.search]: the leftmost position with a match, its length and groups. *)
Fixpoint search_from (whole : nat) (r : regex) (pos : nat) (s : text)
  : option (nat * nat * captures) :=
  match match_at whole r s false with
  | Some (n, g) => Some (pos, n, g)
  | None =>
      match s with
      | [] => None
      | _ :: s' => search_from whole r (S pos) s'
      end
  end.

Definition re_search (r : regex) (s : text) : option (nat * nat * captures) :=
  search_from (length s) r 0 s.

(** ** Replacement templates *)

Inductive exn : Type :=
| ReError
| IndexError
| AttributeError
| FileNotFoundError
| IsADirectoryError
| NotADirectoryError
| OSError
| CalledProcessError
| TimeoutExpired.

Inductive result (A : Type) : Type :=
| Ok (a : A)
| Raise (e : exn).
Arguments Ok {A} a.
Arguments Raise {A} e.

Inductive titem : Type :=
| TChr (c : ascii)
| TGroup (n : nat).

Definition is_octal (c : ascii) : bool := in_range "0" "7" c.

Definition digit_val (c : ascii) : nat := code c - 48.

(** The escapes of a replacement template that denote one character. *)
Definition template_escape (c : ascii) : option ascii :=
  if chr_eqb c "a" then Some "007"
  else if chr_eqb c "b" then Some "008"
  else if chr_eqb c "f" then Some "012"
  else if chr_eqb c "n" then Some "010"
  else if chr_eqb c "r" then Some "013"
  else if chr_eqb c "t" then Some "009"
  else if chr_eqb c "v" then Some "011"
  else if chr_eqb c "\" then Some "\"
  else None.

(** A group reference must name a group of the pattern. *)
Definition addgroup (groups n : nat) (rest : result (list titem)) : result (list titem) :=
  if groups <? n then Raise ReError
  else match rest with
       | Ok t => Ok (TGroup n :: t)
       | Raise e => Raise e
       end.

Definition addchr (c : ascii) (rest : result (list titem)) : result (list titem) :=
  match rest with
  | Ok t => Ok (TChr c :: t)
  | Raise e => Raise e
  end.

Definition decimal (ds : text) : nat :=
  fold_left (fun acc d => 10 * acc + digit_val d) ds 0.

(** [re]'s template parser. [name] is [None] outside a group name and the
    characters read so far inside [\g<...>]. *)
Fixpoint parse_template (groups : nat) (name : option text) (s : text)
  : result (list titem) :=
  match name with
  | Some ds =>
      match s with
      | [] => Raise ReError
      | c :: s' =>
          if chr_eqb c ">" then
            match ds with
            | [] => Raise ReError
            | _ :: _ =>
                if forallb is_digit ds then
                  addgroup groups (decimal ds) (parse_template groups None s')
                else if forallb (fun d => is_alpha d || is_digit d || chr_eqb d "_") ds
                        && negb (is_digit (hd "0" ds))
                then Raise IndexError
                else Raise ReError
            end
          else parse_template groups (Some (ds ++ [c])) s'
      end
  | None =>
      match s with
      | [] => Ok []
      | c :: s1 =>
          if negb (chr_eqb c "\") then addchr c (parse_template groups None s1)
          else
            match s1 with
            | [] => Raise ReError
            | e :: s2 =>
                if chr_eqb e "g" then
                  match s2 with
                  | lt :: s3 =>
                      if chr_eqb lt "<" then parse_template groups (Some []) s3
                      else Raise ReError
                  | [] => Raise ReError
                  end
                else if chr_eqb e "0" then
                  match s2 with
                  | d1 :: s3 =>
                      if is_octal d1 then
                        match s3 with
                        | d2 :: s4 =>
                            if is_octal d2 then
                              addchr (ascii_of_nat (8 * digit_val d1 + digit_val d2))
                                (parse_template groups None s4)
                            else addchr (ascii_of_nat (digit_val d1))
                                   (parse_template groups None s3)
                        | [] => addchr (ascii_of_nat (digit_val d1)) (Ok [])
                        end
                      else addchr "000" (parse_template groups None s2)
                  | [] => addchr "000" (Ok [])
                  end
                else if is_digit e then
                  match s2 with
                  | d1 :: s3 =>
                      if is_digit d1 then
                        match s3 with
                        | d2 :: s4 =>
                            if is_octal e && is_octal d1 && is_octal d2 then
                              let v := 64 * digit_val e + 8 * digit_val d1 + digit_val d2 in
                              if 255 <? v then Raise ReError
                              else addchr (ascii_of_nat v) (parse_template groups None s4)
                            else addgroup groups (10 * digit_val e + digit_val d1)
                                   (parse_template groups None s3)
                        | [] => addgroup groups (10 * digit_val e + digit_val d1) (Ok [])
                        end
                      else addgroup groups (digit_val e) (parse_template groups None s2)
                  | [] => addgroup groups (digit_val e) (Ok [])
                  end
                else
                  match template_escape e with
                  | Some x => addchr x (parse_template groups None s2)
                  | None =>
                      if is_alpha e then Raise ReError
                      else addchr "\" (addchr e (parse_template groups None s2))
                  end
            end
      end
  end.

(** A version without a backslash: the template reads it literally. *)
Definition backslash_free (v : text) : bool :=
  forallb (fun c => negb (chr_eqb c "\")) v.

(** The text a template stands for at one match; a group that took no part
    in the match stands for the empty text. *)
Fixpoint expand (t : list titem) (g : captures) : text :=
  match t with
  | [] => []
  | TChr c :: t' => c :: expand t' g
  | TGroup n :: t' => default [] (g !! n) ++ expand t' g
  end.

(** Number of capture groups of a pattern. *)
Fixpoint groups (r : regex) : nat :=
  match r with
  | Cat r1 r2 => Nat.max (groups r1) (groups r2)
  | Maybe r1 => groups r1
  | Grp n r1 => Nat.max n (groups r1)
  | _ => 0
  end.

(** ** Substitution

    The loop of [re.subn]: search from the current position, copy the text
    before the match, append the expanded template, go on after the match.
    After an empty match the next attempt at the same position must
    advance. The fuel is a bound on the number of iterations. *)
Fixpoint subn_go (whole : nat) (r : regex) (t : list titem) (fuel : nat)
    (s : text) (must_advance : bool) : text * nat :=
  match fuel with
  | 0 => (s, 0)
  | S fuel' =>
      match match_at whole r s must_advance with
      | Some (n, g) =>
          let '(out, c) := subn_go whole r t fuel' (drop n s) (n =? 0) in
          (expand t g ++ out, S c)
      | None =>
          match s with
          | [] => ([], 0)
          | ch :: s' =>
              let '(out, c) := subn_go whole r t fuel' s' false in
              (ch :: out, c)
          end
      end
  end.

(** The loop with enough fuel: every iteration either consumes a character
    or follows an empty match at the same position. *)
Definition subn_of (whole : nat) (r : regex) (t : list titem) (s : text)
    (must_advance : bool) : text * nat :=
  subn_go whole r t (2 * length s + 2) s must_advance.

(** [re.subn(pattern, repl, string)]: the template is compiled before the
    search starts, so a malformed template raises even without a match. *)
Definition re_subn (r : regex) (repl s : text) : result (text * nat) :=
  match parse_template (groups r) None repl with
  | Raise e => Raise e
  | Ok t => Ok (subn_of (length s) r t s false)
  end.

(** [re.sub(pattern, repl, string, count=1)]: the loop of [re.subn] stopped
    after its first match. *)
Definition re_sub_first (r : regex) (repl s : text) : result text :=
  match parse_template (groups r) None repl with
  | Raise e => Raise e
  | Ok t =>
      Ok match search_from (length s) r 0 s with
         | Some (pos, n, g) => take pos s ++ expand t g ++ drop (pos + n) s
         | None => s
         end
  end.

(** ** The world of the scripts

    The files under the working directory, the writes made so far (oldest
    first) and the records handed to the logger. *)

Inductive level : Type := INFO | WARNING.

Record world : Type := World {
  files : gmap string text;
  written : list (string * text);
  logged : list (level * text)
}.

(** Two worlds with the same files and the same writes. *)
Definition same_store (w w' : world) : Prop :=
  files w' = files w /\ written w' = written w.

(** A computation reads and changes a state and returns or raises. *)
Definition St (W A : Type) : Type := W -> result A * W.

Definition ret {W A} (a : A) : St W A := fun w => (Ok a, w).

Definition raise {W A} (e : exn) : St W A := fun w => (Raise e, w).

Definition bind {W A B} (m : St W A) (k : A -> St W B) : St W B :=
  fun w =>
    match m w with
    | (Ok a, w') => k a w'
    | (Raise e, w') => (Raise e, w')
    end.

(** [try: m except: h], for the exceptions [catches] selects. *)
Definition try_except {W A} (m : St W A) (catches : exn -> bool) (h : exn -> St W A)
  : St W A :=
  fun w =>
    match m w with
    | (Ok a, w') => (Ok a, w')
    | (Raise e, w') => if catches e then h e w' else (Raise e, w')
    end.

(** The computations of the updaters, over their world. *)
Abbreviation M := (St world).

(** A computation that does not look at the log: from worlds with the
    same files and writes it gives the same result and again worlds with
    the same files and writes. *)
Definition respects {A} (m : M A) : Prop :=
  forall w1 w2, same_store w1 w2 ->
    fst (m w1) = fst (m w2) /\ same_store (snd (m w1)) (snd (m w2)).

Declare Scope py_scope.
Delimit Scope py_scope with py.
Notation "x <- m ;; k" := (bind m (fun x => k))
  (at level 100, m at next level, right associativity) : py_scope.
Notation "m ;;; k" := (bind m (fun _ => k))
  (at level 100, right associativity) : py_scope.
Local Open Scope py_scope.

(** A [for] loop that threads the local variables [acc] of its body. *)
Fixpoint for_each {W X S} (xs : list X) (body : S -> X -> St W S) (acc : S)
  : St W S :=
  match xs with
  | [] => ret acc
  | x :: xs' => acc' <- body acc x ;; for_each xs' body acc'
  end.

(** [pathlib.Path]: [exists], [read_text], [write_text]. *)
Definition path_exists (p : string) : M bool :=
  fun w => (Ok (bool_decide (is_Some (files w !! p))), w).

Definition read_text (p : string) : M text :=
  fun w =>
    match files w !! p with
    | Some c => (Ok c, w)
    | None => (Raise FileNotFoundError, w)
    end.

Definition write_text (p : string) (c : text) : M unit :=
  fun w =>
    (Ok tt, {| files := <[p := c]> (files w);
               written := written w ++ [(p, c)];
               logged := logged w |}).

(** [logger.info] and [logger.warning], with the message formatted. *)
Definition log (l : level) (msg : text) : M unit :=
  fun w =>
    (Ok tt, {| files := files w; written := written w;
               logged := logged w ++ [(l, msg)] |}).

(** Lifting a result of [re] into a computation. *)
Definition lift {W A} (r : result A) : St W A :=
  match r with
  | Ok a => ret a
  | Raise e => raise e
  end.

(** [not version] for a value of type [str | None]. *)
Definition falsy (v : option text) : bool :=
  match v with
  | None => true
  | Some [] => true
  | Some (_ :: _) => false
  end.

(** ** [fetchers.GitHubRepo] and [config.py] *)

Record GitHubRepo : Type := { owner : text; repo : text }.

(** [GitHubRepo.__str__] *)
Definition GitHubRepo_str (r : GitHubRepo) : text := owner r ++ str "/" ++ repo r.

Definition PYPI_PACKAGES : list text :=
  map str [ "pytest"; "prek"; "tox-uv"; "deptry"; "mypy"; "ty"; "pytest-cov";
            "ruff"; "mkdocs"; "mkdocs-material"; "mkdocstrings"; "cookiecutter";
            "pytest-cookies"; "hatchling" ]%string.

Definition UV_REPO : GitHubRepo := {| owner := str "astral-sh"; repo := str "uv" |}.

Definition PREK_HOOKS : list (text * GitHubRepo) :=
  [ (str "https://github.com/pre-commit/pre-commit-hooks",
     {| owner := str "pre-commit"; repo := str "pre-commit-hooks" |});
    (str "https://github.com/astral-sh/ruff-pre-commit",
     {| owner := str "astral-sh"; repo := str "ruff-pre-commit" |}) ].

(** ** [updaters.py]

    In the comments the double quote of the Python source is written
    [\x22], its hexadecimal escape. The updaters call the fetchers at
    their declared type, [str | None]. *)

Definition dq : ascii := "034".
Definition nl : ascii := "010".

Module PyprojectTomlUpdater.

  (** [(\x22{re.escape(package)}(?:\[[^\]]*\])?)>=([^\x22]+)\x22] *)
Definition _build_pattern (package : text) : regex :=
    cat [ Grp 1 (cat [ Chr dq; lit package;
                       Maybe (cat [Chr "["; Many (is_not "]"); Chr "]"]) ]);
          Chr ">"; Chr "=";
          Grp 2 (Many1 (is_not dq));
          Chr dq ].

  (** [\g<1>>={version}\x22] *)
Definition _build_replacement (version : text) : text :=
    str "\g<1>>=" ++ version ++ [dq].

Definition _update_file (filepath : string) (package version : text) : M bool :=
    content <- read_text filepath ;;
    let pattern := _build_pattern package in
    let replacement := _build_replacement version in
    r <- lift (re_subn pattern replacement content) ;;
    let '(new_content, count) := r in
    if (0 <? count) && bool_decide (new_content ≠ content) then
      write_text filepath new_content ;;; ret true
    else ret false.

Definition _matches (filepath : string) (package : text) : M bool :=
    content <- read_text filepath ;;
    ret (bool_decide (is_Some (re_search (_build_pattern package) content))).

Section Update.
Variable get_pypi_version : text -> option text.

Definition report (filepath : string) (package version : text) : text :=
      str filepath ++ str ": " ++ package ++ str " -> " ++ version.

    (** The body of the inner loop, for one file. *)
Definition update_one (dry_run : bool) (package version : text)
        (update_count : nat) (filepath : string) : M nat :=
      e <- path_exists filepath ;;
      if negb e then ret update_count
      else if dry_run then
        m <- _matches filepath package ;;
        if m then
          log INFO (report filepath package version) ;;;
          ret (update_count + 1)
        else ret update_count
      else
        u <- _update_file filepath package version ;;
        if u then
          log INFO (report filepath package version) ;;;
          ret (update_count + 1)
        else ret update_count.

    (** The body of the outer loop, for one package. *)
Definition update_package (self_files : list string) (dry_run : bool)
        (update_count : nat) (package : text) : M nat :=
      let version := get_pypi_version package in
      if falsy version then
        log WARNING (str "Failed to fetch version for " ++ package) ;;;
        ret update_count
      else
        for_each self_files (update_one dry_run package (default [] version)) update_count.

Definition update (self_files : list string) (dry_run : bool) : M nat :=
      for_each PYPI_PACKAGES (update_package self_files dry_run) 0.
End Update.

End PyprojectTomlUpdater.

Module ActionYmlUpdater.

  (** [(uv-version:\s*\n\s*description:[^\n]*\n\s*required:[^\n]*\n\s*default:\s*\x22)]
      followed by [[0-9]+\.[0-9]+\.[0-9]+(\x22)] *)
Definition PATTERN : regex :=
    cat [ Grp 1 (cat [ lit (str "uv-version:"); Many is_space; Chr nl;
                       Many is_space; lit (str "description:"); Many (is_not nl); Chr nl;
                       Many is_space; lit (str "required:"); Many (is_not nl); Chr nl;
                       Many is_space; lit (str "default:"); Many is_space; Chr dq ]);
          Many1 is_digit; Chr "."; Many1 is_digit; Chr "."; Many1 is_digit;
          Grp 2 (Chr dq) ].

  (** [\g<1>{version}\2] *)
Definition _build_replacement (version : text) : text :=
    str "\g<1>" ++ version ++ str "\2".

Definition _update_file (filepath : string) (version : text) : M bool :=
    content <- read_text filepath ;;
    let replacement := _build_replacement version in
    r <- lift (re_subn PATTERN replacement content) ;;
    let '(new_content, count) := r in
    if (0 <? count) && bool_decide (new_content ≠ content) then
      write_text filepath new_content ;;; ret true
    else ret false.

Definition _matches (filepath : string) : M bool :=
    content <- read_text filepath ;;
    ret (bool_decide (is_Some (re_search PATTERN content))).

Section Update.
Variable get_github_release : GitHubRepo -> option text.

Definition report (filepath : string) (version : text) : text :=
      str filepath ++ str ": uv -> " ++ version.

Definition update_one (dry_run : bool) (version : text)
        (update_count : nat) (filepath : string) : M nat :=
      e <- path_exists filepath ;;
      if negb e then ret update_count
      else if dry_run then
        m <- _matches filepath ;;
        if m then
          log INFO (report filepath version) ;;;
          ret (update_count + 1)
        else ret update_count
      else
        u <- _update_file filepath version ;;
        if u then
          log INFO (report filepath version) ;;;
          ret (update_count + 1)
        else ret update_count.

Definition update (self_files : list string) (dry_run : bool) : M nat :=
      let version := get_github_release UV_REPO in
      if falsy version then
        log WARNING (str "Failed to fetch uv version") ;;;
        ret 0
      else for_each self_files (update_one dry_run (default [] version)) 0.
End Update.

End ActionYmlUpdater.

Module PreCommitConfigUpdater.

  (** [(- repo: {re.escape(repo_url)}\s*\n\s*rev:\s*\x22)[^\x22]+(\x22)] *)
Definition _build_pattern (repo_url : text) : regex :=
    cat [ Grp 1 (cat [ lit (str "- repo: "); lit repo_url; Many is_space; Chr nl;
                       Many is_space; lit (str "rev:"); Many is_space; Chr dq ]);
          Many1 (is_not dq);
          Grp 2 (Chr dq) ].

  (** [\g<1>v{version}\2] *)
Definition _build_replacement (version : text) : text :=
    str "\g<1>v" ++ version ++ str "\2".

  (** [repo_url.split("/")[-1]]: the text after the last slash. *)
Fixpoint last_segment (acc s : text) : text :=
    match s with
    | [] => acc
    | c :: s' => if chr_eqb c "/" then last_segment [] s' else last_segment (acc ++ [c]) s'
    end.

Definition _extract_hook_name (repo_url : text) : text := last_segment [] repo_url.

Definition _update_hook (content repo_url version : text) : result (text * bool) :=
    let pattern := _build_pattern repo_url in
    let replacement := _build_replacement version in
    match re_subn pattern replacement content with
    | Raise e => Raise e
    | Ok (new_content, count) =>
        if (0 <? count) && bool_decide (new_content ≠ content) then Ok (new_content, true)
        else Ok (content, false)
    end.

Definition _matches (content repo_url : text) : bool :=
    bool_decide (is_Some (re_search (_build_pattern repo_url) content)).

Section Update.
Variable get_github_tag : GitHubRepo -> option text.

Definition report (config_file : string) (hook_name version : text) : text :=
      str config_file ++ str ": " ++ hook_name ++ str " -> v" ++ version.

    (** The body of the loop; its local variables are [content] and
        [update_count]. *)
Definition update_hook_step (config_file : string) (dry_run : bool)
        (acc : text * nat) (hook : text * GitHubRepo) : M (text * nat) :=
      let '(content, update_count) := acc in
      let '(repo_url, github_repo) := hook in
      let version := get_github_tag github_repo in
      if falsy version then
        log WARNING (str "Failed to fetch version for " ++ GitHubRepo_str github_repo) ;;;
        ret (content, update_count)
      else
        let version := default [] version in
        let hook_name := _extract_hook_name repo_url in
        if dry_run then
          if _matches content repo_url then
            log INFO (report config_file hook_name version) ;;;
            ret (content, update_count + 1)
          else ret (content, update_count)
        else
          r <- lift (_update_hook content repo_url version) ;;
          let '(new_content, updated) := r in
          if updated then
            log INFO (report config_file hook_name version) ;;;
            ret (new_content, update_count + 1)
          else ret (content, update_count).

Definition update (config_file : string) (dry_run : bool) : M nat :=
      e <- path_exists config_file ;;
      if negb e then ret 0
      else
        content <- read_text config_file ;;
        acc <- for_each PREK_HOOKS (update_hook_step config_file dry_run) (content, 0) ;;
        let '(content, update_count) := acc in
        (if negb dry_run && (0 <? update_count) then write_text config_file content
         else ret tt) ;;;
        ret update_count.
End Update.

End PreCommitConfigUpdater.

(** ** [fetchers.py]

    Python values as they come out of [json.loads]; [JNull] is [None].
    Numbers are integers. A dictionary is its list of items. *)

#[warnings="-register-all"]
Inductive json : Type :=
| JNull
| JBool (b : bool)
| JInt (z : Z)
| JStr (s : text)
| JList (l : list json)
| JDict (d : list (text * json)).

(** What opening a URL and loading its body as JSON comes to. *)
Inductive fetched : Type :=
| RaisesHTTPError
| RaisesURLError
| RaisesJSONDecodeError
| Loaded (v : json).

(** Truth value of a Python value. *)
Definition truthy (v : json) : bool :=
  match v with
  | JNull => false
  | JBool b => b
  | JInt z => negb (Z.eqb z 0)
  | JStr s => negb (bool_decide (s = []))
  | JList l => negb (bool_decide (l = []))
  | JDict d => negb (bool_decide (d = []))
  end.

(** Look-up in the items of a dictionary. *)
Fixpoint dict_lookup (key : text) (d : list (text * json)) : option json :=
  match d with
  | [] => None
  | (k, v) :: d' => if bool_decide (k = key) then Some v else dict_lookup key d'
  end.

(** [value.get(key, default)]: only a dictionary has the method. *)
Definition py_get (value : json) (key : text) (default_ : json) : result json :=
  match value with
  | JDict d => Ok (default default_ (dict_lookup key d))
  | _ => Raise AttributeError
  end.

(** [s.lstrip(chars)] for a one-character set. *)
Fixpoint lstrip (c : ascii) (s : text) : text :=
  match s with
  | x :: s' => if chr_eqb x c then lstrip c s' else s
  | [] => []
  end.

(** [value.lstrip(v)]: only a string has the method. *)
Definition py_lstrip (value : json) (c : ascii) : result json :=
  match value with
  | JStr s => Ok (JStr (lstrip c s))
  | _ => Raise AttributeError
  end.

Module Fetchers.
Section Net.
(** The network: the outcome of [urlopen] and [json.loads] for a URL. *)
Variable urlopen_json : text -> fetched.

Definition _is_dict (value : json) : bool :=
  match value with JDict _ => true | _ => false end.

Definition _is_list (value : json) : bool :=
  match value with JList _ => true | _ => false end.

Definition _fetch_json (url : text) : json :=
  if negb (startswith (str "https://") url || startswith (str "http://") url) then JNull
  else
    match urlopen_json url with
    | Loaded result => result
    | RaisesHTTPError | RaisesURLError | RaisesJSONDecodeError => JNull
    end.

Definition get_pypi_version (package : text) : result json :=
  let data := _fetch_json (str "https://pypi.org/pypi/" ++ package ++ str "/json") in
  if _is_dict data then
    match py_get data (str "info") (JDict []) with
    | Ok info => py_get info (str "version") JNull
    | Raise e => Raise e
    end
  else Ok JNull.

(** [tag.lstrip(v) if tag else None] *)
Definition strip_tag (tag : json) : result json :=
  if truthy tag then py_lstrip tag "v" else Ok JNull.

Definition get_github_release (repo : GitHubRepo) : result json :=
  let data := _fetch_json (str "https://api.github.com/repos/" ++ GitHubRepo_str repo
                             ++ str "/releases/latest") in
  if _is_dict data then
    match py_get data (str "tag_name") (JStr []) with
    | Ok tag => strip_tag tag
    | Raise e => Raise e
    end
  else Ok JNull.

Definition get_github_tag (repo : GitHubRepo) : result json :=
  let data := _fetch_json (str "https://api.github.com/repos/" ++ GitHubRepo_str repo
                             ++ str "/tags") in
  match data with
  | JList (first_tag :: _) =>
      if _is_dict first_tag then
        match py_get first_tag (str "name") (JStr []) with
        | Ok tag => strip_tag tag
        | Raise e => Raise e
        end
      else Ok JNull
  | _ => Ok JNull
  end.
End Net.
End Fetchers.

(** ** [hooks/pre_gen_project.py]

    Console output is kept as tagged messages. *)

Module PreGen.

Definition name_start (c : ascii) : bool := chr_eqb c "-" || is_alpha c.
Definition name_char (c : ascii) : bool := chr_eqb c "-" || is_alpha c || is_digit c.

(** [^[-a-zA-Z][-a-zA-Z0-9]+$] *)
Definition PROJECT_NAME_REGEX : regex :=
  cat [Bos; Cls name_start; Many1 name_char; Eos].

Definition slug_start (c : ascii) : bool := chr_eqb c "_" || is_alpha c.
Definition slug_char (c : ascii) : bool := chr_eqb c "_" || is_alpha c || is_digit c.

(** [^[_a-zA-Z][_a-zA-Z0-9]+$] *)
Definition PROJECT_SLUG_REGEX : regex :=
  cat [Bos; Cls slug_start; Many1 slug_char; Eos].

(** What [subprocess.run([uv, python, list], check=True)] comes to. *)
Inductive uv_list : Type :=
| Listed (stdout : text)
| FailedCalledProcessError
| FailedFileNotFoundError.

Inductive message : Type :=
| InvalidProjectName (project_name : text)
| InvalidProjectSlug (project_slug : text)
| PythonNotInstalled (python_version installed_versions : text)
| UsingPython (python_version : text)
| CouldNotVerify (python_version : text)
| UvNotFound (python_version : text).

Inductive event : Type :=
| Printed (m : message)
| Ran (cmd : list text).

(** How the script ends: [sys.exit(code)] or the end of the file. *)
Inductive outcome : Type :=
| Exit (code : nat)
| Finished.

Definition uv_python_list : list text := map str ["uv"; "python"; "list"]%string.

(** The script, for the three template values and the answer [uv] would
    give. *)
Definition pre_gen_project (project_name project_slug python_version : text)
    (uv : uv_list) : outcome * list event :=
  if negb (bool_decide (is_Some (re_match PROJECT_NAME_REGEX project_name))) then
    (Exit 1, [Printed (InvalidProjectName project_name)])
  else if negb (bool_decide (is_Some (re_match PROJECT_SLUG_REGEX project_slug))) then
    (Exit 1, [Printed (InvalidProjectSlug project_slug)])
  else
    match uv with
    | Listed installed_versions =>
        if negb (contains python_version installed_versions) then
          (Exit 1, [Ran uv_python_list;
                    Printed (PythonNotInstalled python_version installed_versions)])
        else (Finished, [Ran uv_python_list; Printed (UsingPython python_version)])
    | FailedCalledProcessError =>
        (Finished, [Ran uv_python_list; Printed (CouldNotVerify python_version)])
    | FailedFileNotFoundError =>
        (Finished, [Ran uv_python_list; Printed (UvNotFound python_version)])
    end.

End PreGen.

(** ** [hooks/post_gen_project.py]

    The entries of the project directory are files with their contents or
    directories. Console output is not kept. *)

Module PostGen.

Inductive node : Type :=
| File (content : text)
| Dir (empty : bool).

(** [Path(PROJECT_DIRECTORY / filepath).unlink()] *)
Definition remove_file (filepath : string) : St (gmap string node) unit :=
  fun fs =>
    match fs !! filepath with
    | None => (Raise FileNotFoundError, fs)
    | Some (Dir _) => (Raise IsADirectoryError, fs)
    | Some (File _) => (Ok tt, delete filepath fs)
    end.

(** [Path(PROJECT_DIRECTORY / filepath).rename(PROJECT_DIRECTORY / target)]:
    the target is replaced when it is a file, or an empty directory under a
    directory. *)
Definition move_file (filepath target : string) : St (gmap string node) unit :=
  fun fs =>
    match fs !! filepath with
    | None => (Raise FileNotFoundError, fs)
    | Some (File c) =>
        match fs !! target with
        | Some (Dir _) => (Raise IsADirectoryError, fs)
        | _ => (Ok tt, <[target := File c]> (delete filepath fs))
        end
    | Some (Dir e) =>
        match fs !! target with
        | Some (File _) => (Raise NotADirectoryError, fs)
        | Some (Dir false) => (Raise OSError, fs)
        | _ => (Ok tt, <[target := Dir e]> (delete filepath fs))
        end
    end.

Local Open Scope py_scope.

(** The six licence branches of the script, in their order. *)
Definition license_stage (open_source_license : text) : St (gmap string node) unit :=
  (if bool_decide (open_source_license = str "MIT license") then
     move_file "LICENSE_MIT" "LICENSE" ;;;
     remove_file "LICENSE_BSD" ;;;
     remove_file "LICENSE_ISC" ;;;
     remove_file "LICENSE_APACHE" ;;;
     remove_file "LICENSE_GPL"
   else ret tt) ;;;
  (if bool_decide (open_source_license = str "BSD license") then
     move_file "LICENSE_BSD" "LICENSE" ;;;
     remove_file "LICENSE_MIT" ;;;
     remove_file "LICENSE_ISC" ;;;
     remove_file "LICENSE_APACHE" ;;;
     remove_file "LICENSE_GPL"
   else ret tt) ;;;
  (if bool_decide (open_source_license = str "ISC license") then
     move_file "LICENSE_ISC" "LICENSE" ;;;
     remove_file "LICENSE_MIT" ;;;
     remove_file "LICENSE_BSD" ;;;
     remove_file "LICENSE_APACHE" ;;;
     remove_file "LICENSE_GPL"
   else ret tt) ;;;
  (if bool_decide (open_source_license = str "Apache Software License 2.0") then
     move_file "LICENSE_APACHE" "LICENSE" ;;;
     remove_file "LICENSE_MIT" ;;;
     remove_file "LICENSE_BSD" ;;;
     remove_file "LICENSE_ISC" ;;;
     remove_file "LICENSE_GPL"
   else ret tt) ;;;
  (if bool_decide (open_source_license = str "GNU General Public License v3") then
     move_file "LICENSE_GPL" "LICENSE" ;;;
     remove_file "LICENSE_MIT" ;;;
     remove_file "LICENSE_BSD" ;;;
     remove_file "LICENSE_ISC" ;;;
     remove_file "LICENSE_APACHE"
   else ret tt) ;;;
  (if bool_decide (open_source_license = str "Not open source") then
     remove_file "LICENSE_GPL" ;;;
     remove_file "LICENSE_MIT" ;;;
     remove_file "LICENSE_BSD" ;;;
     remove_file "LICENSE_ISC" ;;;
     remove_file "LICENSE_APACHE"
   else ret tt).

(** [remove_tox_ini]: the file is removed when it is there. *)
Definition remove_tox_ini : St (gmap string node) unit :=
  fun fs =>
    match fs !! "tox.ini"%string with
    | Some _ => remove_file "tox.ini" fs
    | None => (Ok tt, fs)
    end.

Definition action_file : string := ".github/actions/setup-python-env/action.yml".

(** [default: \x22\d+\.\d+\x22] *)
Definition DEFAULT_VERSION_REGEX : regex :=
  cat [lit (str "default: "); Chr dq; Many1 is_digit; Chr "."; Many1 is_digit; Chr dq].

(** [update_github_action_python_version]: in the action file, when it is
    there, the first default of two numbers gets the Python version. *)
Definition update_github_action_python_version (python_version : text)
  : St (gmap string node) unit :=
  fun fs =>
    match fs !! action_file with
    | None => (Ok tt, fs)
    | Some (Dir _) => (Raise IsADirectoryError, fs)
    | Some (File content) =>
        match re_sub_first DEFAULT_VERSION_REGEX
                (str "default: " ++ [dq] ++ python_version ++ [dq]) content with
        | Ok content' => (Ok tt, <[action_file := File content']> fs)
        | Raise e => (Raise e, fs)
        end
    end.

(** [requires-python = \x22>=\d+\.\d+,<\d+\.\d+\x22] *)
Definition REQUIRES_PYTHON_REGEX : regex :=
  cat [lit (str "requires-python = "); Chr dq; lit (str ">=");
       Many1 is_digit; Chr "."; Many1 is_digit; lit (str ",<");
       Many1 is_digit; Chr "."; Many1 is_digit; Chr dq].

(** [\x22Programming Language :: Python :: 3\.\d+\x22,?\n] *)
Definition VERSION_CLASSIFIER_REGEX : regex :=
  cat [Chr dq; lit (str "Programming Language :: Python :: 3."); Many1 is_digit;
       Chr dq; Maybe (Chr ","); Chr nl].

(** [(\x22Programming Language :: Python :: 3\x22,)] *)
Definition BASE_CLASSIFIER_REGEX : regex :=
  Grp 1 (cat [Chr dq; lit (str "Programming Language :: Python :: 3"); Chr dq; Chr ","]).

Definition requires_python (python_version : text) : text :=
  str "requires-python = " ++ [dq] ++ str ">=" ++ python_version ++ str ",<4.0" ++ [dq].

(** The group, a line feed, four spaces and the classifier of the version. *)
Definition version_classifier (python_version : text) : text :=
  str "\1" ++ [nl] ++ str "    " ++ [dq] ++ str "Programming Language :: Python :: "
    ++ python_version ++ [dq] ++ str ",".

(** [re.sub(pattern, repl, string)] *)
Definition re_sub (r : regex) (repl s : text) : result text :=
  match re_subn r repl s with
  | Ok (out, _) => Ok out
  | Raise e => Raise e
  end.

(** [update_python_version_in_file]: the three substitutions, one after the
    other, and the file written back. *)
Definition update_python_version_in_file (filepath : string) (python_version : text)
  : St (gmap string node) unit :=
  fun fs =>
    match fs !! filepath with
    | None => (Raise FileNotFoundError, fs)
    | Some (Dir _) => (Raise IsADirectoryError, fs)
    | Some (File content) =>
        match re_sub REQUIRES_PYTHON_REGEX (requires_python python_version) content with
        | Raise e => (Raise e, fs)
        | Ok content1 =>
            match re_sub VERSION_CLASSIFIER_REGEX [] content1 with
            | Raise e => (Raise e, fs)
            | Ok content2 =>
                match re_sub BASE_CLASSIFIER_REGEX (version_classifier python_version)
                        content2 with
                | Raise e => (Raise e, fs)
                | Ok content3 => (Ok tt, <[filepath := File content3]> fs)
                end
            end
        end
    end.

(** [s.lower()] on code points below 256. *)
Definition lower_chr (c : ascii) : ascii :=
  if in_range "A" "Z" c || in_range "192" "214" c || in_range "216" "222" c
  then ascii_of_nat (code c + 32) else c.

Definition lower (s : text) : text := map lower_chr s.

(** [not s.strip()]: nothing but white space. *)
Definition blank (s : text) : bool := forallb is_space s.

(** [sep.join(parts)] *)
Fixpoint join (sep : text) (parts : list text) : text :=
  match parts with
  | [] => []
  | [x] => x
  | x :: rest => x ++ sep ++ join sep rest
  end.

Definition cmd (ws : list string) : list text := map str ws.

Definition repo_char (c : ascii) : bool :=
  is_alpha c || is_digit c || chr_eqb c "." || chr_eqb c "_" || chr_eqb c "-".

(** [^[a-zA-Z0-9._-]+$] *)
Definition REPOSITORY_NAME_REGEX : regex := cat [Bos; Many1 repo_char; Eos].

Definition validate_repository_name (name : text) : bool * text :=
  if bool_decide (name = []) then (false, str "Repository name cannot be empty")
  else if 100 <? length name then (false, str "Repository name exceeds 100 characters")
  else if startswith (str ".") name then
    (false, str "Repository name cannot start with a period")
  else if negb (bool_decide (is_Some (re_match REPOSITORY_NAME_REGEX name))) then
    (false, str "Repository name contains invalid characters (only alphanumeric, -, _, . allowed)")
  else (true, []).

(** What a command comes to: it ends with a return code and its two
    outputs, or it is not found. *)
Inductive proc : Type :=
| Completed (returncode : Z) (stdout stderr : text)
| NoSuchCommand.

Section Setup.
(** The machine around the project directory: programs on the path,
    credentials, the network and the remote service. *)
Variable Sys : Type.

(** Running a command: its answer and what it leaves behind. *)
Variable exec : list text -> gmap string node -> Sys -> proc * gmap string node * Sys.

(** Whether a command ends within the time limit of its caller. *)
Variable on_time : list text -> gmap string node -> Sys -> bool.

(** [shutil.which(command) is not None] *)
Variable which : text -> Sys -> bool.

(** The project directory, the machine, and the commands handed to
    [subprocess.run] so far, oldest first. *)
Record machine : Type := Machine {
  project : gmap string node;
  sys : Sys;
  ran : list (list text)
}.

Record CompletedProcess : Type := {
  returncode : Z;
  stdout : text;
  stderr : text
}.

(** [subprocess.run(cmd, check=check)], with or without [timeout=]. *)
Definition subprocess_run (c : list text) (check timeout : bool)
  : St machine CompletedProcess :=
  fun m =>
    let '(p, fs', s') := exec c (project m) (sys m) in
    let m' := {| project := fs'; sys := s'; ran := ran m ++ [c] |} in
    if timeout && negb (on_time c (project m) (sys m)) then (Raise TimeoutExpired, m')
    else
      match p with
      | NoSuchCommand => (Raise FileNotFoundError, m')
      | Completed rc out err =>
          if check && negb (Z.eqb rc 0) then (Raise CalledProcessError, m')
          else (Ok {| returncode := rc; stdout := out; stderr := err |}, m')
      end.

Definition check_command_exists (command : text) : St machine bool :=
  fun m => (Ok (which command (sys m)), m).

Definition dot_git_exists : St machine bool :=
  fun m => (Ok (bool_decide (is_Some (project m !! ".git"%string))), m).

(** [run_command]: nothing is run in a dry run; a failure is raised again. *)
Definition run_command (c : list text) (check dry_run : bool)
  : St machine (option CompletedProcess) :=
  if dry_run then ret None
  else r <- subprocess_run c check false ;; ret (Some r).

Definition process_error (e : exn) : bool :=
  match e with
  | CalledProcessError | FileNotFoundError => true
  | _ => false
  end.

Definition check_gh_auth : St machine bool :=
  try_except
    (result <- subprocess_run (cmd ["gh"; "auth"; "status"]%string) false false ;;
     ret (Z.eqb (returncode result) 0))
    process_error (fun _ => ret false).

Definition check_git_config : St machine (bool * text) :=
  try_except
    (name_result <- subprocess_run (cmd ["git"; "config"; "user.name"]%string) false false ;;
     email_result <- subprocess_run (cmd ["git"; "config"; "user.email"]%string) false false ;;
     let missing :=
       (if negb (Z.eqb (returncode name_result) 0) || blank (stdout name_result)
        then [str "user.name"] else [])
       ++
       (if negb (Z.eqb (returncode email_result) 0) || blank (stdout email_result)
        then [str "user.email"] else []) in
     match missing with
     | _ :: _ =>
         ret (false, str "Git " ++ join (str " and ") missing ++ str " not configured")
     | [] => ret (true, [])
     end)
    process_error (fun _ => ret (false, str "Unable to check git configuration")).

Definition upper_chr (c : ascii) : ascii :=
  if in_range "a" "z" c || in_range "224" "246" c || in_range "248" "254" c
  then ascii_of_nat (code c - 32) else c.

Definition check_git_connectivity (protocol : text) : St machine (bool * text) :=
  try_except
    (if bool_decide (protocol = str "ssh") then
       result <- subprocess_run (cmd ["ssh"; "-T"; "git@github.com"]%string) false true ;;
       if contains (str "successfully authenticated") (lower (stderr result))
       then ret (true, [])
       else ret (false,
                 str "SSH connection to GitHub failed. Ensure SSH keys are configured.")
     else
       result <- subprocess_run (cmd ["git"; "config"; "--get"; "credential.helper"]%string) false false ;;
       if Z.eqb (returncode result) 0 && negb (blank (stdout result))
       then ret (true, [])
       else ret (false,
                 str "Git credential helper not configured for HTTPS. You may be prompted for credentials."))
    (fun e => match e with
              | TimeoutExpired | CalledProcessError | FileNotFoundError => true
              | _ => false
              end)
    (fun e => match e with
              | TimeoutExpired =>
                  ret (false, map upper_chr protocol ++ str " connection to GitHub timed out")
              | _ =>
                  ret (false, str "Unable to test " ++ map upper_chr protocol
                                ++ str " connectivity")
              end).

Section Repository.
(** The template values of the script. *)
Variable project_name author_handle protocol : text.

Definition remote_url : text :=
  if bool_decide (protocol = str "ssh") then
    str "git@github.com:" ++ author_handle ++ str "/" ++ project_name ++ str ".git"
  else
    str "https://github.com/" ++ author_handle ++ str "/" ++ project_name ++ str ".git".

Definition failed (result : option CompletedProcess) : bool :=
  match result with
  | Some r => negb (Z.eqb (returncode r) 0)
  | None => false
  end.

Definition already_exists (result : option CompletedProcess) : bool :=
  match result with
  | Some r => contains (str "already exists") (lower (stderr r))
  | None => false
  end.

Definition git_init : list text := cmd ["git"; "init"; "-b"; "main"]%string.
Definition make_install : list text := cmd ["make"; "install"]%string.
Definition gh_repo_create : list text :=
  cmd ["gh"; "repo"; "create"]%string ++ [project_name]
    ++ cmd ["--public"; "--source"; "."]%string.
Definition git_add : list text := cmd ["git"; "add"; "."]%string.
Definition git_commit : list text := cmd ["git"; "commit"; "-m"; "init commit"]%string.
Definition git_status : list text := cmd ["git"; "status"; "--porcelain"]%string.
Definition git_remote_get_url : list text :=
  cmd ["git"; "remote"; "get-url"; "origin"]%string.
Definition git_remote_add : list text :=
  cmd ["git"; "remote"; "add"; "origin"]%string ++ [remote_url].
Definition git_push : list text := cmd ["git"; "push"; "-u"; "origin"; "main"]%string.

(** The commands of the setup sequence. *)
Definition setup_commands : list (list text) :=
  [git_init; make_install; gh_repo_create; git_add; git_commit; git_status;
   git_remote_get_url; git_remote_add; git_push].

(** The commands the prerequisite checks run. *)
Definition probe_commands : list (list text) :=
  [ cmd ["gh"; "auth"; "status"]%string;
    cmd ["git"; "config"; "user.name"]%string;
    cmd ["git"; "config"; "user.email"]%string;
    cmd ["ssh"; "-T"; "git@github.com"]%string;
    cmd ["git"; "config"; "--get"; "credential.helper"]%string ].

(** The project directory and the machine after the commands [cs] have been
    run one after the other. *)
Fixpoint exec_all (cs : list (list text)) (fs : gmap string node) (s : Sys)
  : gmap string node * Sys :=
  match cs with
  | [] => (fs, s)
  | c :: cs' => let '(_, fs', s') := exec c fs s in exec_all cs' fs' s'
  end.

(** From [m] to [m'] only commands of the prerequisite checks were run, and
    the project directory and the machine of [m'] are what these commands
    left: nothing else has touched them. *)
Definition probes_only (m m' : machine) : Prop :=
  exists tr,
    Forall (fun c => In c probe_commands) tr /\
    ran m' = ran m ++ tr /\
    (project m', sys m') = exec_all tr (project m) (sys m).

(** The body of the [try] block. *)
Definition setup_sequence (dry_run : bool) : St machine bool :=
  run_command git_init true dry_run ;;;
  run_command make_install true dry_run ;;;
  result <- run_command gh_repo_create false dry_run ;;
  if negb dry_run && failed result && negb (already_exists result) then ret false
  else
    run_command git_add true dry_run ;;;
    run_command git_commit false dry_run ;;;
    (if dry_run then ret tt
     else
       status_result <- subprocess_run git_status true false ;;
       if negb (blank (stdout status_result)) then
         run_command git_add true false ;;;
         run_command git_commit true false ;;;
         ret tt
       else ret tt) ;;;
    (if dry_run then ret tt
     else
       check_remote <- subprocess_run git_remote_get_url false false ;;
       if negb (Z.eqb (returncode check_remote) 0) then
         run_command git_remote_add true false ;;; ret tt
       else ret tt) ;;;
    run_command git_push true dry_run ;;;
    ret true.

(** [setup_github_repository(dry_run=dry_run)]: the prerequisite checks of
    a live run, then the sequence; whatever the sequence raises is caught
    and answered with [False]. *)
Definition setup_github_repository (dry_run : bool) : St machine bool :=
  let attempt := try_except (setup_sequence dry_run) (fun _ => true) (fun _ => ret false) in
  if dry_run then attempt
  else if negb (fst (validate_repository_name project_name)) then ret false
  else
    exists_ <- dot_git_exists ;;
    if exists_ then ret false
    else
      gh <- check_command_exists (str "gh") ;;
      if negb gh then ret false
      else
        git <- check_command_exists (str "git") ;;
        if negb git then ret false
        else
          auth <- check_gh_auth ;;
          if negb auth then ret false
          else
            config <- check_git_config ;;
            if negb (fst config) then ret false
            else
              connect <- check_git_connectivity protocol ;;
              if negb (fst connect) && bool_decide (protocol = str "ssh") then ret false
              else attempt.
End Repository.
End Setup.

End PostGen.

(** ** The manifest pattern, read directly

    The pattern of [PyprojectTomlUpdater._build_pattern] needs no
    backtracking: each repetition stops at the first character outside its
    class, and that character is what the pattern wants next. [entry_at]
    reads an entry off the head of a text in that way; the properties below
    show that the matcher does the same. *)

(** The sub-pattern [\[[^\]]*\]]. *)
Definition extras_re : regex := Cat (Chr "[") (Cat (Many (is_not "]")) (Chr "]")).

(** The sub-pattern [>=([^\x22]+)\x22]. *)
Definition version_re : regex :=
  Cat (Chr ">") (Cat (Chr "=") (Cat (Grp 2 (Many1 (is_not dq))) (Chr dq))).

(** [>=], a version without a double quote, a double quote: the version and
    the text after the quote. *)
Definition version_at (s : text) : option (text * text) :=
  match s with
  | c1 :: c2 :: y =>
      if chr_eqb ">" c1 && chr_eqb "=" c2 then
        match span (is_not dq) y with
        | (c :: ver, _ :: rest) => Some (c :: ver, rest)
        | _ => None
        end
      else None
  | _ => None
  end.

(** An opening bracket, text without a closing bracket, a closing bracket:
    the bracketed text and the text after it. *)
Definition extras_at (s : text) : option (text * text) :=
  match s with
  | c :: s1 =>
      if chr_eqb "[" c then
        match span (is_not "]") s1 with
        | (e, _ :: rest) => Some (c :: e ++ ["]"], rest)
        | _ => None
        end
      else None
  | [] => None
  end.

(** An entry at the head of [s]: group 1, the version, and the text after
    the closing quote. The extras are tried first, as the pattern does. *)
Definition entry_at (package s : text) : option (text * text * text) :=
  match s with
  | c :: s1 =>
      if chr_eqb dq c then
        match strip package s1 with
        | Some s2 =>
            let plain :=
              match version_at s2 with
              | Some (ver, rest) => Some (dq :: package, ver, rest)
              | None => None
              end in
            match extras_at s2 with
            | Some (x, s3) =>
                match version_at s3 with
                | Some (ver, rest) => Some (dq :: package ++ x, ver, rest)
                | None => plain
                end
            | None => plain
            end
        | None => None
        end
      else None
  | [] => None
  end.

(** The text of an entry: [group 1 >= version \x22]. *)
Definition entry_text (g1 ver : text) : text := g1 ++ str ">=" ++ ver ++ [dq].

(** The compiled template of the manifest updater for a version that holds
    no backslash. *)
Definition manifest_template (version : text) : list titem :=
  TGroup 1 :: TChr ">" :: TChr "=" :: map TChr version ++ [TChr dq].

(** The substitution of the manifest updater on a text: the new text and the
    number of entries replaced. *)
Definition substituted (package version s : text) : text * nat :=
  subn_of 0 (PyprojectTomlUpdater._build_pattern package) (manifest_template version)
    s false.




(** In the text after an opening bracket, the bracket is closed before the
    next double quote (or neither follows). *)
Definition bracket_closed (r : text) : bool :=
  match snd (span (fun ch => is_not dq ch && is_not "]" ch) r) with
  | d :: _ => chr_eqb d "]"
  | [] => true
  end.

(** Wherever the package is written with an opening bracket for extras, the
    bracket is closed before the next double quote. *)
Fixpoint extras_closed (package s : text) : bool :=
  match s with
  | [] => true
  | _ :: s' =>
      match strip (dq :: package ++ ["["]) s with
      | Some r => bracket_closed r
      | None => true
      end && extras_closed package s'
  end.

(** ** Further notions used in the properties *)

(** From [w] to [w'] no file was created or removed, and only files among
    [paths] may have new contents. *)
Definition touches_only (paths : list string) (w w' : world) : Prop :=
  dom (files w') = dom (files w) /\
  forall p : string, p ∉ paths -> files w' !! p = files w !! p.

(** The five licences that come with a text, the value of the template
    option and the source file of each. *)
Inductive licence : Type := MIT | BSD | ISC | APACHE | GPL.

Definition licence_option (l : licence) : text :=
  match l with
  | MIT => str "MIT license"
  | BSD => str "BSD license"
  | ISC => str "ISC license"
  | APACHE => str "Apache Software License 2.0"
  | GPL => str "GNU General Public License v3"
  end.

Definition licence_source (l : licence) : string :=
  match l with
  | MIT => "LICENSE_MIT"
  | BSD => "LICENSE_BSD"
  | ISC => "LICENSE_ISC"
  | APACHE => "LICENSE_APACHE"
  | GPL => "LICENSE_GPL"
  end.

(** What [$] accepts: the end of the text, or one line feed before it. *)
Definition line_end (b : text) : bool :=
  match b with
  | [] => true
  | [c] => chr_eqb c nl
  | _ => false
  end.

(** At least one character of a class, up to the end of the line. *)
Definition run_to_end (p : ascii -> bool) (s : text) : bool :=
  let '(a, b) := span p s in negb (bool_decide (a = [])) && line_end b.

(** One character of the class [first], then at least one of the class
    [rest], up to the end of the line. *)
Definition identifier_like (first rest : ascii -> bool) (s : text) : bool :=
  match s with
  | c :: s1 => first c && run_to_end rest s1
  | [] => false
  end.

(** The project directory once the chosen licence has been moved: [LICENSE]
    holds its text [c], its source is gone, and the source [missing] is not
    there. *)
Definition moved (c : text) (source missing : string)
    (fs : gmap string PostGen.node) : Prop :=
  fs !! "LICENSE"%string = Some (PostGen.File c) /\
  fs !! source = None /\ fs !! missing = None.

(** A computation that raises and leaves such a directory. *)
Definition ends_raising {A : Type} (c : text) (source missing : string)
    (m : St (gmap string PostGen.node) A) (fs : gmap string PostGen.node) : Prop :=
  exists e fs', m fs = (Raise e, fs') /\ moved c source missing fs'.

(** A pattern without [^]: its matches do not depend on where the subject
    begins. *)
Fixpoint anchor_free (r : regex) : bool :=
  match r with
  | Bos => false
  | Cat r1 r2 => anchor_free r1 && anchor_free r2
  | Maybe r1 => anchor_free r1
  | Grp _ r1 => anchor_free r1
  | _ => true
  end.

(** A text that is empty or begins outside a class. *)
Definition starts_outside (p : ascii -> bool) (s : text) : bool :=
  match s with
  | [] => true
  | c :: _ => negb (p c)
  end.

(** One or more digits. *)
Definition is_number (a : text) : bool :=
  negb (bool_decide (a = [])) && forallb is_digit a.

(** The layout of the [uv-version] input of an action file: the white space
    after the key, the rest of the description line, the white space before
    [required:], the rest of that line, the white space before [default:]
    and the white space before the quoted version. *)
Record uv_layout : Type := {
  gap1 : text;
  description_line : text;
  gap2 : text;
  required_line : text;
  gap3 : text;
  gap4 : text
}.

Definition uv_layout_ok (y : uv_layout) : bool :=
  forallb is_space (gap1 y) && existsb (chr_eqb nl) (gap1 y)
  && forallb (is_not nl) (description_line y)
  && forallb is_space (gap2 y)
  && forallb (is_not nl) (required_line y)
  && forallb is_space (gap3 y)
  && forallb is_space (gap4 y).

(** The input up to the quote that opens the version. *)
Definition uv_head (y : uv_layout) : text :=
  str "uv-version:" ++ gap1 y ++ str "description:" ++ description_line y
    ++ nl :: gap2 y ++ str "required:" ++ required_line y
    ++ nl :: gap3 y ++ str "default:" ++ gap4 y ++ [dq].

Definition uv_block (y : uv_layout) (version : text) : text :=
  uv_head y ++ version ++ [dq].

(** A hook of the pre-commit configuration up to the quote that opens its
    revision: the address, white space with a line feed, [rev:] and white
    space. *)
Definition hook_head (repo_url gap_a gap_b : text) : text :=
  str "- repo: " ++ repo_url ++ gap_a ++ str "rev:" ++ gap_b ++ [dq].

Definition hook_block (repo_url gap_a gap_b rev : text) : text :=
  hook_head repo_url gap_a gap_b ++ rev ++ [dq].

(** The bound [requires-python = \x22>=a.b,<c.d\x22] of a manifest. *)
Definition python_bound (a b c d : text) : text :=
  str "requires-python = " ++ dq :: str ">=" ++ a ++ "." :: b ++ str ",<"
    ++ c ++ "." :: d ++ [dq].

(** The classifier of Python 3 with its comma, and the line the script adds
    after it. *)
Definition base_classifier : text :=
  dq :: str "Programming Language :: Python :: 3" ++ dq :: str ",".

Definition added_classifier (python_version : text) : text :=
  nl :: str "    " ++ dq :: str "Programming Language :: Python :: "
    ++ python_version ++ dq :: str ",".

(** The classifier of a version 3.d up to the end of its line, with or
    without a comma. *)
Definition version_classifier_line (d : text) (comma : bool) : text :=
  dq :: str "Programming Language :: Python :: 3." ++ d
    ++ dq :: (if comma then str "," else []) ++ [nl].

(** The text [re.subn] gives for the pattern of a hook and the replacement
    built from a version; a replacement that is no template leaves the text
    as it is. *)
Definition hook_substituted (repo_url version content : text) : text :=
  match re_subn (PreCommitConfigUpdater._build_pattern repo_url)
          (PreCommitConfigUpdater._build_replacement version) content with
  | Ok (new_content, _) => new_content
  | Raise _ => content
  end.

(** The configuration after the hooks, one after the other: the
    substitution of each hook whose fetch gave a version, on the text the
    hooks before it left. *)
Definition accumulated (get_github_tag : GitHubRepo -> option text)
    (hooks : list (text * GitHubRepo)) (content : text) : text :=
  fold_left
    (fun c hook =>
       if falsy (get_github_tag (snd hook)) then c
       else hook_substituted (fst hook) (default [] (get_github_tag (snd hook))) c)
    hooks content.



(** * Properties of the matcher *)

Section MatcherFacts.
Context {A : Type}.
Variable whole : nat.

Lemma many_bounded (p : ascii -> bool) (k : text -> option A) (s : text) (a : A) :
    many p k s = Some a ->
    exists s', length s' <= length s /\ k s' = Some a.
Proof.
    induction s as [|c s IH]; simpl; intros H.
    - exists []. auto.
    - destruct (p c).
      + destruct (many p k s) as [b|] eqn:E.
        * inversion H; subst b. destruct (IH eq_refl) as (s' & Hl & Hk).
          exists s'. split; [lia | exact Hk].
        * exists (c :: s). auto.
      + exists (c :: s). auto.
Qed.

  (** A successful run ends in a successful call of the continuation, on
      text no longer than the subject. *)
Lemma run_bounded (r : regex) :
    forall (s : text) (g : captures) (k : text -> captures -> option A) (a : A),
      run whole r s g k = Some a ->
      exists s' g', length s' <= length s /\ k s' g' = Some a.
Proof.
    induction r as [c|p|r1 IH1 r2 IH2| |r1 IH1|p|n r1 IH1| | ];
      intros s g k a H; simpl in H.
    - destruct s as [|c' s']; [discriminate|].
      destruct (chr_eqb c c'); [|discriminate].
      exists s', g. simpl. split; [lia | exact H].
    - destruct s as [|c' s']; [discriminate|].
      destruct (p c'); [|discriminate].
      exists s', g. simpl. split; [lia | exact H].
    - destruct (IH1 _ _ _ _ H) as (s1 & g1 & L1 & H1).
      destruct (IH2 _ _ _ _ H1) as (s2 & g2 & L2 & H2).
      exists s2, g2. split; [lia | exact H2].
    - exists s, g. auto.
    - destruct (run whole r1 s g k) as [b|] eqn:E.
      + inversion H; subst b. apply (IH1 _ _ _ _ E).
      + exists s, g. auto.
    - destruct (many_bounded _ _ _ _ H) as (s' & L & Hk). exists s', g. auto.
    - destruct (IH1 _ _ _ _ H) as (s' & g' & L & Hk). eauto.
    - destruct (length s =? whole); [|discriminate]. exists s, g. auto.
    - destruct s as [|c [|c' s']]; try discriminate.
      + exists [], g. auto.
      + destruct (chr_eqb c "010"); [|discriminate]. exists [c], g. auto.
Qed.

  (** A literal word is matched by stripping it off the subject. *)
Lemma run_lit (x s : text) (g : captures) (k : text -> captures -> option A) :
    run whole (lit x) s g k =
    match strip x s with
    | Some s' => k s' g
    | None => None
    end.
Proof.
    revert s. induction x as [|c x IH]; intros s; simpl; [reflexivity|].
    destruct s as [|c' s']; [reflexivity|].
    destruct (chr_eqb c c'); [apply IH | reflexivity].
Qed.

  (** Greedy repetition needs no backtracking when the continuation fails
      on every text that starts with a character of the class. *)
Lemma many_commit (p : ascii -> bool) (k : text -> option A) (s : text) :
    (forall c s', p c = true -> k (c :: s') = None) ->
    many p k s = k (snd (span p s)).
Proof.
    intros Hk. induction s as [|c s IH]; simpl; [reflexivity|].
    destruct (p c) eqn:Ep; [|reflexivity].
    rewrite IH. destruct (span p s) as [a b]. simpl.
    destruct (k b) eqn:Eb; [reflexivity|]. apply Hk, Ep.
Qed.
End MatcherFacts.

(** A match never reports more characters than the subject has, and under
    [must_advance] it reports at least one. *)
Lemma match_at_length (whole : nat) (r : regex) (s : text) (ma : bool) (n : nat)
    (g : captures) :
  match_at whole r s ma = Some (n, g) -> n <= length s /\ (ma = true -> 0 < n).
Proof.
  unfold match_at. intros H.
  destruct (run_bounded _ _ _ _ _ _ H) as (s' & g' & L & Hk).
  destruct ma; simpl in Hk.
  - destruct (length s' =? length s) eqn:E; [discriminate|].
    apply Nat.eqb_neq in E. inversion Hk; subst. split; [lia | intros _; lia].
  - inversion Hk; subst. split; [lia | discriminate].
Qed.

(** * Properties of the substitution loop *)

Lemma search_from_ge (whole : nat) (r : regex) (s : text) :
  forall (pos p n : nat) (g : captures),
    search_from whole r pos s = Some (p, n, g) -> pos <= p.
Proof.
  induction s as [|c s IH]; intros pos p n g H; simpl in H.
  - destruct (match_at whole r [] false) as [[n' g']|]; [|discriminate].
    inversion H; lia.
  - destruct (match_at whole r (c :: s) false) as [[n' g']|].
    + inversion H; lia.
    + apply IH in H. lia.
Qed.

Section SubnFacts.
Variable whole : nat.
Variable r : regex.
Variable t : list titem.

  (** Fuel beyond the bound does not change the result. *)
Lemma subn_go_fuel (f1 : nat) :
    forall (f2 : nat) (s : text) (ma : bool),
      2 * length s + (if ma then 0 else 1) < f1 ->
      2 * length s + (if ma then 0 else 1) < f2 ->
      subn_go whole r t f1 s ma = subn_go whole r t f2 s ma.
Proof.
    induction f1 as [|f1 IH]; intros f2 s ma H1 H2; [lia|].
    destruct f2 as [|f2]; [lia|]. simpl.
    destruct (match_at whole r s ma) as [[n g]|] eqn:E.
    - destruct (match_at_length _ _ _ _ _ _ E) as [Hn Hma].
      assert (Hd : length (drop n s) = length s - n) by apply length_drop.
      rewrite (IH f2 (drop n s) (n =? 0)); [reflexivity| |].
      + destruct (n =? 0) eqn:En.
        * apply Nat.eqb_eq in En. destruct ma; [specialize (Hma eq_refl); lia | lia].
        * apply Nat.eqb_neq in En. destruct ma; lia.
      + destruct (n =? 0) eqn:En.
        * apply Nat.eqb_eq in En. destruct ma; [specialize (Hma eq_refl); lia | lia].
        * apply Nat.eqb_neq in En. destruct ma; lia.
    - destruct s as [|c s']; [reflexivity|].
      rewrite (IH f2 s' false); [reflexivity| |]; simpl in *; destruct ma; lia.
Qed.

  (** One iteration of the loop. *)
Lemma subn_of_step (s : text) (ma : bool) :
    subn_of whole r t s ma =
    match match_at whole r s ma with
    | Some (n, g) =>
        let '(out, c) := subn_of whole r t (drop n s) (n =? 0) in
        (expand t g ++ out, S c)
    | None =>
        match s with
        | [] => ([], 0)
        | ch :: s' => let '(out, c) := subn_of whole r t s' false in (ch :: out, c)
        end
    end.
Proof.
    unfold subn_of. replace (2 * length s + 2) with (S (2 * length s + 1)) by lia.
    remember (2 * length s + 1) as f eqn:Ef. simpl subn_go.
    destruct (match_at whole r s ma) as [[n g]|] eqn:E.
    - destruct (match_at_length _ _ _ _ _ _ E) as [Hn Hma].
      assert (Hd : length (drop n s) = length s - n) by apply length_drop.
      rewrite (subn_go_fuel f (2 * length (drop n s) + 2) (drop n s) (n =? 0));
        [reflexivity| |].
      + destruct (n =? 0) eqn:En.
        * lia.
        * apply Nat.eqb_neq in En. lia.
      + destruct (n =? 0); lia.
    - destruct s as [|c s']; [reflexivity|].
      rewrite (subn_go_fuel f (2 * length s' + 2) s' false);
        [reflexivity| |]; simpl in *; lia.
Qed.

  (** Without a match anywhere the subject comes back unchanged. *)
Lemma subn_go_no_match (s : text) :
    forall (pos fuel : nat),
      search_from whole r pos s = None ->
      subn_go whole r t fuel s false = (s, 0).
Proof.
    induction s as [|c s IH]; intros pos fuel H; destruct fuel as [|fuel];
      try reflexivity; simpl in *.
    - destruct (match_at whole r [] false) as [[n g]|]; [discriminate | reflexivity].
    - destruct (match_at whole r (c :: s) false) as [[n g]|]; [discriminate|].
      rewrite (IH _ fuel H). reflexivity.
Qed.

  (** When the leftmost match starts after [pre], the loop copies [pre],
      writes the template and goes on after the match. *)
Lemma subn_of_leftmost (pre : text) :
    forall (rest : text) (pos n : nat) (g : captures),
      search_from whole r pos (pre ++ rest) = Some (pos + length pre, n, g) ->
      match_at whole r rest false = Some (n, g) /\
      subn_of whole r t (pre ++ rest) false =
        (let '(out, c) := subn_of whole r t (drop n rest) (n =? 0) in
         (pre ++ expand t g ++ out, S c)).
Proof.
    induction pre as [|c pre IH]; intros rest pos n g H.
    - simpl in H |- *. rewrite Nat.add_0_r in H.
      assert (E : match_at whole r rest false = Some (n, g)).
      { destruct rest as [|c rest]; simpl in H;
          destruct (match_at whole r _ false) as [[n' g']|].
        - inversion H; reflexivity.
        - discriminate.
        - inversion H; reflexivity.
        - apply search_from_ge in H. lia. }
      split; [exact E|]. rewrite subn_of_step, E. reflexivity.
    - simpl in H.
      destruct (match_at whole r (c :: pre ++ rest) false) as [[n' g']|] eqn:E.
      + inversion H. simpl in *. lia.
      + replace (pos + S (length pre)) with (S pos + length pre) in H by lia.
        destruct (IH _ _ _ _ H) as [Hm Hs]. split; [exact Hm|].
        simpl app. rewrite subn_of_step, E, Hs.
        destruct (subn_of whole r t (drop n rest) (n =? 0)). reflexivity.
Qed.
End SubnFacts.

(** * Templates *)

Lemma parse_template_chr (n : nat) (c : ascii) (s : text) :
  chr_eqb c "\" = false ->
  parse_template n None (c :: s) = addchr c (parse_template n None s).
Proof. intros H. simpl. rewrite H. reflexivity. Qed.

Lemma parse_template_plain (n : nat) (v rest : text) (t : list titem) :
  backslash_free v = true ->
  parse_template n None rest = Ok t ->
  parse_template n None (v ++ rest) = Ok (map TChr v ++ t).
Proof.
  intros Hv Hr. induction v as [|c v IH]; simpl in Hv |- *; [exact Hr|].
  apply andb_prop in Hv. destruct Hv as [Hc Hv].
  apply negb_true_iff in Hc.
  change (parse_template n None (c :: v ++ rest) = Ok (TChr c :: map TChr v ++ t)).
  rewrite (parse_template_chr n c _ Hc), (IH Hv). reflexivity.
Qed.

Lemma expand_chars (v : text) (t : list titem) (g : captures) :
  expand (map TChr v ++ t) g = v ++ expand t g.
Proof. induction v as [|c v IH]; simpl; [reflexivity | rewrite IH; reflexivity]. Qed.

Lemma groups_lit (x : text) : groups (lit x) = 0.
Proof. induction x as [|c x IH]; simpl; [reflexivity | exact IH]. Qed.

Lemma pyproject_groups (package : text) :
  groups (PyprojectTomlUpdater._build_pattern package) = 2.
Proof. simpl. rewrite groups_lit. reflexivity. Qed.

Lemma pyproject_template (package version : text) :
  backslash_free version = true ->
  parse_template (groups (PyprojectTomlUpdater._build_pattern package)) None
    (PyprojectTomlUpdater._build_replacement version) =
  Ok (TGroup 1 :: TChr ">" :: TChr "=" :: map TChr version ++ [TChr dq]).
Proof.
  intros Hv. rewrite pyproject_groups.
  unfold PyprojectTomlUpdater._build_replacement.
  assert (E : parse_template 2 None (version ++ [dq])
              = Ok (map TChr version ++ [TChr dq])).
  { apply parse_template_plain; [exact Hv | reflexivity]. }
  change (parse_template 2 None (str "\g<1>>=" ++ version ++ [dq]))
    with (addgroup 2 1 (addchr ">" (addchr "=" (parse_template 2 None (version ++ [dq]))))).
  rewrite E. reflexivity.
Qed.

Lemma action_groups : groups ActionYmlUpdater.PATTERN = 2.
Proof. reflexivity. Qed.

Lemma action_template (version : text) :
  backslash_free version = true ->
  parse_template (groups ActionYmlUpdater.PATTERN) None
    (ActionYmlUpdater._build_replacement version) =
  Ok (TGroup 1 :: map TChr version ++ [TGroup 2]).
Proof.
  intros Hv. rewrite action_groups.
  unfold ActionYmlUpdater._build_replacement.
  assert (E : parse_template 2 None (version ++ str "\2")
              = Ok (map TChr version ++ [TGroup 2])).
  { apply parse_template_plain; [exact Hv | reflexivity]. }
  change (parse_template 2 None (str "\g<1>" ++ version ++ str "\2"))
    with (addgroup 2 1 (parse_template 2 None (version ++ str "\2"))).
  rewrite E. reflexivity.
Qed.

(** * A file without a match *)

Lemma re_subn_no_match (r : regex) (repl s : text) (t : list titem) :
  parse_template (groups r) None repl = Ok t ->
  re_search r s = None ->
  re_subn r repl s = Ok (s, 0).
Proof.
  intros Ht Hs. unfold re_subn. rewrite Ht. unfold subn_of.
  rewrite (subn_go_no_match _ _ _ _ 0 _ Hs). reflexivity.
Qed.

(** C7, as the code has it: for a file whose contents hold no match of the
    updater's pattern, and a fetched version that holds no backslash, a live
    update of that file returns [False] without raising, leaves the world
    (contents, writes, log) as it was and adds nothing to the count; for
    the manifest updater and for the action updater. *)
Theorem update_without_match_is_noop :
  forall (w : world) (filepath : string) (content version : text) (n : nat),
    files w !! filepath = Some content ->
    backslash_free version = true ->
    (forall package : text,
       re_search (PyprojectTomlUpdater._build_pattern package) content = None ->
       PyprojectTomlUpdater._update_file filepath package version w = (Ok false, w) /\
       PyprojectTomlUpdater.update_one false package version n filepath w = (Ok n, w)) /\
    (re_search ActionYmlUpdater.PATTERN content = None ->
     ActionYmlUpdater._update_file filepath version w = (Ok false, w) /\
     ActionYmlUpdater.update_one false version n filepath w = (Ok n, w)).
Proof.
  intros w filepath content version n Hf Hv. split.
  - intros package Hs.
    assert (U : PyprojectTomlUpdater._update_file filepath package version w
                = (Ok false, w)).
    { unfold PyprojectTomlUpdater._update_file, bind, read_text. rewrite Hf.
      rewrite (re_subn_no_match _ _ _ _ (pyproject_template package version Hv) Hs).
      reflexivity. }
    split; [exact U|].
    unfold PyprojectTomlUpdater.update_one, bind, path_exists. rewrite Hf.
    rewrite bool_decide_eq_true_2 by eauto. simpl. rewrite U. reflexivity.
  - intros Hs.
    assert (U : ActionYmlUpdater._update_file filepath version w = (Ok false, w)).
    { unfold ActionYmlUpdater._update_file, bind, read_text. rewrite Hf.
      rewrite (re_subn_no_match _ _ _ _ (action_template version Hv) Hs).
      reflexivity. }
    split; [exact U|].
    unfold ActionYmlUpdater.update_one, bind, path_exists. rewrite Hf.
    rewrite bool_decide_eq_true_2 by eauto. simpl. rewrite U. reflexivity.
Qed.

Lemma update_without_match_is_noop_witness :
  let w := World {[ "pyproject.toml"%string := str "name = 1" ]} [] [] in
  PyprojectTomlUpdater._update_file "pyproject.toml" (str "ruff") (str "2.0.0") w
    = (Ok false, w) /\
  ActionYmlUpdater._update_file "pyproject.toml" (str "2.0.0") w = (Ok false, w).
Proof.
  intros w.
  destruct (update_without_match_is_noop w "pyproject.toml" (str "name = 1")
              (str "2.0.0") 0 eq_refl eq_refl) as [P A].
  split.
  - apply (P (str "ruff")). vm_compute. reflexivity.
  - apply A. vm_compute. reflexivity.
Defined.

(** C7, as stated, fails: the replacement is compiled as a template before
    the search begins, so a fetched version with a bad escape, such as
    [\q], makes the update raise although the file holds no match. *)
Lemma update_without_match_can_raise :
  let content := str "name = 1" in
  let w := World {[ "pyproject.toml"%string := content ]} [] [] in
  re_search (PyprojectTomlUpdater._build_pattern (str "ruff")) content = None /\
  re_search ActionYmlUpdater.PATTERN content = None /\
  PyprojectTomlUpdater._update_file "pyproject.toml" (str "ruff") (str "\q") w
    = (Raise ReError, w) /\
  PyprojectTomlUpdater.update_one false (str "ruff") (str "\q") 0 "pyproject.toml" w
    = (Raise ReError, w) /\
  ActionYmlUpdater._update_file "pyproject.toml" (str "\q") w = (Raise ReError, w).
Proof. vm_compute. auto. Qed.

(** * The stored files under the loops *)

(** Two worlds with the same files and the same writes. *)
Lemma log_same_store (l : level) (msg : text) (w : world) :
  same_store w (snd (log l msg w)).
Proof. split; reflexivity. Qed.

Lemma same_store_refl (w : world) : same_store w w.
Proof. split; reflexivity. Qed.

Lemma same_store_trans (w1 w2 w3 : world) :
  same_store w1 w2 -> same_store w2 w3 -> same_store w1 w3.
Proof. intros [A1 B1] [A2 B2]. split; congruence. Qed.

Lemma for_each_same_store {X S : Type} (body : S -> X -> M S) (xs : list X) :
  (forall acc x w, same_store w (snd (body acc x w))) ->
  forall acc w, same_store w (snd (for_each xs body acc w)).
Proof.
  intros Hb. induction xs as [|x xs IH]; intros acc w; simpl.
  - apply same_store_refl.
  - unfold bind. specialize (Hb acc x w).
    destruct (body acc x w) as [[acc'|e] w1]; simpl in Hb.
    + eapply same_store_trans; [exact Hb | apply IH].
    + exact Hb.
Qed.

Section PreCommitFacts.
Import PreCommitConfigUpdater.
Variable get_github_tag : GitHubRepo -> option text.

Lemma update_hook_step_same_store (config_file : string) (dry_run : bool)
      (acc : text * nat) (hook : text * GitHubRepo) (w : world) :
    same_store w (snd (update_hook_step get_github_tag config_file dry_run acc hook w)).
Proof.
    unfold update_hook_step. destruct acc as [content n], hook as [url gh].
    destruct (falsy (get_github_tag gh)); [split; reflexivity|].
    destruct dry_run.
    - destruct (_matches content url); split; reflexivity.
    - unfold bind, lift.
      destruct (_update_hook content url _) as [[c u]|e]; simpl;
        [destruct u|]; split; reflexivity.
Qed.

Lemma hook_step_without_update (config_file : string) (content url : text)
      (gh : GitHubRepo) (w : world) :
    falsy (get_github_tag gh) = true \/
    re_search (_build_pattern url) content = None ->
    match fst (update_hook_step get_github_tag config_file false
                 (content, 0) (url, gh) w) with
    | Ok acc => acc = (content, 0)
    | Raise _ => True
    end.
Proof.
    intros H. unfold update_hook_step.
    destruct (falsy (get_github_tag gh)) eqn:F; [reflexivity|].
    destruct H as [F'|N]; [congruence|].
    unfold bind, lift, _update_hook, re_subn.
    destruct (parse_template _ None _) as [t|e]; [|exact I].
    unfold subn_of. rewrite (subn_go_no_match _ _ _ _ 0 _ N). reflexivity.
Qed.

  (** Hooks whose fetch fails or whose pattern has no match leave the
      local variables of the loop as they are. *)
Lemma hooks_without_update (config_file : string) (content : text)
      (hooks : list (text * GitHubRepo)) :
    (forall url gh, In (url, gh) hooks ->
       falsy (get_github_tag gh) = true \/
       re_search (_build_pattern url) content = None) ->
    forall w,
      match fst (for_each hooks (update_hook_step get_github_tag config_file false)
                   (content, 0) w) with
      | Ok acc => acc = (content, 0)
      | Raise _ => True
      end.
Proof.
    induction hooks as [|[url gh] hooks IH]; intros H w; [reflexivity|].
    cbn [for_each]. unfold bind.
    pose proof (hook_step_without_update config_file content url gh w
                  (H url gh (or_introl eq_refl))) as E.
    destruct (update_hook_step get_github_tag config_file false (content, 0)
                (url, gh) w) as [[acc|e] w1]; simpl in E; [|exact I].
    subst acc. apply IH. intros u g Hin. apply H. right. exact Hin.
Qed.

Lemma subn_go_count_zero (whole : nat) (r : regex) (t : list titem) (fuel : nat) :
    forall (s out : text) (ma : bool),
      subn_go whole r t fuel s ma = (out, 0) -> out = s.
Proof.
    induction fuel as [|fuel IH]; intros s out ma H; cbn [subn_go] in H.
    - inversion H. reflexivity.
    - destruct (match_at whole r s ma) as [[n g]|].
      + destruct (subn_go whole r t fuel (drop n s) (n =? 0)) as [o c].
        inversion H.
      + destruct s as [|ch s']; [inversion H; reflexivity|].
        destruct (subn_go whole r t fuel s' false) as [o c] eqn:E.
        inversion H; subst. rewrite (IH _ _ _ E). reflexivity.
Qed.

  (** What [_update_hook] returns is the text of the substitution, and the
      flag is up only when that text is new. *)
Lemma update_hook_result (content url version c : text) (u : bool) :
    _update_hook content url version = Ok (c, u) ->
    c = hook_substituted url version content /\ (u = false -> c = content).
Proof.
    unfold _update_hook, hook_substituted, re_subn.
    destruct (parse_template _ None _) as [t|e]; [|discriminate].
    destruct (subn_of _ _ t content false) as [out k] eqn:E.
    destruct ((0 <? k) && bool_decide (out <> content)) eqn:B; intros H;
      inversion H; subst c u.
    - split; [reflexivity | discriminate].
    - split; [|reflexivity].
      apply andb_false_iff in B. destruct B as [B|B].
      + apply Nat.ltb_ge in B. assert (k = 0) by lia. subst k.
        unfold subn_of in E. symmetry. exact (subn_go_count_zero _ _ _ _ _ _ _ E).
      + apply bool_decide_eq_false in B. destruct (decide (out = content)) as [D|D];
          [symmetry; exact D | contradiction].
Qed.

Lemma update_hook_step_result (config_file : string) (content : text) (n : nat)
      (hook : text * GitHubRepo) (w : world) (c : text) (n' : nat) (w' : world) :
    update_hook_step get_github_tag config_file false (content, n) hook w
      = (Ok (c, n'), w') ->
    c = accumulated get_github_tag [hook] content /\
    n <= n' /\ (n' = n -> c = content).
Proof.
    unfold update_hook_step, accumulated. destruct hook as [url gh]. cbn [fold_left fst snd].
    destruct (falsy (get_github_tag gh)) eqn:F.
    - cbn. intros H. inversion H; subst. auto.
    - unfold bind, lift.
      destruct (_update_hook content url (default [] (get_github_tag gh)))
        as [[c1 u]|e] eqn:U; [|discriminate].
      destruct (update_hook_result _ _ _ _ _ U) as [E1 E2].
      destruct u; cbn; intros H; inversion H as [[Hc Hn Hw]].
      + split; [rewrite <- Hc; exact E1|]. split; lia.
      + split; [rewrite <- Hc, <- E1; symmetry; exact (E2 eq_refl)|]. split; [lia|].
        intros _. congruence.
Qed.

Lemma hooks_accumulate (config_file : string) (hooks : list (text * GitHubRepo)) :
    forall (content : text) (n : nat) (w : world) (c : text) (n' : nat) (w' : world),
      for_each hooks (update_hook_step get_github_tag config_file false) (content, n) w
        = (Ok (c, n'), w') ->
      c = accumulated get_github_tag hooks content /\
      n <= n' /\ (n' = n -> c = content).
Proof.
    induction hooks as [|hook hooks IH]; intros content n w c n' w' H.
    - cbn in H. inversion H; subst. auto.
    - cbn [for_each] in H. unfold bind in H.
      destruct (update_hook_step get_github_tag config_file false (content, n) hook w)
        as [[[c1 n1]|e] w1] eqn:E1; [|discriminate].
      destruct (update_hook_step_result _ _ _ _ _ _ _ _ E1) as (A1 & L1 & Z1).
      destruct (IH _ _ _ _ _ _ H) as (A2 & L2 & Z2).
      split; [|split; [lia|]].
      + rewrite A2, A1. reflexivity.
      + intros Hn. assert (n1 = n) by lia. assert (n' = n1) by lia.
        rewrite (Z2 ltac:(assumption)). apply Z1. assumption.
Qed.

  (** C10: a live [PreCommitConfigUpdater.update] writes the configuration
      file at most once, and only when at least one hook was updated. With
      a positive count there is exactly one write, of the configuration
      file, and the text written is the text the substitutions of all the
      hooks with a fetched version give, each on the result of the one
      before. With count 0 nothing is written, and that text is the text
      the file has; when the run raises nothing is written either. When
      every hook has a failed fetch or no match, nothing is written. *)
Theorem precommit_update_writes_at_most_once :
    forall (config_file : string) (w : world),
      let out := update get_github_tag config_file false w in
      match fst out with
      | Ok (S _) =>
          exists content,
            files w !! config_file = Some content /\
            let c := accumulated get_github_tag PREK_HOOKS content in
            written (snd out) = written w ++ [(config_file, c)] /\
            files (snd out) = <[config_file := c]> (files w)
      | Ok 0 =>
          same_store w (snd out) /\
          (forall content,
             files w !! config_file = Some content ->
             accumulated get_github_tag PREK_HOOKS content = content)
      | Raise _ => same_store w (snd out)
      end /\
      (forall content,
         files w !! config_file = Some content ->
         (forall url gh, In (url, gh) PREK_HOOKS ->
            falsy (get_github_tag gh) = true \/
            re_search (_build_pattern url) content = None) ->
         same_store w (snd out)).
Proof.
    intros config_file w out. subst out. unfold update.
    generalize PREK_HOOKS. intros hooks.
    unfold bind, path_exists, read_text.
    destruct (files w !! config_file) as [content|] eqn:Hf.
    2:{ rewrite bool_decide_eq_false_2 by (intros [x Hx]; discriminate).
        simpl. split; [|intros c Hc; discriminate].
        split; [apply same_store_refl | intros c Hc; discriminate]. }
    rewrite bool_decide_eq_true_2 by eauto. simpl. rewrite Hf.
    pose proof (for_each_same_store
                  (update_hook_step get_github_tag config_file false) hooks
                  (update_hook_step_same_store config_file false) (content, 0) w) as Hs.
    pose proof (hooks_without_update config_file content hooks) as Hn.
    pose proof (hooks_accumulate config_file hooks content 0 w) as Ha.
    destruct (for_each hooks _ (content, 0) w) as [[[c n]|e] w1] eqn:E;
      simpl in Hs.
    - destruct (Ha c n w1 eq_refl) as (Ac & _ & Zc).
      destruct n as [|n]; simpl.
      + split; [|intros; exact Hs]. split; [exact Hs|].
        intros content' Hc. inversion Hc; subst content'.
        rewrite <- Ac. apply Zc. reflexivity.
      + split.
        * exists content. split; [reflexivity|]. rewrite <- Ac.
          destruct Hs as [Hfi Hwr]. simpl. rewrite Hfi, Hwr. auto.
        * intros content' Hc Hall. inversion Hc; subst content'.
          specialize (Hn Hall w). rewrite E in Hn. simpl in Hn. discriminate.
    - simpl. split; [exact Hs | intros; exact Hs].
Qed.
End PreCommitFacts.

Lemma precommit_update_writes_at_most_once_witness :
  let hooks_url := str "https://github.com/pre-commit/pre-commit-hooks" in
  let ruff_url := str "https://github.com/astral-sh/ruff-pre-commit" in
  let gap := nl :: str "    " in
  let config (ruff_rev : text) :=
    str "repos:" ++ nl :: str "  "
      ++ hook_block hooks_url gap (str " ") (str "v5.0.0") ++ nl :: str "  "
      ++ hook_block ruff_url gap (str " ") ruff_rev ++ [nl] in
  let get := fun r : GitHubRepo =>
               if bool_decide (repo r = str "ruff-pre-commit") then Some (str "0.7.0")
               else None in
  let w := World {[ ".pre-commit-config.yaml"%string := config (str "v0.6.3") ]} [] [] in
  let out := PreCommitConfigUpdater.update get ".pre-commit-config.yaml" false w in
  fst out = Ok 1 /\
  written (snd out) = [(".pre-commit-config.yaml"%string, config (str "v0.7.0"))] /\
  files (snd out) = {[ ".pre-commit-config.yaml"%string := config (str "v0.7.0") ]}.
Proof.
  intros hooks_url ruff_url gap config get w out.
  assert (E : fst out = Ok 1) by (vm_compute; reflexivity).
  split; [exact E|].
  destruct (precommit_update_writes_at_most_once get ".pre-commit-config.yaml" w)
    as [H _].
  fold out in H. rewrite E in H. destruct H as (content & Hf & Hw & Hfi).
  assert (Ec : content = config (str "v0.6.3")).
  { unfold w in Hf. cbn [files] in Hf. rewrite lookup_singleton_eq in Hf.
    inversion Hf. reflexivity. }
  subst content.
  assert (Ea : accumulated get PREK_HOOKS (config (str "v0.6.3")) = config (str "v0.7.0"))
    by (vm_compute; reflexivity).
  rewrite Ea in Hw, Hfi. split.
  - rewrite Hw. reflexivity.
  - rewrite Hfi. unfold w. cbn [files]. apply insert_singleton_eq.
Defined.

(** * Computations that do not look at the log *)

Lemma respects_ret {A : Type} (a : A) : respects (ret a).
Proof. intros w1 w2 H. split; [reflexivity | exact H]. Qed.

Lemma respects_raise {A : Type} (e : exn) : respects (@raise world A e).
Proof. intros w1 w2 H. split; [reflexivity | exact H]. Qed.

Lemma respects_lift {A : Type} (r : result A) : respects (lift r).
Proof. destruct r; [apply respects_ret | apply respects_raise]. Qed.

Lemma respects_bind {A B : Type} (m : M A) (k : A -> M B) :
  respects m -> (forall a, respects (k a)) -> respects (bind m k).
Proof.
  intros Hm Hk w1 w2 H. unfold bind. destruct (Hm w1 w2 H) as [E S1].
  destruct (m w1) as [[a|e] w1'], (m w2) as [[a'|e'] w2']; simpl in E, S1;
    try discriminate.
  - inversion E; subst a'. apply Hk, S1.
  - inversion E; subst e'. split; [reflexivity | exact S1].
Qed.

Lemma respects_log (l : level) (msg : text) : respects (log l msg).
Proof. intros w1 w2 [F W]. split; [reflexivity | split; simpl; assumption]. Qed.

Lemma respects_path_exists (p : string) : respects (path_exists p).
Proof.
  intros w1 w2 [F W]. unfold path_exists. simpl. rewrite F.
  split; [reflexivity | split; assumption].
Qed.

Lemma respects_read_text (p : string) : respects (read_text p).
Proof.
  intros w1 w2 [F W]. unfold read_text. rewrite F.
  destruct (files w1 !! p); (split; [reflexivity | split; assumption]).
Qed.

Lemma respects_write_text (p : string) (c : text) : respects (write_text p c).
Proof.
  intros w1 w2 [F W]. unfold write_text. simpl. rewrite F, W.
  split; [reflexivity | split; reflexivity].
Qed.

Lemma respects_for_each {X S : Type} (body : S -> X -> M S) (xs : list X) :
  (forall acc x, respects (body acc x)) ->
  forall acc, respects (for_each xs body acc).
Proof.
  intros Hb. induction xs as [|x xs IH]; intros acc; simpl.
  - apply respects_ret.
  - apply respects_bind; [apply Hb | intros a; apply IH].
Qed.

Create HintDb respects.
#[local] Hint Resolve respects_ret respects_raise respects_lift respects_log
  respects_path_exists respects_read_text respects_write_text : respects.

Ltac respects_tac :=
  repeat first
    [ apply respects_bind; [|intros ?]
    | progress eauto with respects
    | match goal with
      | |- respects (if ?b then _ else _) => destruct b
      | |- respects (let '(_, _) := ?p in _) => destruct p
      | |- respects (match ?p with _ => _ end) => destruct p
      end ].

Section PyprojectFacts.
Import PyprojectTomlUpdater.
Variable get_pypi_version : text -> option text.

Lemma respects_update_file (filepath : string) (package version : text) :
    respects (_update_file filepath package version).
Proof. unfold _update_file. respects_tac. Qed.

Lemma respects_matches (filepath : string) (package : text) :
    respects (_matches filepath package).
Proof. unfold _matches. respects_tac. Qed.

Lemma respects_update_one (dry_run : bool) (package version : text) (n : nat)
      (filepath : string) :
    respects (update_one dry_run package version n filepath).
Proof.
    unfold update_one.
    pose proof (respects_update_file filepath package version).
    pose proof (respects_matches filepath package).
    respects_tac.
Qed.

Lemma respects_update_package (self_files : list string) (dry_run : bool) (n : nat)
      (package : text) :
    respects (update_package get_pypi_version self_files dry_run n package).
Proof.
    unfold update_package. destruct (falsy (get_pypi_version package)).
    - respects_tac.
    - apply respects_for_each. intros acc x. apply respects_update_one.
Qed.

  (** A package whose fetch fails costs one warning and nothing else. *)
Lemma update_package_failed (self_files : list string) (dry_run : bool) (n : nat)
      (package : text) (w : world) :
    falsy (get_pypi_version package) = true ->
    update_package get_pypi_version self_files dry_run n package w =
    (Ok n, {| files := files w; written := written w;
              logged := logged w ++
                        [(WARNING, str "Failed to fetch version for " ++ package)] |}).
Proof. intros F. unfold update_package. rewrite F. reflexivity. Qed.

Lemma packages_skip_failed (self_files : list string) (dry_run : bool)
      (packages : list text) :
    forall (n : nat) (w1 w2 : world),
      same_store w1 w2 ->
      let out := for_each packages
                   (update_package get_pypi_version self_files dry_run) n w2 in
      let ref := for_each (List.filter (fun p => negb (falsy (get_pypi_version p))) packages)
                   (update_package get_pypi_version self_files dry_run) n w1 in
      fst out = fst ref /\ same_store (snd ref) (snd out).
Proof.
    induction packages as [|p ps IH]; intros n w1 w2 H; simpl.
    - split; [reflexivity | exact H].
    - destruct (falsy (get_pypi_version p)) eqn:F; simpl.
      + unfold bind. rewrite (update_package_failed _ _ _ _ _ F).
        apply IH. destruct H as [Hf Hw]. split; simpl; assumption.
      + unfold bind.
        destruct (respects_update_package self_files dry_run n p w1 w2 H) as [E S1].
        destruct (update_package _ _ _ n p w1) as [[a|e] w1'],
                 (update_package _ _ _ n p w2) as [[a'|e'] w2'];
          simpl in E, S1; try discriminate.
        * inversion E; subst a'. apply IH, S1.
        * split; [symmetry; exact E | exact S1].
Qed.

End PyprojectFacts.

(** * The licence branches of the post-generation hook *)

Section LicenseFacts.
Import PostGen.

Lemma remove_file_present (p : string) (c : text) (fs : gmap string node) :
  fs !! p = Some (File c) -> remove_file p fs = (Ok tt, delete p fs).
Proof. intros H. unfold remove_file. rewrite H. reflexivity. Qed.


End LicenseFacts.

(** * The pre-generation hook *)

Section PreGenFacts.
Import PreGen.

(** C8: when the project name does not match its pattern, or the project
    slug does not match its pattern, the script prints one error and ends
    with [sys.exit(1)]; no command has been run by then, and the script
    touches no file on any path. *)
Theorem invalid_name_or_slug_cancels :
  forall (project_name project_slug python_version : text) (uv : uv_list),
    re_match PROJECT_NAME_REGEX project_name = None \/
    re_match PROJECT_SLUG_REGEX project_slug = None ->
    exists m : message,
      pre_gen_project project_name project_slug python_version uv
      = (Exit 1, [Printed m]).
Proof.
  intros project_name project_slug python_version uv H. unfold pre_gen_project.
  destruct (re_match PROJECT_NAME_REGEX project_name) as [x|] eqn:En.
  - destruct H as [H|H]; [discriminate|]. rewrite H.
    rewrite bool_decide_eq_true_2 by eauto.
    rewrite bool_decide_eq_false_2 by (intros [y Hy]; discriminate).
    simpl. eauto.
  - rewrite bool_decide_eq_false_2 by (intros [y Hy]; discriminate).
    simpl. eauto.
Qed.

Lemma invalid_name_or_slug_cancels_witness :
  exists m : message,
    pre_gen_project (str "my_project") (str "my_project") (str "3.12")
      (Listed (str "cpython-3.12.1"))
    = (Exit 1, [Printed m]).
Proof.
  apply invalid_name_or_slug_cancels. left. vm_compute. reflexivity.
Defined.

(** A name the pattern accepts: a first character of the class, then at
    least one more, then the end or one final line feed. *)
Lemma project_name_accepted (c : ascii) (rest : text) :
  name_start c = true -> rest <> [] -> forallb name_char rest = true ->
  is_Some (re_match PROJECT_NAME_REGEX (c :: rest)).
Proof.
  intros Hc Hr Hall. unfold re_match, match_at, PROJECT_NAME_REGEX.
  cbn [cat run Many1]. rewrite Nat.eqb_refl, Hc.
  destruct rest as [|d rest]; [congruence|]. simpl in Hall.
  apply andb_prop in Hall. destruct Hall as [Hd Hall]. rewrite Hd.
  clear Hr Hc Hd. generalize (length (c :: d :: rest)). intros n.
  induction rest as [|e rest IH]; simpl in *.
  - eauto.
  - apply andb_prop in Hall. destruct Hall as [He Hall]. rewrite He.
    destruct (IH Hall) as [x Hx]. rewrite Hx. eauto.
Qed.
End PreGenFacts.

(** * The fetchers *)

Section FetcherFacts.
Import Fetchers.

(** When the request fails, with an HTTP error, a URL error or a body that
    is not JSON, each fetcher returns [None]. *)
Lemma fetchers_none_on_failed_request (urlopen_json : text -> fetched) :
  (forall url v, urlopen_json url <> Loaded v) ->
  (forall package, get_pypi_version urlopen_json package = Ok JNull) /\
  (forall repo, get_github_release urlopen_json repo = Ok JNull) /\
  (forall repo, get_github_tag urlopen_json repo = Ok JNull).
Proof.
  intros H.
  assert (F : forall url, _fetch_json urlopen_json url = JNull).
  { intros url. unfold _fetch_json.
    destruct (negb _); [reflexivity|].
    destruct (urlopen_json url) as [ | | |v] eqn:E; try reflexivity.
    exfalso. exact (H url v E). }
  repeat split; intros x.
  - unfold get_pypi_version. rewrite F. reflexivity.
  - unfold get_github_release. rewrite F. reflexivity.
  - unfold get_github_tag. rewrite F. reflexivity.
Qed.

(** A body whose top-level value is not of the expected kind gives [None]. *)
Lemma fetchers_none_on_wrong_top_level (urlopen_json : text -> fetched) :
  (forall package,
     _is_dict (_fetch_json urlopen_json
                 (str "https://pypi.org/pypi/" ++ package ++ str "/json")) = false ->
     get_pypi_version urlopen_json package = Ok JNull) /\
  (forall repo,
     _is_list (_fetch_json urlopen_json
                 (str "https://api.github.com/repos/" ++ GitHubRepo_str repo
                    ++ str "/tags")) = false ->
     get_github_tag urlopen_json repo = Ok JNull).
Proof.
  split.
  - intros package H. unfold get_pypi_version. rewrite H. reflexivity.
  - intros repo H. unfold get_github_tag.
    destruct (_fetch_json urlopen_json _); try reflexivity. discriminate.
Qed.

(** C6: a body of unexpected shape below the top level is not answered
    with [None]. For the body [{info: []}] [get_pypi_version] raises
    [AttributeError]; for [{info: {version: 5}}] it returns the number 5,
    which is neither a string nor [None]; for [{tag_name: 5}]
    [get_github_release] raises [AttributeError]. *)
Theorem fetchers_on_unexpected_shape :
  get_pypi_version (fun _ => Loaded (JDict [(str "info", JList [])])) (str "ruff")
    = Raise AttributeError /\
  get_pypi_version
    (fun _ => Loaded (JDict [(str "info", JDict [(str "version", JInt 5)])])) (str "ruff")
    = Ok (JInt 5) /\
  get_github_release (fun _ => Loaded (JDict [(str "tag_name", JInt 5)])) UV_REPO
    = Raise AttributeError.
Proof. repeat split. Qed.
End FetcherFacts.

(** * The prerequisite checks of the GitHub setup *)

Section SetupFacts.
Import PostGen.
Variable Sys : Type.
Variable exec : list text -> gmap string node -> Sys -> proc * gmap string node * Sys.
Variable on_time : list text -> gmap string node -> Sys -> bool.
Variable which : text -> Sys -> bool.

Abbreviation machine := (PostGen.machine Sys).
Abbreviation probes := (probes_only Sys exec).

Lemma exec_all_app (t1 t2 : list (list text)) (fs : gmap string node) (s : Sys) :
  exec_all Sys exec (t1 ++ t2) fs s =
  exec_all Sys exec t2 (fst (exec_all Sys exec t1 fs s)) (snd (exec_all Sys exec t1 fs s)).
Proof.
  revert fs s. induction t1 as [|c t1 IH]; intros fs s; [reflexivity|].
  cbn [app exec_all]. destruct (exec c fs s) as [[p fs'] s']. apply IH.
Qed.

Lemma probes_only_refl (m : machine) : probes m m.
Proof.
  exists []. split; [constructor|]. split; [rewrite app_nil_r|]; reflexivity.
Qed.

Lemma probes_only_trans (m1 m2 m3 : machine) :
  probes m1 m2 -> probes m2 m3 -> probes m1 m3.
Proof.
  intros (t1 & F1 & E1 & X1) (t2 & F2 & E2 & X2). exists (t1 ++ t2). split.
  - apply Forall_app; auto.
  - split; [rewrite E2, E1, app_assoc; reflexivity|].
    rewrite exec_all_app, <- X1. exact X2.
Qed.

(** Commands that leave the project directory as it is leave it so when run
    one after the other; the same for the machine. *)
Lemma exec_all_keeps_project (commands tr : list (list text))
    (fs : gmap string node) (s : Sys) :
  (forall c fs0 s0, In c commands -> snd (fst (exec c fs0 s0)) = fs0) ->
  Forall (fun c => In c commands) tr ->
  fst (exec_all Sys exec tr fs s) = fs.
Proof.
  intros Hk Htr. revert fs s. induction Htr as [|c tr Hc Htr IH]; intros fs s;
    [reflexivity|].
  cbn [exec_all]. specialize (Hk c fs s Hc).
  destruct (exec c fs s) as [[p fs'] s']. cbn [fst snd] in Hk. subst fs'. apply IH.
Qed.

Lemma exec_all_keeps_sys (commands tr : list (list text))
    (fs : gmap string node) (s : Sys) :
  (forall c fs0 s0, In c commands -> snd (exec c fs0 s0) = s0) ->
  Forall (fun c => In c commands) tr ->
  snd (exec_all Sys exec tr fs s) = s.
Proof.
  intros Hk Htr. revert fs s. induction Htr as [|c tr Hc Htr IH]; intros fs s;
    [reflexivity|].
  cbn [exec_all]. specialize (Hk c fs s Hc).
  destruct (exec c fs s) as [[p fs'] s']. cbn [fst snd] in Hk. subst s'. apply IH.
Qed.

(** A probe without [check] either returns or finds no such command; with
    a time limit it may also time out. *)
Lemma subprocess_run_probe (c : list text) (timeout : bool) (m : machine) :
  In c probe_commands ->
  exists m', probes m m' /\
    ((exists r, subprocess_run Sys exec on_time c false timeout m = (Ok r, m')) \/
     subprocess_run Sys exec on_time c false timeout m = (Raise FileNotFoundError, m') \/
     (timeout = true /\
      subprocess_run Sys exec on_time c false timeout m = (Raise TimeoutExpired, m'))).
Proof.
  intros Hc. unfold subprocess_run.
  destruct (exec c (project Sys m) (sys Sys m)) as [[p fs'] s'] eqn:Ex.
  exists {| project := fs'; sys := s'; ran := ran Sys m ++ [c] |}. split.
  { exists [c]. split; [constructor; [exact Hc | constructor]|].
    split; [reflexivity|]. cbn [exec_all project sys]. rewrite Ex. reflexivity. }
  destruct timeout; simpl.
  - destruct (on_time c (project Sys m) (sys Sys m)); simpl; [|auto].
    destruct p as [rc out err|]; eauto.
  - destruct p as [rc out err|]; eauto.
Qed.

Ltac probe c t :=
  let m := fresh "m" in let P := fresh "P" in let r := fresh "r" in
  let E := fresh "E" in
  match goal with
  | |- context [subprocess_run Sys exec on_time c false t ?m0] =>
      destruct (subprocess_run_probe c t m0 ltac:(simpl; tauto))
        as (m & P & [[r E]|[E|[? E]]]); try discriminate; rewrite E; clear E
  end.

(** The three checks that run commands always return, and run probes only. *)
Lemma check_gh_auth_total (m : machine) :
  exists b m', check_gh_auth Sys exec on_time m = (Ok b, m') /\ probes m m'.
Proof.
  unfold check_gh_auth, try_except, bind.
  probe (cmd ["gh"; "auth"; "status"]%string) false; simpl; eauto.
Qed.

Lemma check_git_config_total (m : machine) :
  exists b m', check_git_config Sys exec on_time m = (Ok b, m') /\ probes m m'.
Proof.
  unfold check_git_config, try_except, bind.
  probe (cmd ["git"; "config"; "user.name"]%string) false; cbv beta iota; eauto.
  probe (cmd ["git"; "config"; "user.email"]%string) false; cbv beta iota.
  - destruct (_ ++ _); simpl; eauto using probes_only_trans.
  - eauto using probes_only_trans.
Qed.

Lemma check_git_connectivity_total (protocol : text) (m : machine) :
  exists b m', check_git_connectivity Sys exec on_time protocol m = (Ok b, m')
               /\ probes m m'.
Proof.
  unfold check_git_connectivity, try_except, bind.
  destruct (bool_decide (protocol = str "ssh")).
  - probe (cmd ["ssh"; "-T"; "git@github.com"]%string) true; simpl; eauto.
    destruct (contains _ _); simpl; eauto.
  - probe (cmd ["git"; "config"; "--get"; "credential.helper"]%string) false;
      simpl; eauto.
    destruct (_ && _); simpl; eauto.
Qed.

(** C9: in a live run of [setup_github_repository], when a prerequisite
    check fails (the repository name is invalid, [.git] exists, [gh] or
    [git] is not installed, [gh] is not authenticated, the git user is not
    configured, or the protocol is [ssh] and the connection test fails),
    the function returns [False]; the only commands run are those of the
    checks, none of the setup sequence, and the project directory and the
    machine are what those commands left. So when the commands of the
    checks change no file, the project directory is as it was, and when
    they leave the machine alone, so does the function: no repository is
    created. *)
Theorem failed_prerequisite_aborts_before_setup :
  forall (project_name author_handle protocol : text) (m : machine),
    let m1 := snd (check_gh_auth Sys exec on_time m) in
    let m2 := snd (check_git_config Sys exec on_time m1) in
    fst (validate_repository_name project_name) = false \/
    is_Some (project Sys m !! ".git"%string) \/
    which (str "gh") (sys Sys m) = false \/
    which (str "git") (sys Sys m) = false \/
    fst (check_gh_auth Sys exec on_time m) = Ok false \/
    (exists msg, fst (check_git_config Sys exec on_time m1) = Ok (false, msg)) \/
    (protocol = str "ssh" /\
     exists msg,
       fst (check_git_connectivity Sys exec on_time protocol m2) = Ok (false, msg)) ->
    exists m',
      setup_github_repository Sys exec on_time which project_name author_handle
        protocol false m = (Ok false, m') /\
      probes m m' /\
      ((forall c fs s, In c probe_commands -> snd (fst (exec c fs s)) = fs) ->
       project Sys m' = project Sys m) /\
      ((forall c fs s, In c probe_commands -> snd (exec c fs s) = s) ->
       sys Sys m' = sys Sys m).
Proof.
  intros project_name author_handle protocol m m1 m2 H.
  cut (exists m',
         setup_github_repository Sys exec on_time which project_name author_handle
           protocol false m = (Ok false, m') /\ probes m m').
  { intros (m' & E & tr & Ftr & Eran & Est). exists m'. split; [exact E|].
    split; [exists tr; auto|]. split; intros Hk.
    - change (project Sys m') with (fst (project Sys m', sys Sys m')). rewrite Est.
      apply (exec_all_keeps_project probe_commands); assumption.
    - change (sys Sys m') with (snd (project Sys m', sys Sys m')). rewrite Est.
      apply (exec_all_keeps_sys probe_commands); assumption. }
  unfold setup_github_repository. cbv beta iota zeta.
  destruct (fst (validate_repository_name project_name)) eqn:V; cbn [negb].
  2:{ exists m. split; [reflexivity | apply probes_only_refl]. }
  destruct H as [H|H]; [discriminate|].
  unfold bind at 1. unfold dot_git_exists at 1.
  destruct (bool_decide (is_Some (project Sys m !! ".git"%string))) eqn:G.
  { exists m. split; [reflexivity | apply probes_only_refl]. }
  destruct H as [H|H]; [apply bool_decide_eq_false in G; contradiction|].
  unfold bind at 1. unfold check_command_exists at 1.
  destruct (which (str "gh") (sys Sys m)) eqn:Wgh; cbn [negb].
  2:{ exists m. split; [reflexivity | apply probes_only_refl]. }
  destruct H as [H|H]; [discriminate|].
  unfold bind at 1. unfold check_command_exists at 1.
  destruct (which (str "git") (sys Sys m)) eqn:Wgit; cbn [negb].
  2:{ exists m. split; [reflexivity | apply probes_only_refl]. }
  destruct H as [H|H]; [discriminate|].
  unfold bind at 1. subst m1 m2.
  destruct (check_gh_auth_total m) as (a & ma & Ea & Pa). rewrite Ea in *. cbn [fst snd] in H.
  destruct a; cbn [negb].
  2:{ exists ma. split; [reflexivity | exact Pa]. }
  destruct H as [H|H]; [discriminate|].
  unfold bind at 1.
  destruct (check_git_config_total ma) as ([b msg] & mb & Eb & Pb).
  rewrite Eb in *. cbn [fst snd] in H.
  destruct b; cbn [negb fst].
  2:{ exists mb. split; [reflexivity | eauto using probes_only_trans]. }
  destruct H as [[msg' H]|[Hssh [msg' H]]]; [discriminate|].
  unfold bind at 1.
  destruct (check_git_connectivity_total protocol mb) as ([c msgc] & mc & Ec & Pc).
  rewrite Ec in *. cbn [fst snd] in H. inversion H; subst c msgc. cbn [negb fst andb].
  rewrite bool_decide_eq_true_2 by exact Hssh.
  exists mc. split; [reflexivity | eauto using probes_only_trans].
Qed.

(** No command of the setup sequence is a command of the checks. *)
Lemma setup_commands_are_not_probes (project_name author_handle protocol : text) :
  Forall (fun c => ~ In c probe_commands)
    (setup_commands project_name author_handle protocol).
Proof.
  unfold setup_commands, probe_commands.
  repeat (constructor;
          [simpl; intros H; repeat destruct H as [H|H];
           try discriminate H; exact H|]).
  constructor.
Qed.
End SetupFacts.

Lemma failed_prerequisite_aborts_before_setup_witness :
  let exec := fun (c : list text) (fs : gmap string PostGen.node) (s : unit) =>
                if bool_decide (c = PostGen.cmd ["gh"; "auth"; "status"]%string)
                then (PostGen.Completed 1 [] (str "not logged in"), fs, s)
                else (PostGen.Completed 0 [] [], fs, s) in
  let m := {| PostGen.project := {[ "README.md"%string := PostGen.File (str "readme") ]};
              PostGen.sys := tt; PostGen.ran := [] |} in
  exists m',
    PostGen.setup_github_repository unit exec (fun _ _ _ => true) (fun _ _ => true)
      (str "my-project") (str "me") (str "ssh") false m = (Ok false, m') /\
    PostGen.ran unit m' = [PostGen.cmd ["gh"; "auth"; "status"]%string] /\
    PostGen.project unit m' = PostGen.project unit m.
Proof.
  intros exec m.
  destruct (failed_prerequisite_aborts_before_setup unit exec (fun _ _ _ => true)
              (fun _ _ => true) (str "my-project") (str "me") (str "ssh") m)
    as (m' & E & _ & Hp & _).
  - right. right. right. right. left. reflexivity.
  - exists m'. split; [exact E|]. split.
    + assert (E0 : PostGen.setup_github_repository unit exec (fun _ _ _ => true)
                     (fun _ _ => true) (str "my-project") (str "me") (str "ssh") false m
                   = (Ok false,
                      {| PostGen.project := PostGen.project unit m; PostGen.sys := tt;
                         PostGen.ran := [PostGen.cmd ["gh"; "auth"; "status"]%string] |}))
        by reflexivity.
      rewrite E0 in E. inversion E. reflexivity.
    + apply Hp. intros c fs s _. unfold exec. destruct (bool_decide _); reflexivity.
Defined.

(** * Dry runs *)

Section DryRunFacts.

Lemma pyproject_dry_run_same_store (get_pypi_version : text -> option text)
    (self_files : list string) (w : world) :
  same_store w (snd (PyprojectTomlUpdater.update get_pypi_version self_files true w)).
Proof.
  unfold PyprojectTomlUpdater.update. apply for_each_same_store. clear w.
  intros n package w. unfold PyprojectTomlUpdater.update_package.
  destruct (falsy (get_pypi_version package)); [split; reflexivity|].
  apply for_each_same_store. clear w n.
  intros n filepath w.
  unfold PyprojectTomlUpdater.update_one, PyprojectTomlUpdater._matches,
    bind, path_exists, read_text.
  destruct (files w !! filepath) as [c|] eqn:E.
  - rewrite bool_decide_eq_true_2 by eauto. cbn [negb]. rewrite E.
    cbv beta iota. unfold ret at 1.
    destruct (bool_decide _); split; reflexivity.
  - rewrite bool_decide_eq_false_2 by (intros [x Hx]; discriminate).
    split; reflexivity.
Qed.

Lemma precommit_dry_run_same_store (get_github_tag : GitHubRepo -> option text)
    (config_file : string) (w : world) :
  same_store w (snd (PreCommitConfigUpdater.update get_github_tag config_file true w)).
Proof.
  unfold PreCommitConfigUpdater.update. generalize PREK_HOOKS. intros hooks.
  unfold bind, path_exists, read_text.
  destruct (files w !! config_file) as [content|] eqn:Hf.
  2:{ rewrite bool_decide_eq_false_2 by (intros [x Hx]; discriminate).
      split; reflexivity. }
  rewrite bool_decide_eq_true_2 by eauto. cbn [negb]. rewrite Hf.
  pose proof (for_each_same_store
                (PreCommitConfigUpdater.update_hook_step get_github_tag config_file true)
                hooks (update_hook_step_same_store get_github_tag config_file true)
                (content, 0) w) as Hs.
  destruct (for_each hooks _ (content, 0) w) as [[[c n]|e] w1]; exact Hs.
Qed.

(** C3: a dry run leaves every file as it is, but its count is the number
    of matches, not the number of updates a live run applies. On a manifest
    that already names the fetched version the dry run of
    [PyprojectTomlUpdater.update] returns 1 and the live run returns 0; the
    same holds for [PreCommitConfigUpdater.update] on a configuration that
    already names the fetched tag. *)
Theorem dry_run_counts_entries_that_are_up_to_date :
  let manifest := World {[ "pyproject.toml"%string :=
                             str "dependencies = [" ++ [dq] ++ str "ruff>=2.0.0"
                               ++ [dq] ++ str "]" ]} [] [] in
  let get_pypi_version := fun _ : text => Some (str "2.0.0") in
  let config := World {[ ".pre-commit-config.yaml"%string :=
                           str "  - repo: https://github.com/astral-sh/ruff-pre-commit"
                             ++ [nl] ++ str "    rev: " ++ [dq] ++ str "v0.5.0" ++ [dq]
                             ++ [nl] ]} [] [] in
  let get_github_tag := fun _ : GitHubRepo => Some (str "0.5.0") in
  (fst (PyprojectTomlUpdater.update get_pypi_version ["pyproject.toml"%string] true
          manifest) = Ok 1 /\
   fst (PyprojectTomlUpdater.update get_pypi_version ["pyproject.toml"%string] false
          manifest) = Ok 0) /\
  (fst (PreCommitConfigUpdater.update get_github_tag ".pre-commit-config.yaml" true
          config) = Ok 1 /\
   fst (PreCommitConfigUpdater.update get_github_tag ".pre-commit-config.yaml" false
          config) = Ok 0).
Proof. vm_compute. auto. Qed.
End DryRunFacts.

(** * The manifest pattern needs no backtracking *)

Lemma span_app (p : ascii -> bool) (s : text) :
  s = fst (span p s) ++ snd (span p s).
Proof.
  induction s as [|c s IH]; simpl; [reflexivity|].
  destruct (p c); [|reflexivity].
  destruct (span p s) as [a b]. simpl in *. rewrite IH at 1. reflexivity.
Qed.

Lemma span_all (p : ascii -> bool) (s : text) :
  forallb p (fst (span p s)) = true.
Proof.
  induction s as [|c s IH]; simpl; [reflexivity|].
  destruct (p c) eqn:E; [|reflexivity].
  destruct (span p s) as [a b]. simpl in *. rewrite E, IH. reflexivity.
Qed.

Lemma span_stop (p : ascii -> bool) (s : text) (c : ascii) (rest : text) :
  snd (span p s) = c :: rest -> p c = false.
Proof.
  induction s as [|d s IH]; simpl; [discriminate|].
  destruct (p d) eqn:E.
  - destruct (span p s) as [a b]. simpl in *. exact IH.
  - simpl. intros H. inversion H; subst. exact E.
Qed.

(** The span of a text that is a run of the class followed by a character
    outside it. *)
Lemma span_run (p : ascii -> bool) (a : text) (c : ascii) (rest : text) :
  forallb p a = true -> p c = false ->
  span p (a ++ c :: rest) = (a, c :: rest).
Proof.
  intros Ha Hc. induction a as [|d a IH]; simpl in *.
  - rewrite Hc. reflexivity.
  - apply andb_prop in Ha. destruct Ha as [Hd Ha]. rewrite Hd, (IH Ha). reflexivity.
Qed.

Lemma span_whole (p : ascii -> bool) (a : text) :
  forallb p a = true -> span p a = (a, []).
Proof.
  intros Ha. induction a as [|d a IH]; simpl in *; [reflexivity|].
  apply andb_prop in Ha. destruct Ha as [Hd Ha]. rewrite Hd, (IH Ha). reflexivity.
Qed.

Lemma strip_app (x s s' : text) : strip x s = Some s' -> s = x ++ s'.
Proof.
  revert s. induction x as [|c x IH]; intros s H; simpl in H.
  - inversion H; reflexivity.
  - destruct s as [|d s]; [discriminate|].
    destruct (chr_eqb c d) eqn:E; [|discriminate].
    apply Ascii.eqb_eq in E. subst d. rewrite (IH _ H). reflexivity.
Qed.

Lemma strip_prefix (x s : text) : strip x (x ++ s) = Some s.
Proof.
  induction x as [|c x IH]; simpl; [reflexivity|].
  unfold chr_eqb. rewrite Ascii.eqb_refl. exact IH.
Qed.

Lemma take_prefix (a b : text) : take (length (a ++ b) - length b) (a ++ b) = a.
Proof.
  rewrite length_app, Nat.add_sub. apply take_app_length.
Qed.

Section PatternFacts.
Context {A : Type}.
Variable whole : nat.

Lemma run_extras (s : text) (g : captures) (k : text -> captures -> option A) :
  run whole extras_re s g k =
  match extras_at s with
  | Some (_, rest) => k rest g
  | None => None
  end.
Proof.
  unfold extras_re, extras_at. cbn [run].
  destruct s as [|c s1]; [reflexivity|].
  destruct (chr_eqb "[" c); [|reflexivity].
  rewrite many_commit.
  - destruct (span (is_not "]") s1) as [e r] eqn:E. cbn [snd].
    destruct r as [|d rest]; [reflexivity|].
    assert (Hd : is_not "]" d = false).
    { apply (span_stop _ s1 d rest). rewrite E. reflexivity. }
    unfold is_not in Hd. apply negb_false_iff in Hd. rewrite Hd. reflexivity.
  - intros d s' Hd. unfold is_not in Hd. apply negb_true_iff in Hd.
    rewrite Hd. reflexivity.
Qed.

Lemma run_version (s : text) (g : captures) (k : text -> captures -> option A) :
  run whole version_re s g k =
  match version_at s with
  | Some (ver, rest) => k rest (<[2 := ver]> g)
  | None => None
  end.
Proof.
  unfold version_re, version_at, Many1. cbn [run].
  destruct s as [|c1 s]; [reflexivity|].
  destruct (chr_eqb ">" c1); [|destruct s; reflexivity].
  destruct s as [|c2 y]; [reflexivity|].
  destruct (chr_eqb "=" c2); [|reflexivity]. cbn [andb].
  destruct y as [|c y']; [reflexivity|]. cbn [span].
  destruct (is_not dq c) eqn:Ec; [|reflexivity].
  rewrite many_commit.
  - pose proof (span_app (is_not dq) y') as Happ.
    destruct (span (is_not dq) y') as [v r] eqn:E. cbn [fst snd] in *.
    destruct r as [|d rest]; [reflexivity|].
    assert (Hd : is_not dq d = false).
    { apply (span_stop _ y' d rest). rewrite E. reflexivity. }
    unfold is_not in Hd. apply negb_false_iff in Hd. rewrite Hd.
    f_equal. f_equal. rewrite Happ.
    change (c :: v ++ d :: rest) with ((c :: v) ++ d :: rest).
    apply take_prefix.
  - intros d s' Hd. unfold is_not in Hd. apply negb_true_iff in Hd.
    rewrite Hd. reflexivity.
Qed.
End PatternFacts.

Lemma not_dq (d : ascii) : is_not dq d = false -> d = dq.
Proof.
  unfold is_not, chr_eqb. intros H. apply negb_false_iff in H.
  apply Ascii.eqb_eq in H. congruence.
Qed.

Lemma version_at_shape (s ver rest : text) :
  version_at s = Some (ver, rest) ->
  s = str ">=" ++ ver ++ dq :: rest /\ ver <> [] /\ forallb (is_not dq) ver = true.
Proof.
  unfold version_at. destruct s as [|c1 [|c2 y]]; try discriminate.
  destruct (chr_eqb ">" c1) eqn:E1; [|discriminate].
  destruct (chr_eqb "=" c2) eqn:E2; [|discriminate]. cbn [andb].
  apply Ascii.eqb_eq in E1, E2. subst c1 c2.
  pose proof (span_app (is_not dq) y) as Happ.
  pose proof (span_all (is_not dq) y) as Hall.
  pose proof (span_stop (is_not dq) y) as Hstop.
  destruct (span (is_not dq) y) as [[|c v] [|d r]]; try discriminate.
  cbn [fst snd] in *. intros H. inversion H; subst ver rest.
  rewrite (not_dq d (Hstop d r eq_refl)) in Happ.
  split; [rewrite Happ; reflexivity | split; [discriminate | exact Hall]].
Qed.

Lemma extras_at_shape (s x rest : text) :
  extras_at s = Some (x, rest) ->
  s = x ++ rest /\
  exists e, x = "[" :: e ++ ["]"] /\ forallb (is_not "]") e = true.
Proof.
  unfold extras_at. destruct s as [|c s1]; [discriminate|].
  destruct (chr_eqb "[" c) eqn:E; [|discriminate].
  apply Ascii.eqb_eq in E. subst c.
  pose proof (span_app (is_not "]") s1) as Happ.
  pose proof (span_all (is_not "]") s1) as Hall.
  pose proof (span_stop (is_not "]") s1) as Hstop.
  destruct (span (is_not "]") s1) as [e [|d r]]; [discriminate|].
  cbn [fst snd] in *. intros H. inversion H; subst x rest.
  assert (Hd : d = "]").
  { specialize (Hstop d r eq_refl). unfold is_not, chr_eqb in Hstop.
    apply negb_false_iff in Hstop. apply Ascii.eqb_eq in Hstop. congruence. }
  subst d. split.
  - rewrite Happ. cbn [app]. rewrite <- app_assoc. reflexivity.
  - exists e. auto.
Qed.

(** What an entry at the head of a text looks like. *)
Lemma entry_at_shape (package s g1 ver rest : text) :
  entry_at package s = Some (g1, ver, rest) ->
  s = entry_text g1 ver ++ rest /\ ver <> [] /\ forallb (is_not dq) ver = true /\
  (g1 = dq :: package \/
   exists e, g1 = dq :: package ++ "[" :: e ++ ["]"]
             /\ forallb (is_not "]") e = true).
Proof.
  unfold entry_at. destruct s as [|c s1]; [discriminate|].
  destruct (chr_eqb dq c) eqn:E; [|discriminate].
  apply Ascii.eqb_eq in E. subst c.
  destruct (strip package s1) as [s2|] eqn:Es; [|discriminate].
  apply strip_app in Es. subst s1.
  assert (Plain : match version_at s2 with
                  | Some (ver0, rest0) => Some (dq :: package, ver0, rest0)
                  | None => None
                  end = Some (g1, ver, rest) ->
                  dq :: package ++ s2 = entry_text g1 ver ++ rest /\ ver <> [] /\
                  forallb (is_not dq) ver = true /\
                  (g1 = dq :: package \/
                   exists e, g1 = dq :: package ++ "[" :: e ++ ["]"]
                             /\ forallb (is_not "]") e = true)).
  { destruct (version_at s2) as [[v r]|] eqn:Ev; [|discriminate].
    intros H. inversion H; subst g1 ver rest.
    destruct (version_at_shape _ _ _ Ev) as (Hs & Hne & Hall). subst s2.
    unfold entry_text. cbn [app]. rewrite <- !app_assoc. auto. }
  destruct (extras_at s2) as [[x s3]|] eqn:Ex; [|exact Plain].
  destruct (version_at s3) as [[v r]|] eqn:Ev; [|exact Plain].
  intros H. inversion H; subst g1 ver rest.
  destruct (extras_at_shape _ _ _ Ex) as (Hs & e & Hx & He). subst s2.
  destruct (version_at_shape _ _ _ Ev) as (Hs3 & Hne & Hall). subst s3 x.
  unfold entry_text. cbn [app]. rewrite <- !app_assoc. cbn [app].
  split; [|split; [exact Hne|split; [exact Hall|right; exists e; auto]]].
  do 3 f_equal. rewrite <- app_assoc. reflexivity.
Qed.

Lemma pattern_shape (package : text) :
  PyprojectTomlUpdater._build_pattern package =
  Cat (Grp 1 (Cat (Chr dq) (Cat (lit package) (Maybe extras_re)))) version_re.
Proof. reflexivity. Qed.

(** The matcher on the manifest pattern finds exactly the entry that
    [entry_at] reads. *)
Lemma match_at_entry (whole : nat) (package s : text) (ma : bool) :
  match_at whole (PyprojectTomlUpdater._build_pattern package) s ma =
  match entry_at package s with
  | Some (g1, ver, rest) =>
      Some (length (entry_text g1 ver), <[2 := ver]> (<[1 := g1]> ∅))
  | None => None
  end.
Proof.
  unfold match_at. rewrite pattern_shape. cbn [run].
  pose proof (entry_at_shape package s) as Shape.
  unfold entry_at in *. destruct s as [|c s1]; [reflexivity|].
  destruct (chr_eqb dq c) eqn:E; [|reflexivity].
  rewrite run_lit.
  destruct (strip package s1) as [s2|] eqn:Es; [|reflexivity].
  pose proof (strip_app _ _ _ Es) as Hs1.
  apply Ascii.eqb_eq in E. subst c.
  (* the two ways to go on after the package name *)
  assert (Tail : forall x s3,
            s2 = x ++ s3 ->
            run whole version_re s3
              (<[1 := take (length (dq :: s1) - length s3) (dq :: s1)]> ∅)
              (fun s' g =>
                 if ma && (length s' =? length (dq :: s1)) then None
                 else Some (length (dq :: s1) - length s', g)) =
            match version_at s3 with
            | Some (ver, rest) =>
                Some (length (entry_text (dq :: package ++ x) ver),
                      <[2 := ver]> (<[1 := dq :: package ++ x]> ∅))
            | None => None
            end).
  { intros x s3 Hx. rewrite run_version.
    destruct (version_at s3) as [[ver rest]|] eqn:Ev; [|reflexivity].
    destruct (version_at_shape _ _ _ Ev) as (Hs3 & _ & _).
    assert (Hall : dq :: s1 = entry_text (dq :: package ++ x) ver ++ rest).
    { rewrite Hs1, Hx, Hs3. unfold entry_text. cbn [app].
      rewrite <- !app_assoc. reflexivity. }
    assert (Hg1 : dq :: s1 = (dq :: package ++ x) ++ s3).
    { rewrite Hs1, Hx. cbn [app]. rewrite <- app_assoc. reflexivity. }
    replace (take (length (dq :: s1) - length s3) (dq :: s1))
      with (dq :: package ++ x)
      by (rewrite Hg1; symmetry; apply take_prefix).
    assert (Hlen : length (dq :: s1)
                   = length (entry_text (dq :: package ++ x) ver) + length rest).
    { rewrite Hall at 1. apply length_app. }
    rewrite Hlen.
    replace (length rest =? length (entry_text (dq :: package ++ x) ver) + length rest)
      with false.
    - rewrite andb_false_r. rewrite Nat.add_sub. reflexivity.
    - symmetry. apply Nat.eqb_neq. unfold entry_text. rewrite !length_app. simpl. lia. }
  rewrite run_extras.
  destruct (extras_at s2) as [[x s3]|] eqn:Ex.
  - destruct (extras_at_shape _ _ _ Ex) as (Hx & _).
    rewrite (Tail x s3 Hx).
    destruct (version_at s3) as [[ver rest]|]; [reflexivity|].
    rewrite (Tail [] s2 eq_refl). rewrite app_nil_r.
    destruct (version_at s2) as [[ver rest]|]; reflexivity.
  - rewrite (Tail [] s2 eq_refl). rewrite app_nil_r.
    destruct (version_at s2) as [[ver rest]|]; reflexivity.
Qed.

(** * The substitution of the manifest updater, entry by entry *)

Section ManifestFacts.
Import PyprojectTomlUpdater.
Variable package version : text.

Lemma expand_manifest_template (g1 ver : text) :
  expand (manifest_template version) (<[2 := ver]> (<[1 := g1]> ∅))
  = entry_text g1 version.
Proof.
  unfold manifest_template, entry_text. cbn [expand].
  rewrite lookup_insert_ne by discriminate. rewrite lookup_insert_eq. cbn [default].
  rewrite expand_chars. reflexivity.
Qed.

(** The loop on the manifest pattern does not depend on where the subject
    begins: the pattern has no anchor. *)
Lemma subn_go_manifest_whole (w1 w2 : nat) (t : list titem) (fuel : nat) :
  forall (s : text) (ma : bool),
    subn_go w1 (_build_pattern package) t fuel s ma
    = subn_go w2 (_build_pattern package) t fuel s ma.
Proof.
  induction fuel as [|fuel IH]; intros s ma; [reflexivity|].
  cbn [subn_go]. rewrite !match_at_entry.
  destruct (entry_at package s) as [[[g1 ver] rest]|].
  - rewrite IH. reflexivity.
  - destruct s as [|c s']; [reflexivity|]. rewrite IH. reflexivity.
Qed.

Lemma re_subn_manifest (s : text) :
  backslash_free version = true ->
  re_subn (_build_pattern package) (_build_replacement version) s
  = Ok (substituted package version s).
Proof.
  intros Hv. unfold re_subn. rewrite (pyproject_template package version Hv).
  unfold substituted, subn_of. fold (manifest_template version).
  rewrite (subn_go_manifest_whole (length s) 0). reflexivity.
Qed.

(** One step of the substitution. *)
Lemma substituted_step (s : text) :
  substituted package version s =
  match entry_at package s with
  | Some (g1, _, rest) =>
      let '(out, c) := substituted package version rest in
      (entry_text g1 version ++ out, S c)
  | None =>
      match s with
      | [] => ([], 0)
      | ch :: s' =>
          let '(out, c) := substituted package version s' in (ch :: out, c)
      end
  end.
Proof.
  unfold substituted. rewrite subn_of_step, match_at_entry.
  pose proof (entry_at_shape package s) as Shape.
  destruct (entry_at package s) as [[[g1 ver] rest]|]; [|reflexivity].
  destruct (Shape g1 ver rest eq_refl) as (Hs & _).
  rewrite expand_manifest_template.
  replace (drop (length (entry_text g1 ver)) s) with rest
    by (rewrite Hs at 1; symmetry; apply drop_app_length).
  replace (length (entry_text g1 ver) =? 0) with false; [reflexivity|].
  symmetry. apply Nat.eqb_neq. unfold entry_text. rewrite !length_app. simpl. lia.
Qed.

End ManifestFacts.

(** * Entries written by the updater are entries again *)

Lemma version_at_built (ver rest : text) :
  ver <> [] -> forallb (is_not dq) ver = true ->
  version_at (str ">=" ++ ver ++ dq :: rest) = Some (ver, rest).
Proof.
  intros Hne Hall. unfold version_at. cbn [str list_ascii_of_string app].
  change (chr_eqb ">" ">" && chr_eqb "=" "=") with true. cbv iota.
  rewrite (span_run (is_not dq) ver dq rest Hall eq_refl).
  destruct ver; [congruence | reflexivity].
Qed.

Lemma entry_at_plain (package ver rest : text) :
  ver <> [] -> forallb (is_not dq) ver = true ->
  entry_at package (entry_text (dq :: package) ver ++ rest)
  = Some (dq :: package, ver, rest).
Proof.
  intros Hne Hall. unfold entry_text.
  replace (((dq :: package) ++ str ">=" ++ ver ++ [dq]) ++ rest)
    with (dq :: package ++ str ">=" ++ ver ++ dq :: rest)
    by (cbn [app]; rewrite <- !app_assoc; reflexivity).
  unfold entry_at. change (chr_eqb dq dq) with true. cbv iota.
  rewrite strip_prefix.
  change (extras_at (str ">=" ++ ver ++ dq :: rest)) with (@None (text * text)).
  cbv iota. rewrite (version_at_built ver rest Hne Hall). reflexivity.
Qed.

Lemma entry_at_extras (package e ver rest : text) :
  forallb (is_not "]") e = true ->
  ver <> [] -> forallb (is_not dq) ver = true ->
  entry_at package (entry_text (dq :: package ++ "[" :: e ++ ["]"]) ver ++ rest)
  = Some (dq :: package ++ "[" :: e ++ ["]"], ver, rest).
Proof.
  intros He Hne Hall. unfold entry_text.
  replace (((dq :: package ++ "[" :: e ++ ["]"]) ++ str ">=" ++ ver ++ [dq]) ++ rest)
    with (dq :: package ++ "[" :: e ++ "]" :: str ">=" ++ ver ++ dq :: rest)
    by (cbn [app]; rewrite <- !app_assoc; cbn [app]; rewrite <- !app_assoc;
        reflexivity).
  unfold entry_at. change (chr_eqb dq dq) with true. cbv iota.
  rewrite strip_prefix.
  unfold extras_at. change (chr_eqb "[" "[") with true. cbv iota.
  rewrite (span_run (is_not "]") e "]" _ He eq_refl).
  rewrite (version_at_built ver rest Hne Hall). reflexivity.
Qed.

(** An entry read from a text is read again, with the new version, from the
    text the updater writes for it. *)
Lemma entry_at_rewritten (package s g1 ver rest version rest' : text) :
  entry_at package s = Some (g1, ver, rest) ->
  version <> [] -> forallb (is_not dq) version = true ->
  entry_at package (entry_text g1 version ++ rest') = Some (g1, version, rest').
Proof.
  intros H Hne Hall.
  destruct (entry_at_shape _ _ _ _ _ H) as (_ & _ & _ & [Hg|(e & Hg & He)]); subst g1.
  - apply entry_at_plain; assumption.
  - apply entry_at_extras; assumption.
Qed.

Section LeftmostFacts.
Import PyprojectTomlUpdater.
Variable package version : text.

Lemma match_at_none_entry (whole : nat) (s : text) :
  match_at whole (_build_pattern package) s false = None ->
  entry_at package s = None.
Proof.
  rewrite match_at_entry. destruct (entry_at package s) as [[[g1 ver] rest]|];
    [discriminate | reflexivity].
Qed.

(** The text before the leftmost match is copied. *)
Lemma substituted_before_leftmost (whole : nat) (pre : text) :
  forall (rest : text) (pos n : nat) (g : captures),
    search_from whole (_build_pattern package) pos (pre ++ rest)
      = Some (pos + length pre, n, g) ->
    substituted package version (pre ++ rest) =
    (let '(out, c) := substituted package version rest in (pre ++ out, c)).
Proof.
  induction pre as [|c pre IH]; intros rest pos n g H.
  - simpl. destruct (substituted package version rest). reflexivity.
  - cbn [app search_from] in H.
    destruct (match_at whole (_build_pattern package) (c :: pre ++ rest) false)
      as [[n' g']|] eqn:E.
    + inversion H. simpl in *. lia.
    + replace (pos + length (c :: pre)) with (S pos + length pre) in H
        by (simpl; lia).
      cbn [app]. rewrite substituted_step, (match_at_none_entry _ _ E).
      rewrite (IH _ _ _ _ H).
      destruct (substituted package version rest). reflexivity.
Qed.
End LeftmostFacts.


(** * Splitting a text at its first double quote *)

Lemma forallb_not_quote_app (a b : text) :
  forallb (is_not dq) (a ++ dq :: b) = false.
Proof.
  induction a as [|c a IH]; simpl; [reflexivity|].
  rewrite IH. apply andb_false_r.
Qed.

Lemma entry_text_app (g1 ver rest : text) :
  entry_text g1 ver ++ rest = g1 ++ ">" :: "=" :: ver ++ dq :: rest.
Proof. unfold entry_text. rewrite <- !app_assoc. reflexivity. Qed.

Ltac norm_in H :=
  repeat first [ rewrite <- app_assoc in H
               | progress cbn [app str list_ascii_of_string] in H ].

Ltac norm :=
  repeat first [ rewrite <- app_assoc
               | progress cbn [app str list_ascii_of_string] ].

(** A text is split in one way only at its first double quote. *)
Lemma quote_split_unique (a b x y : text) :
  forallb (is_not dq) a = true -> forallb (is_not dq) b = true ->
  a ++ dq :: x = b ++ dq :: y -> a = b /\ x = y.
Proof.
  revert b. induction a as [|c a IH]; intros b Ha Hb E.
  - destruct b as [|d b]; simpl in *.
    + inversion E; auto.
    + inversion E; subst d. simpl in Hb. discriminate.
  - destruct b as [|d b]; simpl in *.
    + inversion E; subst c. simpl in Ha. discriminate.
    + inversion E; subst d.
      apply andb_prop in Ha, Hb. destruct Ha as [_ Ha], Hb as [_ Hb].
      destruct (IH b Ha Hb H1) as [E1 E2]. subst. auto.
Qed.

(** * An entry that no earlier match reaches *)


Section OutsideFacts.
Import PyprojectTomlUpdater.
Variable package version : text.




End OutsideFacts.



(** * Running the manifest update twice *)

Lemma entry_at_other_char (package : text) (c : ascii) (s : text) :
  is_not dq c = true -> entry_at package (c :: s) = None.
Proof.
  intros H. unfold is_not in H. apply negb_true_iff in H.
  unfold entry_at. rewrite H. reflexivity.
Qed.

(** An entry ends with a double quote. *)
Lemma entry_at_needs_quote (package s : text) :
  forallb (is_not dq) s = true -> entry_at package (dq :: s) = None.
Proof.
  intros H. destruct (entry_at package (dq :: s)) as [[[g1 ver] rest]|] eqn:E;
    [|reflexivity].
  exfalso. destruct (entry_at_shape _ _ _ _ _ E) as (Hs & _ & _ & Hg).
  assert (G : exists g, g1 = dq :: g) by (destruct Hg as [->|(e & -> & _)]; eauto).
  destruct G as [g ->]. rewrite entry_text_app in Hs. cbn [app] in Hs.
  inversion Hs as [Hs']. rewrite Hs' in H.
  replace (g ++ ">" :: "=" :: ver ++ dq :: rest)
    with ((g ++ ">" :: "=" :: ver) ++ dq :: rest) in H by (norm; reflexivity).
  rewrite forallb_not_quote_app in H. discriminate.
Qed.

Lemma extras_closed_suffix (package a b : text) :
  extras_closed package (a ++ b) = true -> extras_closed package b = true.
Proof.
  induction a as [|c a IH]; intros H; [exact H|].
  cbn [app extras_closed] in H. apply andb_prop in H. apply IH, H.
Qed.

Section TwiceFacts.
Import PyprojectTomlUpdater.
Variable package version : text.
Hypothesis package_no_quote : forallb (is_not dq) package = true.
Hypothesis version_not_empty : version <> [].
Hypothesis version_no_quote : forallb (is_not dq) version = true.

(** The text up to the first double quote is copied. *)
Lemma substituted_copy_prefix (u t : text) :
  forallb (is_not dq) u = true ->
  substituted package version (u ++ t) =
  (let '(out, c) := substituted package version t in (u ++ out, c)).
Proof.
  intros Hu. induction u as [|c u IH]; cbn [app].
  - destruct (substituted package version t). reflexivity.
  - simpl in Hu. apply andb_prop in Hu. destruct Hu as [Hc Hu].
    rewrite substituted_step, (entry_at_other_char package c _ Hc), (IH Hu).
    destruct (substituted package version t). reflexivity.
Qed.

(** The text written for a text that begins with a double quote begins
    with a double quote. *)
Lemma substituted_keeps_quote (t : text) :
  exists t', fst (substituted package version (dq :: t)) = dq :: t'.
Proof.
  rewrite substituted_step.
  destruct (entry_at package (dq :: t)) as [[[g1 ver] rest]|] eqn:E.
  - destruct (entry_at_shape _ _ _ _ _ E) as (_ & _ & _ & Hg).
    destruct (substituted package version rest) as [out c]. cbn [fst].
    destruct Hg as [->|(e & -> & _)]; unfold entry_text; cbn [app]; eauto.
  - destruct (substituted package version t) as [out c]. cbn [fst]. eauto.
Qed.

(** Where no entry begins before the update, none begins after it. *)
Lemma entry_none_preserved (s : text) :
  match strip (dq :: package ++ ["["]) (dq :: s) with
  | Some r => bracket_closed r = true
  | None => True
  end ->
  entry_at package (dq :: s) = None ->
  entry_at package (dq :: fst (substituted package version s)) = None.
Proof.
  intros Hclosed Hnone.
  pose proof (span_app (is_not dq) s) as Happ.
  pose proof (span_all (is_not dq) s) as Hu.
  pose proof (span_stop (is_not dq) s) as Hstop.
  destruct (span (is_not dq) s) as [u r]. cbn [fst snd] in *.
  destruct r as [|d r'].
  { (* no double quote in [s]: nothing is replaced *)
    rewrite app_nil_r in Happ. subst s.
    rewrite <- (app_nil_r u) at 1. rewrite (substituted_copy_prefix u [] Hu).
    rewrite substituted_step. cbn. rewrite app_nil_r. exact Hnone. }
  rewrite (not_dq d (Hstop d r' eq_refl)) in Happ. clear Hstop d. subst s.
  rewrite (substituted_copy_prefix u (dq :: r') Hu).
  destruct (substituted_keeps_quote r') as [r'' Hr''].
  destruct (substituted package version (dq :: r')) as [out c]. cbn [fst] in *.
  subst out.
  destruct (entry_at package (dq :: u ++ dq :: r'')) as [[[g1 ver] rest]|] eqn:E;
    [|reflexivity].
  exfalso.
  destruct (entry_at_shape _ _ _ _ _ E) as (Hs & Hne & Hall & Hg).
  rewrite entry_text_app in Hs.
  destruct Hg as [->|(e & -> & He)].
  - (* an entry without extras: it lies before the first quote *)
    cbn [app] in Hs. inversion Hs as [Hs'].
    replace (package ++ ">" :: "=" :: ver ++ dq :: rest)
      with ((package ++ ">" :: "=" :: ver) ++ dq :: rest) in Hs'
      by (norm; reflexivity).
    apply quote_split_unique in Hs'; [|exact Hu|].
    2:{ rewrite forallb_app. cbn [forallb]. rewrite package_no_quote, Hall.
        reflexivity. }
    destruct Hs' as [-> _].
    pose proof (entry_at_plain package ver r' Hne Hall) as P.
    rewrite entry_text_app in P. norm_in P. norm_in Hnone.
    congruence.
  - (* an entry with extras *)
    norm_in Hs. inversion Hs as [Hs'].
    pose proof (span_app (is_not dq) e) as Eapp.
    pose proof (span_all (is_not dq) e) as Eall.
    pose proof (span_stop (is_not dq) e) as Estop.
    destruct (span (is_not dq) e) as [e0 er]. cbn [fst snd] in *.
    destruct er as [|d e1].
    + (* the extras hold no quote: the entry lies before the first quote *)
      rewrite app_nil_r in Eapp. subst e0.
      replace (package ++ "[" :: e ++ "]" :: ">" :: "=" :: ver ++ dq :: rest)
        with ((package ++ "[" :: e ++ "]" :: ">" :: "=" :: ver) ++ dq :: rest) in Hs'
        by (norm; reflexivity).
      apply quote_split_unique in Hs'; [|exact Hu|].
      2:{ rewrite forallb_app. cbn [forallb]. rewrite forallb_app. cbn [forallb].
          rewrite package_no_quote, Eall, Hall. reflexivity. }
      destruct Hs' as [-> _].
      pose proof (entry_at_extras package e ver r' He Hne Hall) as P.
      rewrite entry_text_app in P. norm_in P. norm_in Hnone.
      congruence.
    + (* a quote inside the extras: the bracket is not closed in time *)
      rewrite (not_dq d (Estop d e1 eq_refl)) in Eapp. clear Estop d.
      subst e. norm_in Hs'.
      replace (package ++ "[" :: e0 ++ dq :: e1 ++ "]" :: ">" :: "=" :: ver ++ dq :: rest)
        with ((package ++ "[" :: e0) ++ dq :: (e1 ++ "]" :: ">" :: "=" :: ver ++ dq :: rest))
        in Hs' by (norm; reflexivity).
      apply quote_split_unique in Hs'; [|exact Hu|].
      2:{ rewrite forallb_app. cbn [forallb]. rewrite package_no_quote, Eall.
          reflexivity. }
      destruct Hs' as [-> _].
      replace (dq :: (package ++ "[" :: e0) ++ dq :: r')
        with ((dq :: package ++ ["["]) ++ e0 ++ dq :: r') in Hclosed
        by (norm; reflexivity).
      rewrite strip_prefix in Hclosed. unfold bracket_closed in Hclosed.
      rewrite forallb_app in He. apply andb_prop in He. destruct He as [He0 _].
      rewrite (span_run _ e0 dq r') in Hclosed.
      * cbn in Hclosed. discriminate.
      * clear -Eall He0. induction e0 as [|c e0 IH]; [reflexivity|].
        simpl in *. apply andb_prop in Eall, He0.
        destruct Eall as [-> ?], He0 as [-> ?]. auto.
      * reflexivity.
Qed.

(** Substituting a second time changes nothing. *)
Lemma substituted_twice (n : nat) :
  forall s, length s <= n -> extras_closed package s = true ->
    fst (substituted package version (fst (substituted package version s)))
    = fst (substituted package version s).
Proof.
  induction n as [|n IH]; intros s Hn Hc.
  - destruct s; [|simpl in Hn; lia]. reflexivity.
  - rewrite (substituted_step package version s).
    destruct (entry_at package s) as [[[g1 ver] rest]|] eqn:E.
    + destruct (entry_at_shape _ _ _ _ _ E) as (Hs & _).
      assert (Hr : length rest <= n).
      { rewrite Hs in Hn. unfold entry_text in Hn. rewrite !length_app in Hn.
        simpl in Hn. lia. }
      assert (Hcr : extras_closed package rest = true).
      { rewrite Hs in Hc. apply extras_closed_suffix in Hc. exact Hc. }
      specialize (IH rest Hr Hcr).
      destruct (substituted package version rest) as [out c]. cbn [fst] in *.
      rewrite substituted_step.
      rewrite (entry_at_rewritten package s g1 ver rest version out E
                 version_not_empty version_no_quote).
      destruct (substituted package version out) as [out' c']. cbn [fst] in *.
      rewrite IH. reflexivity.
    + destruct s as [|c s']; [reflexivity|].
      cbn [extras_closed] in Hc. apply andb_prop in Hc. destruct Hc as [Hh Hc].
      specialize (IH s' ltac:(simpl in Hn; lia) Hc).
      assert (N : entry_at package (c :: fst (substituted package version s')) = None).
      { destruct (is_not dq c) eqn:Ec.
        - apply entry_at_other_char, Ec.
        - apply not_dq in Ec. subst c. apply entry_none_preserved; [|exact E].
          destruct (strip (dq :: package ++ ["["]) (dq :: s')); [exact Hh | exact I]. }
      destruct (substituted package version s') as [out k]. cbn [fst] in *.
      rewrite substituted_step, N.
      destruct (substituted package version out) as [out' k']. cbn [fst] in *.
      rewrite IH. reflexivity.
Qed.
End TwiceFacts.

(** What [_update_file] does, from what [re.subn] returns. *)
Lemma update_file_result (w : world) (filepath : string)
    (package version content out : text) (c : nat) :
  files w !! filepath = Some content ->
  re_subn (PyprojectTomlUpdater._build_pattern package)
    (PyprojectTomlUpdater._build_replacement version) content = Ok (out, c) ->
  PyprojectTomlUpdater._update_file filepath package version w =
  if (0 <? c) && bool_decide (out <> content) then
    (Ok true, {| files := <[filepath := out]> (files w);
                 written := written w ++ [(filepath, out)];
                 logged := logged w |})
  else (Ok false, w).
Proof.
  intros Hf R. unfold PyprojectTomlUpdater._update_file, bind, read_text.
  rewrite Hf, R. cbn [lift ret].
  destruct ((0 <? c) && bool_decide (out <> content)); reflexivity.
Qed.

(** C2, as the code has it: for a package name and a fetched version
    without a double quote, the version not empty and without a backslash,
    and a manifest in which every bracket opened after [\x22pkg] is closed
    before the next double quote, the substitution of the manifest updater
    applied to its own result gives that result again; a second
    [_update_file] with the same version returns [False], leaves the world
    as the first run left it and adds nothing to the count. *)
Theorem second_update_changes_nothing :
  forall (w : world) (filepath : string) (package version content : text) (n : nat),
    files w !! filepath = Some content ->
    forallb (is_not dq) package = true ->
    version <> [] ->
    forallb (is_not dq) version = true ->
    backslash_free version = true ->
    extras_closed package content = true ->
    let pattern := PyprojectTomlUpdater._build_pattern package in
    let replacement := PyprojectTomlUpdater._build_replacement version in
    let w1 := snd (PyprojectTomlUpdater._update_file filepath package version w) in
    (exists out c c',
       re_subn pattern replacement content = Ok (out, c) /\
       re_subn pattern replacement out = Ok (out, c')) /\
    PyprojectTomlUpdater._update_file filepath package version w1 = (Ok false, w1) /\
    PyprojectTomlUpdater.update_one false package version n filepath w1 = (Ok n, w1).
Proof.
  intros w filepath package version content n Hf Hp Hne Hq Hb Hc pattern replacement.
  subst pattern replacement.
  pose proof (substituted_twice package version Hp Hne Hq (length content) content
                (le_n _) Hc) as Twice.
  pose proof (re_subn_manifest package version content Hb) as R1.
  destruct (substituted package version content) as [out c] eqn:E1. cbn [fst] in Twice.
  pose proof (re_subn_manifest package version out Hb) as R2.
  destruct (substituted package version out) as [out' c'] eqn:E2. cbn [fst] in Twice.
  subst out'.
  intros w1. split; [exists out, c, c'; auto|].
  assert (W : exists content1 out1 c1,
            files w1 !! filepath = Some content1 /\
            re_subn (PyprojectTomlUpdater._build_pattern package)
              (PyprojectTomlUpdater._build_replacement version) content1
              = Ok (out1, c1) /\
            (0 <? c1) && bool_decide (out1 <> content1) = false).
  { subst w1. rewrite (update_file_result w filepath package version content out c Hf R1).
    destruct ((0 <? c) && bool_decide (out <> content)) eqn:Ch; cbn [snd].
    - exists out, out, c'. cbn [files]. rewrite lookup_insert_eq.
      repeat split; [exact R2|].
      rewrite (bool_decide_eq_false_2 (out <> out)) by (intros H; apply H; reflexivity).
      apply andb_false_r.
    - exists content, out, c. auto. }
  destruct W as (content1 & out1 & c1 & Hf1 & R & Ch).
  assert (U : PyprojectTomlUpdater._update_file filepath package version w1
              = (Ok false, w1)).
  { rewrite (update_file_result w1 filepath package version content1 out1 c1 Hf1 R).
    rewrite Ch. reflexivity. }
  split; [exact U|].
  unfold PyprojectTomlUpdater.update_one, bind, path_exists.
  rewrite bool_decide_eq_true_2 by (rewrite Hf1; eauto).
  cbn [negb]. rewrite U. reflexivity.
Qed.

Lemma second_update_changes_nothing_witness :
  let content := str "deps = [" ++ entry_text (dq :: str "ruff[a]") (str "1.0.0") ++ str "]" in
  let w := World {[ "pyproject.toml"%string := content ]} [] [] in
  let w1 := snd (PyprojectTomlUpdater._update_file "pyproject.toml" (str "ruff")
                   (str "2.0.0") w) in
  PyprojectTomlUpdater._update_file "pyproject.toml" (str "ruff") (str "2.0.0") w1
  = (Ok false, w1).
Proof.
  intros content w w1.
  apply (second_update_changes_nothing w "pyproject.toml" (str "ruff") (str "2.0.0")
           content 0).
  - reflexivity.
  - reflexivity.
  - discriminate.
  - reflexivity.
  - reflexivity.
  - reflexivity.
Defined.

(** C2, as stated, fails. With the manifest
    [\x22ruff[ \x22ruff>=]\x22 ]>=1\x22] and the version 2.0.0 the first run
    rewrites the inner entry, which closes the bracket of the outer one, so
    that the second run finds a new match, returns [True] and writes again.
    With a version that holds a double quote, [1\x22x], the second run
    changes the manifest [\x22ruff>=1\x22] once more. *)
Lemma second_update_can_change_the_file :
  (let content := dq :: str "ruff[ " ++ entry_text (dq :: str "ruff") (str "]")
                    ++ str " ]>=1" ++ [dq] in
   let w := World {[ "pyproject.toml"%string := content ]} [] [] in
   let w1 := snd (PyprojectTomlUpdater._update_file "pyproject.toml" (str "ruff")
                    (str "2.0.0") w) in
   let out := PyprojectTomlUpdater._update_file "pyproject.toml" (str "ruff")
                (str "2.0.0") w1 in
   fst out = Ok true /\ files (snd out) <> files w1) /\
  (let version := str "1" ++ [dq] ++ str "x" in
   let w := World {[ "pyproject.toml"%string := entry_text (dq :: str "ruff") (str "1") ]}
              [] [] in
   let w1 := snd (PyprojectTomlUpdater._update_file "pyproject.toml" (str "ruff")
                    version w) in
   let out := PyprojectTomlUpdater._update_file "pyproject.toml" (str "ruff")
                version w1 in
   fst out = Ok true /\ files (snd out) <> files w1).
Proof.
  split.
  - cbv zeta. split; [vm_compute; reflexivity|].
    intros E.
    apply (f_equal (fun m : gmap string text => m !! "pyproject.toml"%string)) in E.
    vm_compute in E. discriminate E.
  - cbv zeta. split; [vm_compute; reflexivity|].
    intros E.
    apply (f_equal (fun m : gmap string text => m !! "pyproject.toml"%string)) in E.
    vm_compute in E. discriminate E.
Qed.

(** * The updaters as a whole *)

Lemma touches_only_refl (paths : list string) (w : world) : touches_only paths w w.
Proof. split; auto. Qed.

Lemma touches_only_trans (paths : list string) (w1 w2 w3 : world) :
  touches_only paths w1 w2 -> touches_only paths w2 w3 -> touches_only paths w1 w3.
Proof.
  intros [D1 F1] [D2 F2]. split; [congruence|].
  intros p Hp. rewrite F2, F1; auto.
Qed.

Lemma touches_only_log (paths : list string) (l : level) (msg : text) (w : world) :
  touches_only paths w (snd (log l msg w)).
Proof. split; auto. Qed.

(** Writing a file that exists touches that file only. *)
Lemma touches_only_write (paths : list string) (p : string) (c c0 : text) (w : world) :
  p ∈ paths -> files w !! p = Some c0 ->
  touches_only paths w (snd (write_text p c w)).
Proof.
  intros Hin Hp. split; simpl.
  - rewrite dom_insert_L. apply elem_of_dom_2 in Hp.
    apply subseteq_union_1_L, singleton_subseteq_l, Hp.
  - intros q Hq. apply lookup_insert_ne. intros E. subst q. contradiction.
Qed.

(** A loop keeps what each of its steps keeps. *)
Lemma for_each_keeps {W X S : Type} (R : W -> W -> Prop) (body : S -> X -> St W S)
    (xs : list X) :
  (forall w, R w w) ->
  (forall w1 w2 w3, R w1 w2 -> R w2 w3 -> R w1 w3) ->
  (forall acc x w, In x xs -> R w (snd (body acc x w))) ->
  forall acc w, R w (snd (for_each xs body acc w)).
Proof.
  intros Hrefl Htrans. induction xs as [|x xs IH]; intros Hb acc w; simpl.
  - apply Hrefl.
  - unfold bind. pose proof (Hb acc x w (or_introl eq_refl)) as H1.
    destruct (body acc x w) as [[acc'|e] w1]; simpl in H1; [|exact H1].
    eapply Htrans; [exact H1|]. apply IH. intros a y w' Hy. apply Hb. right. exact Hy.
Qed.

(** A loop whose steps each add at most [k] to a counter adds at most [k]
    for each element. *)
Lemma for_each_counts {W X : Type} (body : nat -> X -> St W nat) (xs : list X) (k : nat) :
  (forall n x w n' w', body n x w = (Ok n', w') -> n <= n' <= n + k) ->
  forall n w n' w',
    for_each xs body n w = (Ok n', w') -> n <= n' <= n + k * length xs.
Proof.
  intros Hb. induction xs as [|x xs IH]; intros n w n' w' H; simpl in H.
  - inversion H; subst. simpl. lia.
  - unfold bind in H. destruct (body n x w) as [[n1|e] w1] eqn:E; [|discriminate].
    apply Hb in E. apply IH in H. simpl. lia.
Qed.

Section PyprojectWhole.
Import PyprojectTomlUpdater.
Variable get_pypi_version : text -> option text.

Lemma matches_result (filepath : string) (package content : text) (w : world) :
  files w !! filepath = Some content ->
  _matches filepath package w
  = (Ok (bool_decide (is_Some (re_search (_build_pattern package) content))), w).
Proof. intros Hf. unfold _matches, bind, read_text. rewrite Hf. reflexivity. Qed.

Lemma update_one_missing (dry_run : bool) (package version : text) (n : nat)
    (filepath : string) (w : world) :
  files w !! filepath = None ->
  update_one dry_run package version n filepath w = (Ok n, w).
Proof.
  intros Hf. unfold update_one, bind, path_exists. rewrite Hf.
  rewrite bool_decide_eq_false_2 by (intros [x Hx]; discriminate). reflexivity.
Qed.

Lemma update_one_count (dry_run : bool) (package version : text) (n : nat)
    (filepath : string) (w : world) (n' : nat) (w' : world) :
  update_one dry_run package version n filepath w = (Ok n', w') -> n <= n' <= n + 1.
Proof.
  unfold update_one, bind. destruct (path_exists filepath w) as [[e|x] w1]; [|discriminate].
  destruct (negb e); [intros H; inversion H; lia|].
  destruct dry_run.
  - destruct (_matches filepath package w1) as [[m|x] w2]; [|discriminate].
    destruct m; cbn; intros H; inversion H; lia.
  - destruct (_update_file filepath package version w1) as [[u|x] w2]; [|discriminate].
    destruct u; cbn; intros H; inversion H; lia.
Qed.

Lemma update_one_touches (paths : list string) (dry_run : bool) (package version : text)
    (n : nat) (filepath : string) (w : world) :
  filepath ∈ paths ->
  touches_only paths w (snd (update_one dry_run package version n filepath w)).
Proof.
  intros Hin. destruct (files w !! filepath) as [content|] eqn:Hf.
  2:{ rewrite (update_one_missing _ _ _ _ _ _ Hf). apply touches_only_refl. }
  unfold update_one, bind, path_exists. rewrite Hf.
  rewrite bool_decide_eq_true_2 by eauto. cbn [negb].
  destruct dry_run.
  - rewrite (matches_result _ _ _ _ Hf). destruct (bool_decide _); cbn;
      apply touches_only_refl || (split; auto).
  - unfold _update_file, bind, read_text. rewrite Hf.
    destruct (re_subn _ _ content) as [[out c]|e]; cbn [lift ret raise];
      [|apply touches_only_refl].
    destruct ((0 <? c) && bool_decide (out <> content)); cbn;
      [|apply touches_only_refl].
    apply (touches_only_write paths filepath out content w Hin Hf).
Qed.

(** X2: a run of [PyprojectTomlUpdater.update] creates and removes no
    file and leaves every file outside its list as it was, also when it
    raises. *)
Theorem pyproject_update_touches_only_its_files :
  forall (self_files : list string) (dry_run : bool) (w : world),
    touches_only self_files w
      (snd (update get_pypi_version self_files dry_run w)).
Proof.
  intros self_files dry_run w. unfold update.
  apply for_each_keeps;
    [apply touches_only_refl | apply touches_only_trans |].
  intros n package w0 _. unfold update_package.
  destruct (falsy (get_pypi_version package)); [split; auto|].
  apply for_each_keeps;
    [apply touches_only_refl | apply touches_only_trans |].
  intros n0 filepath w1 Hin. apply update_one_touches.
  apply list_elem_of_In. exact Hin.
Qed.

(** X3: the count a run of [PyprojectTomlUpdater.update] returns is at most
    one for each pair of a tracked package and a listed file. *)
Theorem pyproject_update_count_bound :
  forall (self_files : list string) (dry_run : bool) (w : world) (n : nat) (w' : world),
    update get_pypi_version self_files dry_run w = (Ok n, w') ->
    n <= length PYPI_PACKAGES * length self_files.
Proof.
  intros self_files dry_run w n w' H. unfold update in H.
  apply (for_each_counts _ PYPI_PACKAGES (length self_files)) in H; [simpl in *; lia|].
  clear. intros n package w n' w' H. unfold update_package in H.
  destruct (falsy (get_pypi_version package)).
  - cbn in H. inversion H; lia.
  - apply (for_each_counts _ self_files 1) in H; [lia|].
    intros. eapply update_one_count; eauto.
Qed.
End PyprojectWhole.

(** * What a run of the manifest updater leaves in the files *)

Section PyprojectRun.
Import PyprojectTomlUpdater.
Variable get_pypi_version : text -> option text.





End PyprojectRun.


(** X4: where a live [_update_file] reports an update, the pattern has a
    match in the file as it was: every update a live run counts is also
    counted by a dry run on the same contents. *)
Theorem live_update_implies_match :
  forall (w w' : world) (filepath : string) (package version : text),
    PyprojectTomlUpdater._update_file filepath package version w = (Ok true, w') ->
    PyprojectTomlUpdater._matches filepath package w = (Ok true, w).
Proof.
  intros w w' filepath package version H.
  unfold PyprojectTomlUpdater._update_file, bind, read_text in H.
  destruct (files w !! filepath) as [content|] eqn:Hf; [|discriminate].
  rewrite (matches_result filepath package content w Hf).
  destruct (re_search (PyprojectTomlUpdater._build_pattern package) content)
    as [m|] eqn:Hs.
  - rewrite bool_decide_eq_true_2 by eauto. reflexivity.
  - exfalso. unfold re_subn in H.
    destruct (parse_template _ None _) as [t|e]; [|discriminate].
    unfold subn_of in H. rewrite (subn_go_no_match _ _ _ _ 0 _ Hs) in H.
    cbn in H. discriminate.
Qed.

Lemma live_update_implies_match_witness :
  let content := str "deps = [" ++ entry_text (dq :: str "ruff") (str "1.0.0") ++ str "]" in
  let w := World {[ "pyproject.toml"%string := content ]} [] [] in
  PyprojectTomlUpdater._matches "pyproject.toml" (str "ruff") w = (Ok true, w).
Proof.
  intros content w.
  apply (live_update_implies_match w
           (snd (PyprojectTomlUpdater._update_file "pyproject.toml" (str "ruff")
                   (str "2.0.0") w))
           "pyproject.toml" (str "ruff") (str "2.0.0")).
  vm_compute. reflexivity.
Defined.

Section ActionWhole.
Import ActionYmlUpdater.
Variable get_github_release : GitHubRepo -> option text.

Lemma action_update_one_count (dry_run : bool) (version : text) (n : nat)
    (filepath : string) (w : world) (n' : nat) (w' : world) :
  update_one dry_run version n filepath w = (Ok n', w') -> n <= n' <= n + 1.
Proof.
  unfold update_one, bind, path_exists.
  destruct (bool_decide (is_Some (files w !! filepath))); cbn [negb].
  2:{ cbn. intros H. inversion H. lia. }
  destruct dry_run.
  - destruct (_matches filepath w) as [[m|e] w1]; [|discriminate].
    destruct m; cbn; intros H; inversion H; lia.
  - destruct (_update_file filepath version w) as [[u|e] w1]; [|discriminate].
    destruct u; cbn; intros H; inversion H; lia.
Qed.

Lemma action_update_one_touches (paths : list string) (dry_run : bool) (version : text)
    (n : nat) (filepath : string) (w : world) :
  filepath ∈ paths ->
  touches_only paths w (snd (update_one dry_run version n filepath w)).
Proof.
  intros Hin. unfold update_one, bind, path_exists.
  destruct (files w !! filepath) as [content|] eqn:Hf.
  2:{ rewrite bool_decide_eq_false_2 by (intros [x Hx]; discriminate).
      apply touches_only_refl. }
  rewrite bool_decide_eq_true_2 by eauto. cbn [negb].
  destruct dry_run.
  - unfold _matches, bind, read_text. rewrite Hf. cbn [ret].
    destruct (bool_decide _); cbn; split; auto.
  - unfold _update_file, bind, read_text. rewrite Hf.
    destruct (re_subn _ _ content) as [[out c]|e]; cbn [lift ret raise];
      [|apply touches_only_refl].
    destruct ((0 <? c) && bool_decide (out <> content)); cbn;
      [|apply touches_only_refl].
    apply (touches_only_write paths filepath out content w Hin Hf).
Qed.

(** X5: a run of [ActionYmlUpdater.update], dry or live, creates and removes
    no file and leaves every file outside its list as it was, also when it
    raises; and the count a run returns is at most one for each listed
    file. *)
Theorem action_update_bound_and_frame :
  forall (self_files : list string) (dry_run : bool) (w : world),
    touches_only self_files w (snd (update get_github_release self_files dry_run w)) /\
    (forall (n : nat) (w' : world),
       update get_github_release self_files dry_run w = (Ok n, w') ->
       n <= length self_files).
Proof.
  intros self_files dry_run w. unfold update.
  destruct (falsy (get_github_release UV_REPO)).
  { split; [split; auto|]. cbn. intros n w' H. inversion H. lia. }
  split.
  - apply for_each_keeps;
      [apply touches_only_refl | apply touches_only_trans |].
    intros n x w0 Hin. apply action_update_one_touches.
    apply list_elem_of_In. exact Hin.
  - intros n w' H.
    apply (for_each_counts _ self_files 1) in H; [lia|].
    intros n0 x w0 n1 w1 H0. exact (action_update_one_count _ _ _ _ _ _ _ H0).
Qed.
End ActionWhole.

Lemma action_update_bound_and_frame_witness :
  let y := {| gap1 := nl :: str "    "; description_line := str " the version of uv";
              gap2 := str "    "; required_line := str " true";
              gap3 := str "    "; gap4 := str " " |} in
  let files_ := ["action.yml"%string; "missing.yml"%string] in
  let w := World {[ "action.yml"%string := uv_block y (str "0.4.6") ]} [] [] in
  exists n w',
    ActionYmlUpdater.update (fun _ => Some (str "0.9.1")) files_ false w = (Ok n, w') /\
    n <= 2 /\ touches_only files_ w w'.
Proof.
  intros y files_ w.
  destruct (action_update_bound_and_frame (fun _ => Some (str "0.9.1")) files_ false w)
    as [T B].
  destruct (ActionYmlUpdater.update (fun _ => Some (str "0.9.1")) files_ false w)
    as [[n|e] w'] eqn:E; [|vm_compute in E; discriminate].
  exists n, w'. split; [reflexivity|]. split; [exact (B n w' eq_refl) | exact T].
Defined.

Section PreCommitWhole.
Import PreCommitConfigUpdater.
Variable get_github_tag : GitHubRepo -> option text.

Lemma precommit_groups (repo_url : text) : groups (_build_pattern repo_url) = 2.
Proof. simpl. rewrite groups_lit. reflexivity. Qed.

Lemma precommit_template (repo_url version : text) :
  backslash_free version = true ->
  parse_template (groups (_build_pattern repo_url)) None (_build_replacement version) =
  Ok (TGroup 1 :: TChr "v" :: map TChr version ++ [TGroup 2]).
Proof.
  intros Hv. rewrite precommit_groups. unfold _build_replacement.
  assert (E : parse_template 2 None (version ++ str "\2")
              = Ok (map TChr version ++ [TGroup 2])).
  { apply parse_template_plain; [exact Hv | reflexivity]. }
  change (parse_template 2 None (str "\g<1>v" ++ version ++ str "\2"))
    with (addgroup 2 1 (addchr "v" (parse_template 2 None (version ++ str "\2")))).
  rewrite E. reflexivity.
Qed.

Lemma update_hook_step_count (config_file : string) (dry_run : bool)
    (content : text) (n : nat) (hook : text * GitHubRepo) (w : world)
    (c : text) (n' : nat) (w' : world) :
  update_hook_step get_github_tag config_file dry_run (content, n) hook w
    = (Ok (c, n'), w') ->
  n <= n' <= n + 1.
Proof.
  unfold update_hook_step. destruct hook as [url gh].
  destruct (falsy (get_github_tag gh)).
  { cbn. intros H. inversion H. lia. }
  destruct dry_run.
  - destruct (_matches content url); cbn; intros H; inversion H; lia.
  - unfold bind, lift.
    destruct (_update_hook content url _) as [[c1 u]|e]; [|discriminate].
    destruct u; cbn; intros H; inversion H; lia.
Qed.

(** X6: the count a run of [PreCommitConfigUpdater.update] returns, dry or
    live, is at most one for each configured hook, two in all. *)
Theorem precommit_update_count_bound :
  forall (config_file : string) (dry_run : bool) (w : world) (n : nat) (w' : world),
    update get_github_tag config_file dry_run w = (Ok n, w') ->
    n <= length PREK_HOOKS.
Proof.
  intros config_file dry_run w n w'. unfold update.
  generalize PREK_HOOKS. intros hooks. unfold bind, path_exists, read_text.
  destruct (files w !! config_file) as [content|] eqn:Hf.
  2:{ rewrite bool_decide_eq_false_2 by (intros [x Hx]; discriminate).
      cbn. intros H. inversion H. lia. }
  rewrite bool_decide_eq_true_2 by eauto. cbn [negb]. rewrite Hf.
  assert (L : forall hooks content n w c n' w',
            for_each hooks (update_hook_step get_github_tag config_file dry_run)
              (content, n) w = (Ok (c, n'), w') ->
            n <= n' <= n + length hooks).
  { clear. intros hooks. induction hooks as [|h hooks IH];
      intros content n w c n' w' H.
    - cbn in H. inversion H. cbn. lia.
    - cbn [for_each] in H. unfold bind in H.
      destruct (update_hook_step get_github_tag config_file dry_run (content, n) h w)
        as [[[c1 n1]|e] w1] eqn:E1; [|discriminate].
      apply update_hook_step_count in E1. apply IH in H. cbn [length]. lia. }
  destruct (for_each hooks _ (content, 0) w) as [[[c1 n1]|e] w1] eqn:E1; [|discriminate].
  apply L in E1.
  destruct (negb dry_run && (0 <? n1)); cbn; intros H; inversion H; lia.
Qed.
End PreCommitWhole.

Lemma precommit_update_count_bound_witness :
  let ruff_url := str "https://github.com/astral-sh/ruff-pre-commit" in
  let config :=
    str "repos:" ++ nl :: str "  "
      ++ hook_block ruff_url (nl :: str "    ") (str " ") (str "v0.6.3") ++ [nl] in
  let w := World {[ ".pre-commit-config.yaml"%string := config ]} [] [] in
  exists n w',
    PreCommitConfigUpdater.update (fun _ => Some (str "0.7.0")) ".pre-commit-config.yaml"
      false w = (Ok n, w') /\
    0 < n <= 2.
Proof.
  intros ruff_url config w.
  destruct (PreCommitConfigUpdater.update (fun _ => Some (str "0.7.0"))
              ".pre-commit-config.yaml" false w) as [[n|e] w'] eqn:E;
    [|vm_compute in E; discriminate].
  exists n, w'. split; [reflexivity|]. split.
  - assert (F : fst (PreCommitConfigUpdater.update (fun _ => Some (str "0.7.0"))
                       ".pre-commit-config.yaml" false w) = Ok 1)
      by (vm_compute; reflexivity).
    rewrite E in F. inversion F. lia.
  - exact (precommit_update_count_bound (fun _ => Some (str "0.7.0"))
             ".pre-commit-config.yaml" false w n w' E).
Defined.

Lemma pyproject_update_count_bound_witness :
  let w := World {[ "pyproject.toml"%string := str "ruff>=1" ]} [] [] in
  exists n w',
    PyprojectTomlUpdater.update (fun _ => Some (str "2.0.0")) ["pyproject.toml"%string]
      true w = (Ok n, w') /\
    n <= length PYPI_PACKAGES * 1.
Proof.
  intros w. eexists _, _. split.
  - vm_compute. reflexivity.
  - apply (pyproject_update_count_bound (fun _ => Some (str "2.0.0"))
             ["pyproject.toml"%string] true w 0 w).
    vm_compute. reflexivity.
Defined.

(** X7: a run of [PreCommitConfigUpdater.update] creates and removes no
    file and leaves every file but its configuration file as it was, also
    when it raises. *)
Theorem precommit_update_touches_only_its_file :
  forall (get_github_tag : GitHubRepo -> option text) (config_file : string)
         (dry_run : bool) (w : world),
    touches_only [config_file] w
      (snd (PreCommitConfigUpdater.update get_github_tag config_file dry_run w)).
Proof.
  intros get_github_tag config_file dry_run w. unfold PreCommitConfigUpdater.update.
  generalize PREK_HOOKS. intros hooks. unfold bind, path_exists, read_text.
  destruct (files w !! config_file) as [content|] eqn:Hf.
  2:{ rewrite bool_decide_eq_false_2 by (intros [x Hx]; discriminate).
      apply touches_only_refl. }
  rewrite bool_decide_eq_true_2 by eauto. cbn [negb]. rewrite Hf.
  pose proof (for_each_same_store
                (PreCommitConfigUpdater.update_hook_step get_github_tag config_file dry_run)
                hooks
                (update_hook_step_same_store
                   get_github_tag config_file dry_run)
                (content, 0) w) as [Hs _].
  destruct (for_each hooks _ (content, 0) w) as [[[c1 n1]|e] w1]; cbn [snd] in Hs.
  2:{ split; cbn [snd]; [rewrite Hs; reflexivity | intros p _; rewrite Hs; reflexivity]. }
  assert (T : touches_only [config_file] w w1).
  { split; [rewrite Hs; reflexivity | intros p _; rewrite Hs; reflexivity]. }
  destruct (negb dry_run && (0 <? n1)); cbn.
  - eapply touches_only_trans; [exact T|].
    apply (touches_only_write [config_file] config_file c1 content w1).
    + apply list_elem_of_In. left. reflexivity.
    + rewrite Hs. exact Hf.
  - exact T.
Qed.

(** * The name of a hook *)

Lemma last_segment_no_slash (acc b : text) :
  forallb (is_not "/") b = true ->
  PreCommitConfigUpdater.last_segment acc b = acc ++ b.
Proof.
  revert acc. induction b as [|c b IH]; intros acc H; simpl in *.
  - rewrite app_nil_r. reflexivity.
  - apply andb_prop in H as [Hc Hb]. unfold is_not in Hc.
    destruct (chr_eqb "/" c) eqn:E; [discriminate|].
    unfold chr_eqb in *. rewrite Ascii.eqb_sym, E.
    rewrite IH by exact Hb. rewrite <- app_assoc. reflexivity.
Qed.

(** X8: [_extract_hook_name] returns what follows the last slash of the
    address: for a text [b] without a slash, it maps [a/b] to [b] whatever
    [a] holds, and [b] itself to [b]. *)
Theorem extract_hook_name_is_last_segment :
  forall a b : text,
    forallb (is_not "/") b = true ->
    PreCommitConfigUpdater._extract_hook_name (a ++ "/" :: b) = b /\
    PreCommitConfigUpdater._extract_hook_name b = b.
Proof.
  intros a b Hb. unfold PreCommitConfigUpdater._extract_hook_name. split.
  - generalize (@nil ascii). induction a as [|c a IH]; intros acc; simpl.
    + apply (last_segment_no_slash [] b Hb).
    + destruct (chr_eqb c "/"); apply IH.
  - apply (last_segment_no_slash [] b Hb).
Qed.

Lemma extract_hook_name_is_last_segment_witness :
  PreCommitConfigUpdater._extract_hook_name
    (str "https://github.com/astral-sh" ++ "/" :: str "ruff-pre-commit")
  = str "ruff-pre-commit" /\
  PreCommitConfigUpdater._extract_hook_name (str "ruff-pre-commit") = str "ruff-pre-commit".
Proof.
  apply (extract_hook_name_is_last_segment (str "https://github.com/astral-sh")
           (str "ruff-pre-commit")).
  reflexivity.
Defined.

(** * All the licence branches *)

Section LicenceBranches.
Import PostGen.

Lemma move_file_to_LICENSE (src : string) (c : text) (fs : gmap string node) :
  fs !! src = Some (File c) ->
  (forall e, fs !! "LICENSE"%string <> Some (Dir e)) ->
  move_file src "LICENSE" fs = (Ok tt, <["LICENSE"%string := File c]> (delete src fs)).
Proof.
  intros Hs Hdir. unfold move_file. rewrite Hs.
  destruct (fs !! "LICENSE"%string) as [[c0|e]|] eqn:E; try reflexivity.
  exfalso. exact (Hdir e eq_refl).
Qed.

Lemma remove_file_keeps (p q : string) (fs : gmap string node) :
  p <> q -> snd (remove_file p fs) !! q = fs !! q.
Proof.
  intros Hpq. unfold remove_file. destruct (fs !! p) as [[c|e]|]; simpl; try reflexivity.
  apply lookup_delete_ne. exact Hpq.
Qed.

Ltac decide_options :=
  repeat match goal with
         | |- context [bool_decide (str ?a = str ?b)] =>
             let v := eval vm_compute in (bool_decide (str a = str b)) in
             change (bool_decide (str a = str b)) with v
         end;
  cbv beta iota.

Ltac remove_present :=
  repeat (erewrite remove_file_present by (simplify_map_eq; reflexivity);
          cbv beta iota).

(** X9: for each of the five licences, with its option chosen and the five
    licence sources present as files (and no directory in the way of
    [LICENSE]), the licence branches end without raising; afterwards
    [LICENSE] holds what the source of the chosen licence held, none of the
    five sources is left, and every other entry of the project directory is
    as before. *)
Theorem chosen_licence_becomes_LICENSE :
  forall (l : licence) (fs : gmap string node) (held : licence -> text),
    (forall l', fs !! licence_source l' = Some (File (held l'))) ->
    (forall e, fs !! "LICENSE"%string <> Some (Dir e)) ->
    exists fs',
      license_stage (licence_option l) fs = (Ok tt, fs') /\
      fs' !! "LICENSE"%string = Some (File (held l)) /\
      (forall l', fs' !! licence_source l' = None) /\
      (forall p : string,
         p <> "LICENSE"%string -> (forall l', p <> licence_source l') ->
         fs' !! p = fs !! p).
Proof.
  intros l fs held Hall Hdir.
  pose proof (Hall MIT) as Hmit. pose proof (Hall BSD) as Hbsd.
  pose proof (Hall ISC) as Hisc. pose proof (Hall APACHE) as Hapa.
  pose proof (Hall GPL) as Hgpl. cbn [licence_source] in *.
  pose proof (move_file_to_LICENSE (licence_source l) (held l) fs (Hall l) Hdir) as Hmove.
  destruct l; cbn [licence_source licence_option] in *;
    (eexists; split;
     [ unfold license_stage; decide_options; unfold bind, ret;
       rewrite Hmove; cbv beta iota; remove_present; reflexivity
     | split; [simplify_map_eq; reflexivity|]; split;
       [ intros []; cbn [licence_source]; simplify_map_eq; reflexivity
       | intros p Hp Hq;
         pose proof (Hq MIT); pose proof (Hq BSD); pose proof (Hq ISC);
         pose proof (Hq APACHE); pose proof (Hq GPL); cbn [licence_source] in *;
         rewrite !lookup_delete_ne, lookup_insert_ne, lookup_delete_ne by congruence;
         reflexivity ] ]).
Qed.

Lemma chosen_licence_becomes_LICENSE_witness :
  let held := fun l : licence => licence_option l in
  let fs : gmap string node :=
    list_to_map [ ("LICENSE_MIT"%string, File (held MIT));
                  ("LICENSE_BSD"%string, File (held BSD));
                  ("LICENSE_ISC"%string, File (held ISC));
                  ("LICENSE_APACHE"%string, File (held APACHE));
                  ("LICENSE_GPL"%string, File (held GPL));
                  ("LICENSE"%string, File (str "placeholder")) ] in
  exists fs',
    license_stage (licence_option APACHE) fs = (Ok tt, fs') /\
    fs' !! "LICENSE"%string = Some (File (held APACHE)) /\
    (forall l', fs' !! licence_source l' = None) /\
    (forall p : string,
       p <> "LICENSE"%string -> (forall l', p <> licence_source l') ->
       fs' !! p = fs !! p).
Proof.
  intros held fs.
  apply (chosen_licence_becomes_LICENSE APACHE fs held).
  - intros []; reflexivity.
  - intros e. vm_compute. discriminate.
Defined.

(** X10: with the option [Not open source] and the five licence sources
    present as files, the licence branches end without raising; afterwards
    none of the five sources is left and every other entry of the project
    directory, [LICENSE] among them, is as before: no licence file is
    made. *)
Theorem not_open_source_removes_every_licence :
  forall (fs : gmap string node) (held : licence -> text),
    (forall l', fs !! licence_source l' = Some (File (held l'))) ->
    exists fs',
      license_stage (str "Not open source") fs = (Ok tt, fs') /\
      (forall l', fs' !! licence_source l' = None) /\
      (forall p : string, (forall l', p <> licence_source l') -> fs' !! p = fs !! p).
Proof.
  intros fs held Hall.
  pose proof (Hall MIT) as Hmit. pose proof (Hall BSD) as Hbsd.
  pose proof (Hall ISC) as Hisc. pose proof (Hall APACHE) as Hapa.
  pose proof (Hall GPL) as Hgpl. cbn [licence_source] in *.
  eexists; split;
    [ unfold license_stage; decide_options; unfold bind, ret; remove_present; reflexivity
    | split;
      [ intros []; cbn [licence_source]; simplify_map_eq; reflexivity
      | intros p Hq;
        pose proof (Hq MIT); pose proof (Hq BSD); pose proof (Hq ISC);
        pose proof (Hq APACHE); pose proof (Hq GPL); cbn [licence_source] in *;
        rewrite !lookup_delete_ne by congruence; reflexivity ] ].
Qed.

Lemma not_open_source_removes_every_licence_witness :
  let held := fun l : licence => licence_option l in
  let fs : gmap string node :=
    list_to_map [ ("LICENSE_MIT"%string, File (held MIT));
                  ("LICENSE_BSD"%string, File (held BSD));
                  ("LICENSE_ISC"%string, File (held ISC));
                  ("LICENSE_APACHE"%string, File (held APACHE));
                  ("LICENSE_GPL"%string, File (held GPL));
                  ("README.md"%string, File (str "readme")) ] in
  exists fs',
    license_stage (str "Not open source") fs = (Ok tt, fs') /\
    (forall l', fs' !! licence_source l' = None) /\
    (forall p : string, (forall l', p <> licence_source l') -> fs' !! p = fs !! p).
Proof.
  intros held fs.
  apply (not_open_source_removes_every_licence fs held).
  intros []; reflexivity.
Defined.

(** X11: an option that is none of the six values of the script runs no
    licence branch: the project directory stays as it is, the five licence
    sources included, and nothing is raised. *)
Theorem unknown_licence_option_changes_nothing :
  forall (open_source_license : text) (fs : gmap string node),
    (forall l, open_source_license <> licence_option l) ->
    open_source_license <> str "Not open source" ->
    license_stage open_source_license fs = (Ok tt, fs).
Proof.
  intros o fs Hl Hn. unfold license_stage.
  pose proof (Hl MIT); pose proof (Hl BSD); pose proof (Hl ISC);
    pose proof (Hl APACHE); pose proof (Hl GPL). cbn [licence_option] in *.
  rewrite !bool_decide_eq_false_2 by assumption. reflexivity.
Qed.

Lemma unknown_licence_option_changes_nothing_witness :
  license_stage (str "Proprietary") {[ "LICENSE_MIT"%string := File (str "MIT") ]}
  = (Ok tt, {[ "LICENSE_MIT"%string := File (str "MIT") ]}).
Proof.
  apply (unknown_licence_option_changes_nothing (str "Proprietary")).
  - intros []; vm_compute; discriminate.
  - vm_compute. discriminate.
Defined.

(** X12: when the source of the chosen licence is missing, the licence
    branches raise [FileNotFoundError] at the first step and the project
    directory is left as it was. *)
Theorem missing_chosen_source_raises_at_once :
  forall (l : licence) (fs : gmap string node),
    fs !! licence_source l = None ->
    license_stage (licence_option l) fs = (Raise FileNotFoundError, fs).
Proof.
  intros l fs H. unfold license_stage.
  assert (Hmove : move_file (licence_source l) "LICENSE" fs = (Raise FileNotFoundError, fs)).
  { unfold move_file. rewrite H. reflexivity. }
  destruct l; cbn [licence_source licence_option] in *;
    decide_options; unfold bind, ret; rewrite Hmove; reflexivity.
Qed.

Lemma missing_chosen_source_raises_at_once_witness :
  license_stage (licence_option GPL) {[ "LICENSE_MIT"%string := File (str "MIT") ]}
  = (Raise FileNotFoundError, {[ "LICENSE_MIT"%string := File (str "MIT") ]}).
Proof.
  apply (missing_chosen_source_raises_at_once GPL). reflexivity.
Defined.
End LicenceBranches.

Section NoRollBack.
Import PostGen.
Variables (c : text) (source missing : string).

Lemma ends_raising_after {A B} (m : St (gmap string node) A)
    (k : A -> St (gmap string node) B) (a : A) (fs fs1 : gmap string node) :
  m fs = (Ok a, fs1) ->
  ends_raising c source missing (k a) fs1 ->
  ends_raising c source missing (bind m k) fs.
Proof.
  intros E (e & fs' & H & P). exists e, fs'. unfold bind. rewrite E. auto.
Qed.

Lemma ends_raising_first {A B} (m : St (gmap string node) A)
    (k : A -> St (gmap string node) B) (fs : gmap string node) :
  ends_raising c source missing m fs -> ends_raising c source missing (bind m k) fs.
Proof.
  intros (e & fs' & H & P). exists e, fs'. unfold bind. rewrite H. auto.
Qed.

Lemma ends_raising_missing (fs : gmap string node) :
  moved c source missing fs -> ends_raising c source missing (remove_file missing) fs.
Proof.
  intros P. exists FileNotFoundError, fs. split; [|exact P].
  unfold remove_file. destruct P as (_ & _ & ->). reflexivity.
Qed.

Lemma ends_raising_remove {B} (p : string) (k : unit -> St (gmap string node) B)
    (fs : gmap string node) :
  p <> "LICENSE"%string -> p <> source -> p <> missing ->
  moved c source missing fs ->
  (forall fs1, moved c source missing fs1 -> ends_raising c source missing (k tt) fs1) ->
  ends_raising c source missing (bind (remove_file p) k) fs.
Proof.
  intros H1 H2 H3 P Hk.
  assert (P1 : moved c source missing (snd (remove_file p fs))).
  { destruct P as (P1 & P2 & P3). unfold moved.
    rewrite !remove_file_keeps by assumption. auto. }
  unfold ends_raising, bind.
  destruct (remove_file p fs) as [[[]|e] fs1]; cbn [snd] in P1.
  - apply Hk. exact P1.
  - eauto.
Qed.
End NoRollBack.

Section NoRollBackTheorem.
Import PostGen.

Ltac decide_options :=
  repeat match goal with
         | |- context [bool_decide (str ?a = str ?b)] =>
             let v := eval vm_compute in (bool_decide (str a = str b)) in
             change (bool_decide (str a = str b)) with v
         end;
  cbv beta iota.

(** X13: the licence branches do not roll back. When the source of the
    chosen licence is a file, no directory is in the way of [LICENSE], and
    the source of another licence is missing, the branches raise, and by
    then [LICENSE] holds the chosen text and the chosen source is gone. *)
Theorem missing_other_source_leaves_LICENSE_replaced :
  forall (l l' : licence) (fs : gmap string node) (c : text),
    l' <> l ->
    fs !! licence_source l = Some (File c) ->
    (forall e, fs !! "LICENSE"%string <> Some (Dir e)) ->
    fs !! licence_source l' = None ->
    exists e fs',
      license_stage (licence_option l) fs = (Raise e, fs') /\
      fs' !! "LICENSE"%string = Some (File c) /\
      fs' !! licence_source l = None.
Proof.
  intros l l' fs c Hne Hl Hdir Hl'.
  pose proof (move_file_to_LICENSE (licence_source l) c fs Hl Hdir) as Hmove.
  assert (P : moved c (licence_source l) (licence_source l')
                (<["LICENSE"%string := File c]> (delete (licence_source l) fs))).
  { unfold moved. split; [apply lookup_insert_eq|].
    assert (licence_source l <> "LICENSE"%string) by (destruct l; discriminate).
    assert (licence_source l' <> "LICENSE"%string) by (destruct l'; discriminate).
    assert (licence_source l' <> licence_source l)
      by (destruct l, l'; try discriminate; congruence).
    rewrite !lookup_insert_ne, lookup_delete_eq, lookup_delete_ne by congruence. auto. }
  cut (ends_raising c (licence_source l) (licence_source l')
         (license_stage (licence_option l)) fs).
  { intros (e & fs' & H & P1 & P2 & _). eauto. }
  unfold license_stage.
  destruct l, l'; try congruence; cbn [licence_source licence_option] in *;
    decide_options;
    repeat first
      [ eapply ends_raising_after; [reflexivity|]
      | eapply ends_raising_after; [exact Hmove|]
      | apply ends_raising_missing; assumption
      | apply ends_raising_first; apply ends_raising_missing; assumption
      | apply ends_raising_remove; [discriminate| discriminate | discriminate | assumption |];
        clear dependent fs; intros fs P
      | apply ends_raising_first ].
Qed.

Lemma missing_other_source_leaves_LICENSE_replaced_witness :
  let fs : gmap string node :=
    list_to_map [ ("LICENSE_MIT"%string, File (str "MIT"));
                  ("LICENSE_BSD"%string, File (str "BSD"));
                  ("LICENSE_APACHE"%string, File (str "Apache"));
                  ("LICENSE_GPL"%string, File (str "GPL")) ] in
  exists e fs',
    license_stage (licence_option MIT) fs = (Raise e, fs') /\
    fs' !! "LICENSE"%string = Some (File (str "MIT")) /\
    fs' !! licence_source MIT = None.
Proof.
  intros fs.
  apply (missing_other_source_leaves_LICENSE_replaced MIT ISC fs (str "MIT")).
  - discriminate.
  - reflexivity.
  - intros e. vm_compute. discriminate.
  - reflexivity.
Defined.
End NoRollBackTheorem.

(** * The patterns for names, read directly *)

Lemma run_Bos {A : Type} (whole : nat) (r : regex) (s : text) (g : captures)
    (k : text -> captures -> option A) :
  run whole (Cat Bos r) s g k = if length s =? whole then run whole r s g k else None.
Proof. reflexivity. Qed.

(** [[class]+$]: the run of the class must reach the end of the line. *)
Lemma run_to_line_end {A : Type} (whole : nat) (p : ascii -> bool) (s : text)
    (g : captures) (k : text -> captures -> option A) :
  p nl = false ->
  run whole (Cat (Many1 p) Eos) s g k =
  if run_to_end p s then k (snd (span p s)) g else None.
Proof.
  intros Hnl. unfold run_to_end. cbn [run Many1].
  destruct s as [|d s2]; [reflexivity|]. cbn [span].
  destruct (p d); [|reflexivity].
  rewrite many_commit.
  - destruct (span p s2) as [a b]. cbn [snd].
    rewrite bool_decide_eq_false_2 by discriminate. cbn [negb andb].
    destruct b as [|c [|e b]]; try reflexivity.
  - intros c s' Hc. destruct s' as [|e s']; [|reflexivity].
    destruct (chr_eqb c "010") eqn:E; [|reflexivity].
    apply Ascii.eqb_eq in E. subst c. unfold nl in Hnl. congruence.
Qed.

(** [^[class]+$] under [re.match] accepts what [run_to_end] accepts. *)
Lemma run_pattern_read (p : ascii -> bool) (s : text) :
  p nl = false ->
  bool_decide (is_Some (re_match (cat [Bos; Many1 p; Eos]) s)) = run_to_end p s.
Proof.
  intros Hnl. unfold re_match, match_at. cbn [cat].
  rewrite run_Bos, Nat.eqb_refl, (run_to_line_end _ p s _ _ Hnl).
  destruct (run_to_end p s).
  - apply bool_decide_eq_true_2. cbn [andb]. eauto.
  - apply bool_decide_eq_false_2. intros [x Hx]. discriminate.
Qed.

(** [^[first][rest]+$] under [re.match] accepts what [identifier_like]
    accepts. *)
Lemma identifier_pattern_read (first rest : ascii -> bool) (s : text) :
  rest nl = false ->
  bool_decide (is_Some (re_match (cat [Bos; Cls first; Many1 rest; Eos]) s))
  = identifier_like first rest s.
Proof.
  intros Hnl. unfold re_match, match_at, identifier_like. cbn [cat].
  rewrite run_Bos, Nat.eqb_refl.
  destruct s as [|c s1]; [reflexivity|].
  change (run ?w (Cat (Cls first) ?r) (c :: s1) ?g ?k)
    with (if first c then run w r s1 g k else None).
  destruct (first c); [|reflexivity]. cbn [andb].
  rewrite (run_to_line_end _ rest s1 _ _ Hnl).
  destruct (run_to_end rest s1).
  - apply bool_decide_eq_true_2. cbn [andb]. eauto.
  - apply bool_decide_eq_false_2. intros [x Hx]. discriminate.
Qed.

Section NamePatterns.
Import PreGen.

(** X14: the two patterns of the pre-generation hook accept exactly the
    texts made of one character of the first class (a hyphen or a letter
    for the name, an underscore or a letter for the slug), then one or more
    characters of the second class (digits added), then the end of the text
    or one line feed before it. So a name of one character is refused and
    a name that ends with a line feed is accepted. *)
Theorem name_and_slug_patterns_read :
  forall s : text,
    bool_decide (is_Some (re_match PROJECT_NAME_REGEX s))
      = identifier_like name_start name_char s /\
    bool_decide (is_Some (re_match PROJECT_SLUG_REGEX s))
      = identifier_like slug_start slug_char s.
Proof.
  intros s. split; apply identifier_pattern_read; reflexivity.
Qed.
End NamePatterns.

Section RepositoryName.
Import PreGen PostGen.

Lemma validate_repository_name_read (name : text) :
  fst (validate_repository_name name) =
  negb (bool_decide (name = [])) && (length name <=? 100)
  && negb (startswith (str ".") name) && run_to_end repo_char name.
Proof.
  unfold validate_repository_name.
  destruct (bool_decide (name = [])); [reflexivity|]. cbn [negb andb].
  rewrite Nat.ltb_antisym. destruct (length name <=? 100); [|reflexivity].
  cbn [negb andb]. destruct (startswith (str ".") name); [reflexivity|].
  cbn [negb andb]. unfold REPOSITORY_NAME_REGEX.
  rewrite run_pattern_read by reflexivity.
  destruct (run_to_end repo_char name); reflexivity.
Qed.

Lemma validate_repository_name_true (name : text) :
  validate_repository_name name = (true, []) <->
  fst (validate_repository_name name) = true.
Proof.
  unfold validate_repository_name.
  repeat match goal with |- context [if ?b then _ else _] => destruct b end;
    cbn [fst]; split; intros H; try discriminate; reflexivity.
Qed.

(** X15: [validate_repository_name] accepts a name exactly when it is not
    empty, has at most 100 characters, does not begin with a period, and is
    a run of letters, digits, periods, underscores and hyphens up to the end
    of the text or up to one line feed before the end. *)
Theorem repository_name_accepted_iff :
  forall name : text,
    validate_repository_name name = (true, []) <->
    name <> [] /\ length name <= 100 /\ startswith (str ".") name = false /\
    run_to_end repo_char name = true.
Proof.
  intros name.
  rewrite validate_repository_name_true, validate_repository_name_read.
  rewrite !andb_true_iff, negb_true_iff, negb_true_iff, Nat.leb_le.
  rewrite bool_decide_eq_false. tauto.
Qed.

Lemma name_chars_are_repo_chars (a : text) :
  forallb name_char a = true -> forallb repo_char a = true.
Proof.
  induction a as [|c a IH]; simpl; [reflexivity|].
  intros H. apply andb_prop in H as [Hc Ha]. rewrite (IH Ha), andb_true_r.
  unfold name_char in Hc. unfold repo_char.
  destruct (is_alpha c), (is_digit c), (chr_eqb c "-"); try reflexivity;
    try discriminate; rewrite ?orb_true_r; reflexivity.
Qed.

(** X16: a project name that the pre-generation hook accepts and that has
    at most 100 characters is never refused as a repository name by the
    automated setup. *)
Theorem accepted_project_name_is_a_repository_name :
  forall project_name : text,
    is_Some (re_match PROJECT_NAME_REGEX project_name) ->
    length project_name <= 100 ->
    validate_repository_name project_name = (true, []).
Proof.
  intros s Hm Hlen.
  apply validate_repository_name_true. rewrite validate_repository_name_read.
  apply (bool_decide_eq_true_2 _) in Hm. unfold PROJECT_NAME_REGEX in Hm.
  rewrite identifier_pattern_read in Hm by reflexivity.
  destruct s as [|c s1]; [discriminate|]. cbn [identifier_like] in Hm.
  apply andb_prop in Hm as [Hc Hrun].
  rewrite bool_decide_eq_false_2 by discriminate.
  apply Nat.leb_le in Hlen. rewrite Hlen. cbn [negb andb].
  assert (Hdot : startswith (str ".") (c :: s1) = false).
  { change (startswith (str ".") (c :: s1)) with (chr_eqb "." c && true).
    destruct (chr_eqb "." c) eqn:E; [|reflexivity].
    apply Ascii.eqb_eq in E. subst c. discriminate Hc. }
  rewrite Hdot. cbn [negb andb].
  assert (Hrc : repo_char c = true).
  { unfold name_start in Hc. unfold repo_char.
    destruct (is_alpha c); [reflexivity|]. rewrite orb_false_r in Hc.
    rewrite Hc. rewrite ?orb_true_r. reflexivity. }
  unfold run_to_end in *. cbn [span]. rewrite Hrc.
  pose proof (span_app name_char s1) as Happ.
  pose proof (span_all name_char s1) as Hall.
  destruct (span name_char s1) as [a b]. cbn [fst snd] in *.
  apply andb_prop in Hrun as [_ Hb].
  apply name_chars_are_repo_chars in Hall.
  assert (Hs : span repo_char s1 = (a, b)).
  { rewrite Happ. destruct b as [|e [|e' b]]; try discriminate.
    - rewrite app_nil_r. apply span_whole, Hall.
    - cbn in Hb. apply Ascii.eqb_eq in Hb. subst e.
      apply span_run; [exact Hall | reflexivity]. }
  rewrite Hs. rewrite bool_decide_eq_false_2 by discriminate. exact Hb.
Qed.

Lemma accepted_project_name_is_a_repository_name_witness :
  validate_repository_name (str "my-project") = (true, []).
Proof.
  apply (accepted_project_name_is_a_repository_name (str "my-project")).
  - vm_compute. eauto.
  - vm_compute. lia.
Defined.
End RepositoryName.

(** * The automated setup as a whole *)

Section SetupWhole.
Import PostGen.
Variable Sys : Type.
Variable exec : list text -> gmap string node -> Sys -> proc * gmap string node * Sys.
Variable on_time : list text -> gmap string node -> Sys -> bool.
Variable which : text -> Sys -> bool.
Variable project_name author_handle protocol : text.

Abbreviation setup :=
  (setup_github_repository Sys exec on_time which project_name author_handle protocol).
Abbreviation sequence :=
  (setup_sequence Sys exec on_time project_name author_handle protocol).

(** X17: a dry run of [setup_github_repository] returns [True] and leaves
    the project directory and the machine as they were: it hands no command
    to [subprocess.run], and it makes none of the prerequisite checks, so
    it returns [True] even for a name the live run would refuse. *)
Theorem dry_run_setup_runs_nothing :
  forall m : machine Sys, setup true m = (Ok true, m).
Proof. intros m. reflexivity. Qed.

(** X19: in a live run of the setup sequence, when [git init] and
    [make install] end with code 0 and [gh repo create] ends with another
    code and an error text without [already exists], the sequence returns
    [False] after these three commands: nothing is staged, committed or
    pushed. *)
Theorem failed_repository_creation_stops_the_sequence :
  forall (m : machine Sys) (fs1 fs2 fs3 : gmap string node) (s1 s2 s3 : Sys)
         (o1 e1 o2 e2 o3 e3 : text) (rc : Z),
    exec (git_init) (project Sys m) (sys Sys m) = (Completed 0 o1 e1, fs1, s1) ->
    exec (make_install) fs1 s1 = (Completed 0 o2 e2, fs2, s2) ->
    exec (gh_repo_create project_name) fs2 s2 = (Completed rc o3 e3, fs3, s3) ->
    rc <> 0%Z ->
    contains (str "already exists") (lower e3) = false ->
    sequence false m =
    (Ok false,
     {| project := fs3; sys := s3;
        ran := ran Sys m ++ [git_init; make_install; gh_repo_create project_name] |}).
Proof.
  intros m fs1 fs2 fs3 s1 s2 s3 o1 e1 o2 e2 o3 e3 rc H1 H2 H3 Hrc He.
  apply Z.eqb_neq in Hrc.
  unfold setup_sequence, run_command, bind, ret, subprocess_run.
  cbn [andb negb project sys ran]. rewrite H1.
  cbn [andb negb project sys ran Z.eqb]. rewrite H2.
  cbn [andb negb project sys ran Z.eqb]. rewrite H3.
  cbn [andb negb project sys ran failed already_exists returncode stderr].
  rewrite Hrc, He. cbn [andb negb].
  rewrite <- !app_assoc. reflexivity.
Qed.
End SetupWhole.

Lemma failed_repository_creation_stops_the_sequence_witness :
  let exec := fun (c : list text) (fs : gmap string PostGen.node) (s : unit) =>
                if bool_decide (c = PostGen.gh_repo_create (str "demo"))
                then (PostGen.Completed 1 [] (str "HTTP 403: Forbidden"), fs, s)
                else (PostGen.Completed 0 [] [], fs, s) in
  PostGen.setup_sequence unit exec (fun _ _ _ => true) (str "demo") (str "me") (str "ssh")
    false {| PostGen.project := ∅; PostGen.sys := tt; PostGen.ran := [] |}
  = (Ok false,
     {| PostGen.project := ∅; PostGen.sys := tt;
        PostGen.ran := [] ++ [PostGen.git_init; PostGen.make_install;
                              PostGen.gh_repo_create (str "demo")] |}).
Proof.
  intros exec.
  apply (failed_repository_creation_stops_the_sequence unit exec (fun _ _ _ => true)
           (str "demo") (str "me") (str "ssh")
           {| PostGen.project := ∅; PostGen.sys := tt; PostGen.ran := [] |}
           ∅ ∅ ∅ tt tt tt [] [] [] [] [] (str "HTTP 403: Forbidden") 1%Z).
  - reflexivity.
  - reflexivity.
  - reflexivity.
  - discriminate.
  - reflexivity.
Defined.

(** * What the GitHub fetchers return *)

Lemma lstrip_no_lead (c : ascii) (s : text) : startswith [c] (lstrip c s) = false.
Proof.
  induction s as [|x s IH]; [reflexivity|]. simpl.
  destruct (chr_eqb x c) eqn:E; [exact IH|].
  simpl. unfold chr_eqb in *. rewrite Ascii.eqb_sym, E. reflexivity.
Qed.

Section GitHubFetchers.
Import Fetchers.
Variable urlopen_json : text -> fetched.

Lemma strip_tag_text (tag : json) (s : text) :
  strip_tag tag = Ok (JStr s) -> startswith (str "v") s = false.
Proof.
  unfold strip_tag. destruct (truthy tag); [|discriminate].
  destruct tag; simpl; try discriminate.
  intros H. inversion H. apply lstrip_no_lead.
Qed.

Lemma strip_tag_raises (tag : json) (e : exn) :
  strip_tag tag = Raise e ->
  e = AttributeError /\ truthy tag = true /\ forall s, tag <> JStr s.
Proof.
  unfold strip_tag. destruct (truthy tag); [|discriminate].
  destruct tag; simpl; intros H; inversion H; repeat split; discriminate.
Qed.

(** X20: a text returned by [get_github_release] or by [get_github_tag]
    never begins with the letter v, whatever the service answered: every
    leading v of the tag is stripped. *)
Theorem github_versions_have_no_leading_v :
  forall (repo : GitHubRepo) (s : text),
    get_github_release urlopen_json repo = Ok (JStr s) \/
    get_github_tag urlopen_json repo = Ok (JStr s) ->
    startswith (str "v") s = false.
Proof.
  intros repo s [H|H].
  - unfold get_github_release in H.
    destruct (_is_dict _); [|discriminate].
    destruct (py_get _ _ _) as [tag|e]; [|discriminate].
    exact (strip_tag_text tag s H).
  - unfold get_github_tag in H.
    destruct (_fetch_json _ _) as [ | | | |[|first_tag l]| ]; try discriminate.
    destruct (_is_dict first_tag); [|discriminate].
    destruct (py_get _ _ _) as [tag|e]; [|discriminate].
    exact (strip_tag_text tag s H).
Qed.

(** X21: when the request succeeds and its body is loaded as JSON, the two
    GitHub fetchers raise nothing but [AttributeError], and only when the
    body holds a tag ([tag_name] of the release, [name] of the first tag)
    that is neither text nor a value Python takes for false. *)
Theorem github_fetchers_on_a_loaded_body :
  forall (repo : GitHubRepo) (body : json) (e : exn),
    (urlopen_json (str "https://api.github.com/repos/" ++ GitHubRepo_str repo
                     ++ str "/releases/latest") = Loaded body ->
     get_github_release urlopen_json repo = Raise e ->
     e = AttributeError /\
     exists d tag,
       body = JDict d /\
       dict_lookup (str "tag_name") d = Some tag /\
       truthy tag = true /\ forall s, tag <> JStr s) /\
    (urlopen_json (str "https://api.github.com/repos/" ++ GitHubRepo_str repo
                     ++ str "/tags") = Loaded body ->
     get_github_tag urlopen_json repo = Raise e ->
     e = AttributeError /\
     exists d rest tag,
       body = JList (JDict d :: rest) /\
       dict_lookup (str "name") d = Some tag /\
       truthy tag = true /\ forall s, tag <> JStr s).
Proof.
  intros repo body e. split; intros L H.
  - unfold get_github_release, _fetch_json in H. rewrite L in H.
    change (startswith (str "https://") (str "https://api.github.com/repos/" ++ ?x))
      with true in H. cbn [orb negb] in H.
    destruct body as [ | | | | |d]; try discriminate.
    cbn [_is_dict py_get] in H.
    destruct (dict_lookup (str "tag_name") d) as [tag|] eqn:Lk; cbn [default] in H.
    + apply strip_tag_raises in H as (-> & T & N). split; [reflexivity|].
      exists d, tag. auto.
    + discriminate.
  - unfold get_github_tag, _fetch_json in H. rewrite L in H.
    change (startswith (str "https://") (str "https://api.github.com/repos/" ++ ?x))
      with true in H. cbn [orb negb] in H.
    destruct body as [ | | | |[|first_tag rest]| ]; try discriminate.
    destruct first_tag as [ | | | | |d]; try discriminate.
    cbn [_is_dict py_get] in H.
    destruct (dict_lookup (str "name") d) as [tag|] eqn:Lk; cbn [default] in H.
    + apply strip_tag_raises in H as (-> & T & N). split; [reflexivity|].
      exists d, rest, tag. auto.
    + discriminate.
Qed.
End GitHubFetchers.

Lemma github_versions_have_no_leading_v_witness :
  startswith (str "v") (str "0.9.1") = false.
Proof.
  apply (github_versions_have_no_leading_v
           (fun _ => Loaded (JDict [(str "tag_name", JStr (str "vv0.9.1"))]))
           UV_REPO (str "0.9.1")).
  left. reflexivity.
Defined.

Lemma github_fetchers_on_a_loaded_body_witness :
  AttributeError = AttributeError /\
  exists d rest tag,
    JList [JDict [(str "name", JInt 7)]] = JList (JDict d :: rest) /\
    dict_lookup (str "name") d = Some tag /\
    truthy tag = true /\ forall s, tag <> JStr s.
Proof.
  apply (proj2 (github_fetchers_on_a_loaded_body
                  (fun _ => Loaded (JList [JDict [(str "name", JInt 7)]]))
                  UV_REPO (JList [JDict [(str "name", JInt 7)]]) AttributeError)).
  - reflexivity.
  - reflexivity.
Defined.

(** * The Python version of the generated action *)

Section RunOfClass.
Context {A : Type}.
Variable whole : nat.

(** A run of a class up to a character outside it is taken whole. *)
Lemma run_many1_to (p : ascii -> bool) (c0 : ascii) (r : regex) (a rest : text)
    (g : captures) (k : text -> captures -> option A) :
  p c0 = false -> a <> [] -> forallb p a = true ->
  run whole (Cat (Many1 p) (Cat (Chr c0) r)) (a ++ c0 :: rest) g k
  = run whole r rest g k.
Proof.
  intros Hc Ha Hall. destruct a as [|d a]; [congruence|].
  simpl in Hall. apply andb_prop in Hall as [Hd Hall].
  cbn [run Many1 app]. rewrite Hd.
  rewrite many_commit.
  - rewrite (span_run p a c0 rest Hall Hc). cbn [snd].
    unfold chr_eqb. rewrite Ascii.eqb_refl. reflexivity.
  - intros c s' Hpc. destruct (chr_eqb c0 c) eqn:E; [|reflexivity].
    apply Ascii.eqb_eq in E. subst c. congruence.
Qed.

Lemma run_many1_to_last (p : ascii -> bool) (c0 : ascii) (a rest : text)
    (g : captures) (k : text -> captures -> option A) :
  p c0 = false -> a <> [] -> forallb p a = true ->
  run whole (Cat (Many1 p) (Chr c0)) (a ++ c0 :: rest) g k = k rest g.
Proof.
  intros Hc Ha Hall. destruct a as [|d a]; [congruence|].
  simpl in Hall. apply andb_prop in Hall as [Hd Hall].
  cbn [run Many1 app]. rewrite Hd.
  rewrite many_commit.
  - rewrite (span_run p a c0 rest Hall Hc). cbn [snd].
    unfold chr_eqb. rewrite Ascii.eqb_refl. reflexivity.
  - intros c s' Hpc. destruct (chr_eqb c0 c) eqn:E; [|reflexivity].
    apply Ascii.eqb_eq in E. subst c. congruence.
Qed.
End RunOfClass.

Lemma backslash_free_app (a b : text) :
  backslash_free (a ++ b) = backslash_free a && backslash_free b.
Proof. apply forallb_app. Qed.

Section ActionPythonVersion.
Import PostGen.

(** The text [default: \x22a.b\x22]. *)
Lemma default_entry_match (whole : nat) (a b post : text) :
  a <> [] -> forallb is_digit a = true -> b <> [] -> forallb is_digit b = true ->
  match_at whole DEFAULT_VERSION_REGEX
    (str "default: " ++ dq :: a ++ "." :: b ++ dq :: post) false
  = Some (length (str "default: " ++ dq :: a ++ "." :: b ++ [dq]), ∅).
Proof.
  intros Ha Hda Hb Hdb. unfold match_at, DEFAULT_VERSION_REGEX. cbn [cat].
  change (run whole (Cat (lit ?x) ?r) ?s ?g ?k)
    with (run whole (lit x) s g (fun s1 g1 => run whole r s1 g1 k)).
  rewrite run_lit, strip_prefix.
  change (run whole (Cat (Chr dq) ?r) (dq :: ?s) ?g ?k) with (run whole r s g k).
  rewrite run_many1_to by (assumption || reflexivity).
  rewrite run_many1_to_last by (assumption || reflexivity).
  cbn [andb]. f_equal. f_equal.
  repeat (rewrite ?length_app; cbn [length str list_ascii_of_string]). lia.
Qed.

Lemma default_template (python_version : text) :
  backslash_free python_version = true ->
  parse_template (groups DEFAULT_VERSION_REGEX) None
    (str "default: " ++ [dq] ++ python_version ++ [dq])
  = Ok (map TChr (str "default: " ++ [dq] ++ python_version ++ [dq])).
Proof.
  intros Hv.
  rewrite <- (app_nil_r (str "default: " ++ [dq] ++ python_version ++ [dq])) at 1.
  rewrite <- (app_nil_r (map TChr _)).
  apply parse_template_plain; [|reflexivity].
  rewrite !backslash_free_app, Hv. reflexivity.
Qed.

(** X22: when the action file is missing,
    [update_github_action_python_version] does nothing. When the file is
    there, its leftmost match of the pattern is a default of two numbers
    [a.b] and the Python version holds no backslash, the file is written
    with the Python version in the place of [a.b]; the text before and all
    the text after, further defaults included, is as before. *)
Theorem action_python_version_replaces_first_default_only :
  forall (fs : gmap string node) (python_version pre a b post : text)
         (n : nat) (g : captures),
    let content := pre ++ str "default: " ++ dq :: a ++ "." :: b ++ dq :: post in
    backslash_free python_version = true ->
    a <> [] -> forallb is_digit a = true -> b <> [] -> forallb is_digit b = true ->
    re_search DEFAULT_VERSION_REGEX content = Some (length pre, n, g) ->
    (fs !! action_file = None ->
     update_github_action_python_version python_version fs = (Ok tt, fs)) /\
    (fs !! action_file = Some (File content) ->
     update_github_action_python_version python_version fs =
     (Ok tt,
      <[action_file :=
          File (pre ++ str "default: " ++ dq :: python_version ++ dq :: post)]> fs)).
Proof.
  intros fs v pre a b post n g content Hv Ha Hda Hb Hdb Hs. split; intros Hf;
    unfold update_github_action_python_version; rewrite Hf; [reflexivity|].
  unfold re_sub_first. rewrite (default_template v Hv).
  unfold re_search in Hs. rewrite Hs.
  destruct (subn_of_leftmost (length content) DEFAULT_VERSION_REGEX [] pre
              (str "default: " ++ dq :: a ++ "." :: b ++ dq :: post) 0 n g Hs)
    as [Hm _].
  rewrite (default_entry_match _ a b post Ha Hda Hb Hdb) in Hm.
  assert (En : n = length (str "default: " ++ dq :: a ++ "." :: b ++ [dq]))
    by congruence.
  clear Hm Hs. subst n.
  rewrite <- (app_nil_r (map TChr _)), expand_chars. cbn [expand].
  rewrite app_nil_r. unfold content.
  rewrite take_app_length, drop_app_add.
  replace (str "default: " ++ dq :: a ++ "." :: b ++ dq :: post)
    with ((str "default: " ++ dq :: a ++ "." :: b ++ [dq]) ++ post).
  2:{ repeat (rewrite <- ?app_assoc; cbn [app]). reflexivity. }
  rewrite drop_app_length.
  repeat (rewrite <- ?app_assoc; cbn [app]). reflexivity.
Qed.
End ActionPythonVersion.

Lemma action_python_version_replaces_first_default_only_witness :
  let pre := str "inputs: " in
  let post := str " uv-version: default: " ++ dq :: str "0.4" ++ [dq] in
  let fs : gmap string PostGen.node :=
    {[ PostGen.action_file :=
         PostGen.File (pre ++ str "default: " ++ dq :: str "3" ++ "." :: str "9" ++ dq :: post) ]} in
  PostGen.update_github_action_python_version (str "3.13") fs =
  (Ok tt,
   <[PostGen.action_file :=
       PostGen.File (pre ++ str "default: " ++ dq :: str "3.13" ++ dq :: post)]> fs).
Proof.
  intros pre post fs.
  apply (action_python_version_replaces_first_default_only fs (str "3.13") pre
           (str "3") (str "9") post 14 ∅).
  - reflexivity.
  - discriminate.
  - reflexivity.
  - discriminate.
  - reflexivity.
  - vm_compute. reflexivity.
  - reflexivity.
Defined.

(** * The Python version of the generated manifest *)

Section ManifestPythonVersion.
Import PostGen.

Lemma requires_python_template (python_version : text) :
  backslash_free python_version = true ->
  parse_template (groups REQUIRES_PYTHON_REGEX) None (requires_python python_version)
  = Ok (map TChr (requires_python python_version)).
Proof.
  intros Hv.
  rewrite <- (app_nil_r (requires_python python_version)) at 1.
  rewrite <- (app_nil_r (map TChr _)).
  apply parse_template_plain; [|reflexivity].
  unfold requires_python. rewrite !backslash_free_app, Hv. reflexivity.
Qed.

Lemma version_classifier_template (python_version : text) :
  backslash_free python_version = true ->
  exists t, parse_template (groups BASE_CLASSIFIER_REGEX) None
              (version_classifier python_version) = Ok t.
Proof.
  intros Hv.
  assert (G : groups BASE_CLASSIFIER_REGEX = 1).
  { unfold BASE_CLASSIFIER_REGEX. cbn [groups cat]. rewrite groups_lit. reflexivity. }
  rewrite G. unfold version_classifier.
  set (tail := [nl] ++ str "    " ++ [dq] ++ str "Programming Language :: Python :: "
                 ++ python_version ++ [dq] ++ str ",").
  assert (E : parse_template 1 None tail = Ok (map TChr tail)).
  { rewrite <- (app_nil_r tail) at 1. rewrite <- (app_nil_r (map TChr _)).
    apply parse_template_plain; [|reflexivity].
    unfold tail. rewrite !backslash_free_app, Hv. reflexivity. }
  exists (TGroup 1 :: map TChr tail).
  change (parse_template 1 None (str "\1" ++ tail))
    with (addgroup 1 1 (parse_template 1 None tail)).
  rewrite E. reflexivity.
Qed.

(** X23: for a manifest that is a file and a version without a backslash,
    [update_python_version_in_file] returns without raising and writes that
    file only; when the manifest holds no [requires-python] bound, no
    classifier of a version 3.x and no classifier of Python 3, the text it
    writes is the text it read. *)
Theorem python_version_update_writes_the_manifest_only :
  forall (fs : gmap string node) (filepath : string) (content python_version : text),
    fs !! filepath = Some (File content) ->
    backslash_free python_version = true ->
    exists content',
      update_python_version_in_file filepath python_version fs
        = (Ok tt, <[filepath := File content']> fs) /\
      (re_search REQUIRES_PYTHON_REGEX content = None ->
       re_search VERSION_CLASSIFIER_REGEX content = None ->
       re_search BASE_CLASSIFIER_REGEX content = None ->
       content' = content).
Proof.
  intros fs filepath content v Hf Hv.
  unfold update_python_version_in_file. rewrite Hf.
  destruct (version_classifier_template v Hv) as [t3 H3].
  assert (H2 : parse_template (groups VERSION_CLASSIFIER_REGEX) None [] = Ok []).
  { reflexivity. }
  unfold re_sub, re_subn. rewrite (requires_python_template v Hv), H2, H3.
  destruct (subn_of _ REQUIRES_PYTHON_REGEX _ content false) as [c1 n1] eqn:E1.
  destruct (subn_of _ VERSION_CLASSIFIER_REGEX _ c1 false) as [c2 n2] eqn:E2.
  destruct (subn_of _ BASE_CLASSIFIER_REGEX _ c2 false) as [c3 n3] eqn:E3.
  exists c3. split; [reflexivity|].
  intros S1 S2 S3.
  unfold subn_of in *.
  rewrite (subn_go_no_match _ _ _ _ 0 _ S1) in E1. inversion E1; subst c1 n1.
  rewrite (subn_go_no_match _ _ _ _ 0 _ S2) in E2. inversion E2; subst c2 n2.
  rewrite (subn_go_no_match _ _ _ _ 0 _ S3) in E3. inversion E3; subst c3 n3.
  reflexivity.
Qed.

Lemma python_version_update_writes_the_manifest_only_witness :
  let fs : gmap string node :=
    {[ "pyproject.toml"%string := File (str "name = 1") ]} in
  exists content',
    update_python_version_in_file "pyproject.toml" (str "3.13") fs
      = (Ok tt, <["pyproject.toml"%string := File content']> fs) /\
    (re_search REQUIRES_PYTHON_REGEX (str "name = 1") = None ->
     re_search VERSION_CLASSIFIER_REGEX (str "name = 1") = None ->
     re_search BASE_CLASSIFIER_REGEX (str "name = 1") = None ->
     content' = str "name = 1").
Proof.
  intros fs.
  apply (python_version_update_writes_the_manifest_only fs "pyproject.toml"
           (str "name = 1") (str "3.13")); reflexivity.
Defined.
End ManifestPythonVersion.

(** * Matching step by step *)

Section RunSteps.
Context {A : Type}.
Variable whole : nat.
Implicit Types (k : text -> captures -> option A) (g : captures).

Lemma run_lit_cat (x : text) (r : regex) (s : text) g k :
  run whole (Cat (lit x) r) (x ++ s) g k = run whole r s g k.
Proof.
  change (run whole (Cat (lit x) r) (x ++ s) g k)
    with (run whole (lit x) (x ++ s) g (fun s1 g1 => run whole r s1 g1 k)).
  rewrite run_lit, strip_prefix. reflexivity.
Qed.

Lemma run_chr_cat (c : ascii) (r : regex) (s : text) g k :
  run whole (Cat (Chr c) r) (c :: s) g k = run whole r s g k.
Proof. cbn [run]. unfold chr_eqb. rewrite Ascii.eqb_refl. reflexivity. Qed.

Lemma run_chr (c : ascii) (s : text) g k : run whole (Chr c) (c :: s) g k = k s g.
Proof. cbn [run]. unfold chr_eqb. rewrite Ascii.eqb_refl. reflexivity. Qed.

Lemma run_grp_chr (n : nat) (c : ascii) (s : text) g k :
  run whole (Grp n (Chr c)) (c :: s) g k = k s (<[n := [c]]> g).
Proof.
  cbn [run]. unfold chr_eqb. rewrite Ascii.eqb_refl.
  replace (length (c :: s) - length s) with 1 by (cbn [length]; lia).
  reflexivity.
Qed.

(** A character of a class is not a character outside it. *)
Lemma outside_ne (p : ascii -> bool) (c0 c : ascii) :
  p c0 = false -> p c = true -> chr_eqb c0 c = false.
Proof.
  intros H0 Hc. destruct (chr_eqb c0 c) eqn:E; [|reflexivity].
  apply Ascii.eqb_eq in E. subst c. congruence.
Qed.

(** What a pattern must begin with. *)
Lemma run_chr_fails (c0 c : ascii) (s : text) g k :
  chr_eqb c0 c = false -> run whole (Chr c0) (c :: s) g k = None.
Proof. intros E. cbn [run]. rewrite E. reflexivity. Qed.

Lemma run_chr_cat_fails (c0 : ascii) (r : regex) (c : ascii) (s : text) g k :
  chr_eqb c0 c = false -> run whole (Cat (Chr c0) r) (c :: s) g k = None.
Proof. intros E. cbn [run]. rewrite E. reflexivity. Qed.

Lemma run_grp_chr_fails (n : nat) (c0 c : ascii) (s : text) g k :
  chr_eqb c0 c = false -> run whole (Grp n (Chr c0)) (c :: s) g k = None.
Proof. intros E. cbn [run]. rewrite E. reflexivity. Qed.

Lemma run_lit_cat_fails (c0 : ascii) (x : text) (r : regex) (c : ascii) (s : text) g k :
  chr_eqb c0 c = false -> run whole (Cat (lit (c0 :: x)) r) (c :: s) g k = None.
Proof. intros E. cbn [run lit]. rewrite E. reflexivity. Qed.

Lemma span_all_of (p : ascii -> bool) (a rest : text) :
  forallb p a = true -> starts_outside p rest = true -> span p (a ++ rest) = (a, rest).
Proof.
  intros Ha Hr. destruct rest as [|c rest].
  - rewrite app_nil_r. apply span_whole, Ha.
  - apply span_run; [exact Ha|]. apply negb_true_iff. exact Hr.
Qed.

(** A greedy run of a class before a pattern that cannot begin inside the
    class takes the whole run. *)
Lemma run_many_commit (p : ascii -> bool) (r : regex) (a rest : text) g k :
  forallb p a = true -> starts_outside p rest = true ->
  (forall c s', p c = true -> run whole r (c :: s') g k = None) ->
  run whole (Cat (Many p) r) (a ++ rest) g k = run whole r rest g k.
Proof.
  intros Ha Hr Hk.
  change (run whole (Cat (Many p) r) (a ++ rest) g k)
    with (many p (fun s' => run whole r s' g k) (a ++ rest)).
  rewrite many_commit by exact Hk.
  rewrite (span_all_of p a rest Ha Hr). reflexivity.
Qed.

Lemma run_many1_commit (p : ascii -> bool) (r : regex) (a rest : text) g k :
  negb (bool_decide (a = [])) && forallb p a = true -> starts_outside p rest = true ->
  (forall c s', p c = true -> run whole r (c :: s') g k = None) ->
  run whole (Cat (Many1 p) r) (a ++ rest) g k = run whole r rest g k.
Proof.
  intros Ha Hr Hk. apply andb_prop in Ha as [Ha1 Ha2].
  destruct a as [|d a]; [discriminate|].
  simpl in Ha2. apply andb_prop in Ha2 as [Hd Ha2].
  change (run whole (Cat (Many1 p) r) ((d :: a) ++ rest) g k)
    with (if p d then many p (fun s' => run whole r s' g k) (a ++ rest) else None).
  rewrite Hd, many_commit by exact Hk.
  rewrite (span_all_of p a rest Ha2 Hr). reflexivity.
Qed.

(** [\s*\n\s*] before a pattern that cannot begin with white space: the
    white space is taken whole, and it must hold a line feed. *)
Lemma run_gap_with_line_feed (r : regex) (ws rest : text) g k :
  forallb is_space ws = true -> starts_outside is_space rest = true ->
  (forall c s', is_space c = true -> run whole r (c :: s') g k = None) ->
  run whole (Cat (Many is_space) (Cat (Chr nl) (Cat (Many is_space) r))) (ws ++ rest) g k
  = if existsb (chr_eqb nl) ws then run whole r rest g k else None.
Proof.
  intros Hws Hr Hk.
  change (run whole (Cat (Many is_space) (Cat (Chr nl) (Cat (Many is_space) r)))
            (ws ++ rest) g k)
    with (many is_space
            (fun s' => run whole (Cat (Chr nl) (Cat (Many is_space) r)) s' g k)
            (ws ++ rest)).
  induction ws as [|c ws IH].
  - cbn [app existsb]. destruct rest as [|c rest]; [reflexivity|].
    cbn [starts_outside] in Hr. apply negb_true_iff in Hr.
    cbn [many]. rewrite Hr. apply run_chr_cat_fails.
    apply (outside_ne (fun c => negb (is_space c))); [reflexivity|].
    rewrite Hr. reflexivity.
  - simpl in Hws. apply andb_prop in Hws as [Hc Hws].
    cbn [app many existsb]. rewrite Hc, (IH Hws).
    destruct (existsb (chr_eqb nl) ws) eqn:Ex.
    + rewrite orb_true_r. destruct (run whole r rest g k) eqn:Er; [reflexivity|].
      destruct (chr_eqb nl c) eqn:E.
      * apply Ascii.eqb_eq in E. subst c. rewrite run_chr_cat.
        rewrite (run_many_commit is_space r ws rest g k Hws Hr Hk). exact Er.
      * apply run_chr_cat_fails. exact E.
    + rewrite orb_false_r. destruct (chr_eqb nl c) eqn:E.
      * apply Ascii.eqb_eq in E. subst c. rewrite run_chr_cat.
        apply (run_many_commit is_space r ws rest g k Hws Hr Hk).
      * apply run_chr_cat_fails. exact E.
Qed.
End RunSteps.

(** * Patterns without an anchor *)

Lemma many_ext {A : Type} (p : ascii -> bool) (k1 k2 : text -> option A) (s : text) :
  (forall s', k1 s' = k2 s') -> many p k1 s = many p k2 s.
Proof.
  intros Hk. induction s as [|c s IH]; cbn [many]; [apply Hk|].
  rewrite IH, Hk. reflexivity.
Qed.

Lemma run_whole_indep {A : Type} (w1 w2 : nat) (r : regex) :
  anchor_free r = true ->
  forall (s : text) (g : captures) (k1 k2 : text -> captures -> option A),
    (forall s' g', k1 s' g' = k2 s' g') ->
    run w1 r s g k1 = run w2 r s g k2.
Proof.
  induction r as [c|p|r1 IH1 r2 IH2| |r1 IH1|p|n r1 IH1| | ];
    intros Hr s g k1 k2 Hk; cbn [anchor_free] in Hr; cbn [run].
  - destruct s as [|c' s']; [reflexivity|]. rewrite Hk. reflexivity.
  - destruct s as [|c' s']; [reflexivity|]. rewrite Hk. reflexivity.
  - apply andb_prop in Hr as [H1 H2]. apply (IH1 H1). intros s' g'.
    apply (IH2 H2). exact Hk.
  - apply Hk.
  - rewrite (IH1 Hr s g k1 k2 Hk), Hk. reflexivity.
  - apply many_ext. intros s'. apply Hk.
  - apply (IH1 Hr). intros s' g'. apply Hk.
  - discriminate.
  - destruct s as [|c [|d s]]; rewrite ?Hk; reflexivity.
Qed.

Lemma match_at_whole_indep (w1 w2 : nat) (r : regex) (s : text) (ma : bool) :
  anchor_free r = true -> match_at w1 r s ma = match_at w2 r s ma.
Proof.
  intros Hr. unfold match_at. apply run_whole_indep; [exact Hr | reflexivity].
Qed.

Lemma search_from_whole_indep (w1 w2 : nat) (r : regex) (s : text) (pos : nat) :
  anchor_free r = true -> search_from w1 r pos s = search_from w2 r pos s.
Proof.
  intros Hr. revert pos. induction s as [|c s IH]; intros pos; cbn [search_from];
    rewrite (match_at_whole_indep w1 w2 r _ false Hr); [reflexivity|].
  rewrite IH. reflexivity.
Qed.

(** After the leftmost match, when the text that follows holds no further
    match, the substitution changes that one match only. *)
Lemma subn_of_single_match (r : regex) (t : list titem) (pre block post : text)
    (n : nat) (g g' : captures) :
  anchor_free r = true ->
  block <> [] ->
  re_search r (pre ++ block ++ post) = Some (length pre, n, g) ->
  (forall whole, match_at whole r (block ++ post) false = Some (length block, g')) ->
  re_search r post = None ->
  subn_of (length (pre ++ block ++ post)) r t (pre ++ block ++ post) false
  = (pre ++ expand t g' ++ post, 1).
Proof.
  intros Hr Hb Hs Hm Hp. unfold re_search in Hs.
  destruct (subn_of_leftmost _ r t pre (block ++ post) 0 n g Hs) as [Hm' E].
  rewrite Hm in Hm'. inversion Hm'; subst n g. clear Hm'.
  rewrite E. rewrite drop_app_length.
  assert (Hz : (length block =? 0) = false).
  { apply Nat.eqb_neq. destruct block; [congruence | cbn [length]; lia]. }
  rewrite Hz. unfold subn_of.
  unfold re_search in Hp.
  rewrite (search_from_whole_indep _ (length (pre ++ block ++ post)) r post 0 Hr) in Hp.
  rewrite (subn_go_no_match _ _ _ _ 0 _ Hp). reflexivity.
Qed.

(** * The [uv-version] input of an action file *)

Section UvBlock.
Import ActionYmlUpdater.

Ltac outside :=
  first
    [ assumption
    | reflexivity
    | let c := fresh "c" in let s := fresh "s" in let H := fresh "H" in
      intros c s H;
      first [ apply run_lit_cat_fails | apply run_chr_cat_fails
            | apply run_grp_chr_fails | apply run_chr_fails ];
      refine (outside_ne _ _ c _ H); reflexivity ].

Lemma uv_block_match (whole : nat) (y : uv_layout) (a b c post : text) :
  uv_layout_ok y = true ->
  is_number a = true -> is_number b = true -> is_number c = true ->
  match_at whole PATTERN (uv_block y (a ++ "." :: b ++ "." :: c) ++ post) false
  = Some (length (uv_block y (a ++ "." :: b ++ "." :: c)),
          <[2 := [dq]]> (<[1 := uv_head y]> ∅)).
Proof.
  intros Hy Ha Hb Hc. unfold uv_layout_ok in Hy.
  repeat (apply andb_prop in Hy as [Hy ?]).
  unfold match_at, PATTERN. cbn [cat andb].
  set (S := uv_block y (a ++ "." :: b ++ "." :: c) ++ post).
  set (tail := (a ++ "." :: b ++ "." :: c ++ dq :: post)).
  assert (ES : S = uv_head y ++ tail).
  { unfold S, tail, uv_block. repeat (rewrite <- ?app_assoc; cbn [app]). reflexivity. }
  change (run whole (Cat (Grp 1 ?r1) ?r2) S ∅ ?k)
    with (run whole r1 S ∅
            (fun s' g' => run whole r2 s' (<[1 := take (length S - length s') S]> g') k)).
  rewrite ES at 1. unfold uv_head. repeat (rewrite <- ?app_assoc; cbn [app]).
  rewrite run_lit_cat.
  rewrite run_gap_with_line_feed by outside.
  match goal with H : existsb _ _ = true |- _ => rewrite H end.
  rewrite run_lit_cat.
  rewrite run_many_commit by outside. rewrite run_chr_cat.
  rewrite run_many_commit by outside. rewrite run_lit_cat.
  rewrite run_many_commit by outside. rewrite run_chr_cat.
  rewrite run_many_commit by outside. rewrite run_lit_cat.
  rewrite run_many_commit by outside. rewrite run_chr.
  fold tail.
  replace (take (length S - length tail) S) with (uv_head y).
  2:{ rewrite ES. symmetry. apply take_prefix. }
  unfold tail.
  rewrite run_many1_commit by outside. rewrite run_chr_cat.
  rewrite run_many1_commit by outside. rewrite run_chr_cat.
  rewrite run_many1_commit by outside. rewrite run_grp_chr.
  f_equal. f_equal. unfold S. rewrite length_app. lia.
Qed.

(** X24: for a fetched version that holds no backslash and an action file
    whose leftmost [uv-version] input has the description, the required
    flag and a default of three numbers on their lines, and that holds no
    further such input after it, [ActionYmlUpdater._update_file] writes the
    file with the fetched version in the place of the three numbers and
    nothing else changed, and returns [True]; when the file is at the
    fetched version already it writes nothing and returns [False]. *)
Theorem uv_version_default_is_rewritten :
  forall (w : world) (filepath : string) (pre post : text) (y : uv_layout)
         (a b c version : text) (n : nat) (g : captures),
    let old := a ++ "." :: b ++ "." :: c in
    let content := pre ++ uv_block y old ++ post in
    let new_content := pre ++ uv_block y version ++ post in
    files w !! filepath = Some content ->
    uv_layout_ok y = true ->
    is_number a = true -> is_number b = true -> is_number c = true ->
    backslash_free version = true ->
    re_search PATTERN content = Some (length pre, n, g) ->
    re_search PATTERN post = None ->
    _update_file filepath version w =
    if bool_decide (version = old) then (Ok false, w)
    else (Ok true,
          {| files := <[filepath := new_content]> (files w);
             written := written w ++ [(filepath, new_content)];
             logged := logged w |}).
Proof.
  intros w filepath pre post y a b c version n g old content new_content
    Hf Hy Ha Hb Hc Hv Hs Hp.
  unfold _update_file, bind, read_text. rewrite Hf.
  unfold re_subn. rewrite (action_template version Hv). cbn [lift ret].
  unfold content.
  rewrite (subn_of_single_match PATTERN _ pre (uv_block y old) post n g
             (<[2 := [dq]]> (<[1 := uv_head y]> ∅)) eq_refl).
  - cbn [expand]. rewrite expand_chars. cbn [expand].
    rewrite lookup_insert_ne by discriminate.
    rewrite !lookup_insert_eq. cbn [default from_option id].
    rewrite app_nil_r.
    replace (uv_head y ++ version ++ [dq]) with (uv_block y version) by reflexivity.
    fold new_content. fold content. cbn [Nat.ltb Nat.leb andb].
    destruct (bool_decide (version = old)) eqn:E.
    + apply bool_decide_eq_true in E.
      rewrite bool_decide_eq_false_2; [reflexivity|].
      intros N. apply N. unfold new_content, content. rewrite E. reflexivity.
    + apply bool_decide_eq_false in E.
      rewrite bool_decide_eq_true_2; [reflexivity|].
      intros N. apply E. unfold new_content, content, uv_block in N.
      apply app_inv_head, app_inv_tail, app_inv_head, app_inv_tail in N. exact N.
  - unfold uv_block, uv_head. intros N. apply (f_equal (@length ascii)) in N.
    rewrite !length_app in N. cbn in N. lia.
  - exact Hs.
  - intros whole. apply uv_block_match; assumption.
  - exact Hp.
Qed.
End UvBlock.

Lemma uv_version_default_is_rewritten_witness :
  let y := {| gap1 := nl :: str "    "; description_line := str " the version of uv";
              gap2 := str "    "; required_line := str " true";
              gap3 := str "    "; gap4 := str " " |} in
  let pre := str "inputs:" ++ nl :: str "  " in
  let post := [nl] in
  let w := World {[ "action.yml"%string := pre ++ uv_block y (str "0.4.6") ++ post ]} [] [] in
  let new_content := pre ++ uv_block y (str "0.9.1") ++ post in
  ActionYmlUpdater._update_file "action.yml" (str "0.9.1") w =
  (Ok true,
   {| files := <["action.yml"%string := new_content]> (files w);
      written := written w ++ [("action.yml"%string, new_content)];
      logged := logged w |}).
Proof.
  intros y pre post w new_content.
  apply (uv_version_default_is_rewritten w "action.yml" pre post y
           (str "0") (str "4") (str "6") (str "0.9.1")
           (length (uv_block y (str "0.4.6")))
           (<[2 := [dq]]> (<[1 := uv_head y]> ∅))).
  - reflexivity.
  - reflexivity.
  - reflexivity.
  - reflexivity.
  - reflexivity.
  - reflexivity.
  - vm_compute. reflexivity.
  - vm_compute. reflexivity.
Defined.

(** * A hook of the pre-commit configuration *)

Lemma anchor_free_lit (x : text) : anchor_free (lit x) = true.
Proof. induction x as [|c x IH]; [reflexivity | exact IH]. Qed.

Section HookBlock.
Import PreCommitConfigUpdater.

Ltac outside :=
  first
    [ assumption
    | reflexivity
    | let c := fresh "c" in let s := fresh "s" in let H := fresh "H" in
      intros c s H;
      first [ apply run_lit_cat_fails | apply run_chr_cat_fails
            | apply run_grp_chr_fails | apply run_chr_fails ];
      refine (outside_ne _ _ c _ H); reflexivity ].

Lemma hook_block_match (whole : nat) (repo_url gap_a gap_b rev post : text) :
  forallb is_space gap_a = true -> existsb (chr_eqb nl) gap_a = true ->
  forallb is_space gap_b = true ->
  negb (bool_decide (rev = [])) && forallb (is_not dq) rev = true ->
  match_at whole (_build_pattern repo_url)
    (hook_block repo_url gap_a gap_b rev ++ post) false
  = Some (length (hook_block repo_url gap_a gap_b rev),
          <[2 := [dq]]> (<[1 := hook_head repo_url gap_a gap_b]> ∅)).
Proof.
  intros Ha Hnl Hb Hrev.
  unfold match_at, _build_pattern. cbn [cat andb].
  set (S := hook_block repo_url gap_a gap_b rev ++ post).
  set (tail := rev ++ dq :: post).
  assert (ES : S = hook_head repo_url gap_a gap_b ++ tail).
  { unfold S, tail, hook_block. repeat (rewrite <- ?app_assoc; cbn [app]). reflexivity. }
  change (run whole (Cat (Grp 1 ?r1) ?r2) S ∅ ?k)
    with (run whole r1 S ∅
            (fun s' g' => run whole r2 s' (<[1 := take (length S - length s') S]> g') k)).
  rewrite ES at 1. unfold hook_head. repeat (rewrite <- ?app_assoc; cbn [app]).
  rewrite run_lit_cat, run_lit_cat.
  rewrite run_gap_with_line_feed by outside. rewrite Hnl.
  rewrite run_lit_cat.
  rewrite run_many_commit by outside. rewrite run_chr.
  fold tail.
  replace (take (length S - length tail) S) with (hook_head repo_url gap_a gap_b).
  2:{ rewrite ES. symmetry. apply take_prefix. }
  unfold tail.
  rewrite run_many1_commit by outside. rewrite run_grp_chr.
  f_equal. f_equal. unfold S. rewrite length_app. lia.
Qed.

(** X25: for a fetched version that holds no backslash and a configuration
    whose leftmost entry of the hook has [rev:] and a quoted revision after
    the address, and that holds no further such entry after it,
    [_update_hook] returns the configuration with the letter v and the
    fetched version in the place of the revision, nothing else changed, and
    [True]; when the revision is the letter v and the fetched version
    already, it returns the configuration as it is and [False]. *)
Theorem hook_revision_is_rewritten :
  forall (pre post repo_url gap_a gap_b rev version : text) (n : nat) (g : captures),
    let content := pre ++ hook_block repo_url gap_a gap_b rev ++ post in
    forallb is_space gap_a = true -> existsb (chr_eqb nl) gap_a = true ->
    forallb is_space gap_b = true ->
    negb (bool_decide (rev = [])) && forallb (is_not dq) rev = true ->
    backslash_free version = true ->
    re_search (_build_pattern repo_url) content = Some (length pre, n, g) ->
    re_search (_build_pattern repo_url) post = None ->
    _update_hook content repo_url version =
    Ok (if bool_decide ("v" :: version = rev) then (content, false)
        else (pre ++ hook_block repo_url gap_a gap_b ("v" :: version) ++ post, true)).
Proof.
  intros pre post url ga gb rev version n g content Ha Hnl Hb Hrev Hv Hs Hp.
  unfold _update_hook, re_subn. rewrite (precommit_template url version Hv).
  unfold content.
  rewrite (subn_of_single_match (_build_pattern url) _ pre (hook_block url ga gb rev)
             post n g (<[2 := [dq]]> (<[1 := hook_head url ga gb]> ∅))).
  - cbn [expand]. rewrite expand_chars. cbn [expand].
    rewrite lookup_insert_ne by discriminate.
    rewrite !lookup_insert_eq. cbn [default from_option id].
    rewrite app_nil_r.
    replace (hook_head url ga gb ++ "v" :: version ++ [dq])
      with (hook_block url ga gb ("v" :: version)) by reflexivity.
    fold content. cbn [Nat.ltb Nat.leb andb].
    destruct (bool_decide ("v" :: version = rev)) eqn:E.
    + apply bool_decide_eq_true in E.
      rewrite bool_decide_eq_false_2; [reflexivity|].
      intros N. apply N. unfold content. rewrite E. reflexivity.
    + apply bool_decide_eq_false in E.
      rewrite bool_decide_eq_true_2; [reflexivity|].
      intros N. apply E. unfold content, hook_block in N.
      apply app_inv_head, app_inv_tail, app_inv_head, app_inv_tail in N. exact N.
  - unfold _build_pattern. cbn [cat anchor_free]. rewrite !anchor_free_lit. reflexivity.
  - unfold hook_block, hook_head. intros N. apply (f_equal (@length ascii)) in N.
    rewrite !length_app in N. cbn in N. lia.
  - exact Hs.
  - intros whole. apply hook_block_match; assumption.
  - exact Hp.
Qed.
End HookBlock.

Lemma hook_revision_is_rewritten_witness :
  let url := str "https://github.com/astral-sh/ruff-pre-commit" in
  let gap_a := nl :: str "    " in
  let pre := str "repos:" ++ nl :: str "  " in
  let post := nl :: str "    hooks:" in
  PreCommitConfigUpdater._update_hook
    (pre ++ hook_block url gap_a (str " ") (str "v0.6.3") ++ post) url (str "0.7.0")
  = Ok (pre ++ hook_block url gap_a (str " ") (str "v0.7.0") ++ post, true).
Proof.
  intros url gap_a pre post.
  apply (hook_revision_is_rewritten pre post url gap_a (str " ") (str "v0.6.3")
           (str "0.7.0")
           (length (hook_block url gap_a (str " ") (str "v0.6.3")))
           (<[2 := [dq]]> (<[1 := hook_head url gap_a (str " ")]> ∅))).
  - reflexivity.
  - reflexivity.
  - reflexivity.
  - reflexivity.
  - reflexivity.
  - vm_compute. reflexivity.
  - vm_compute. reflexivity.
Defined.

Section ManifestVersionEffects.
Import PostGen.

Ltac outside :=
  first
    [ assumption
    | reflexivity
    | let c := fresh "c" in let s := fresh "s" in let H := fresh "H" in
      intros c s H;
      first [ apply run_lit_cat_fails | apply run_chr_cat_fails
            | apply run_grp_chr_fails | apply run_chr_fails ];
      refine (outside_ne _ _ c _ H); reflexivity ].

Lemma python_bound_match (whole : nat) (a b c d post : text) :
  is_number a = true -> is_number b = true ->
  is_number c = true -> is_number d = true ->
  match_at whole REQUIRES_PYTHON_REGEX (python_bound a b c d ++ post) false
  = Some (length (python_bound a b c d), ∅).
Proof.
  intros Ha Hb Hc Hd. unfold match_at, REQUIRES_PYTHON_REGEX. cbn [cat andb].
  set (S := python_bound a b c d ++ post).
  unfold S at 1. unfold python_bound. repeat (rewrite <- ?app_assoc; cbn [app]).
  rewrite run_lit_cat, run_chr_cat, run_lit_cat.
  rewrite run_many1_commit by outside. rewrite run_chr_cat.
  rewrite run_many1_commit by outside.
  change ("," :: "<" :: ?x) with (str ",<" ++ x). rewrite run_lit_cat.
  rewrite run_many1_commit by outside. rewrite run_chr_cat.
  rewrite run_many1_commit by outside. rewrite run_chr.
  f_equal. f_equal. unfold S.
  rewrite (length_app (python_bound a b c d) post). exact (Nat.add_sub _ _).
Qed.

Lemma base_classifier_match (whole : nat) (post : text) :
  match_at whole BASE_CLASSIFIER_REGEX (base_classifier ++ post) false
  = Some (length base_classifier, <[1 := base_classifier]> ∅).
Proof.
  unfold match_at, BASE_CLASSIFIER_REGEX. cbn [cat andb].
  set (S := base_classifier ++ post).
  change (run whole (Grp 1 ?r1) S ∅ ?k)
    with (run whole r1 S ∅
            (fun s' g' => k s' (<[1 := take (length S - length s') S]> g'))).
  unfold S at 1. unfold base_classifier. repeat (rewrite <- ?app_assoc; cbn [app]).
  change (str "," ++ post) with ("," :: post).
  rewrite run_chr_cat, run_lit_cat, run_chr_cat, run_chr.
  replace (take (length S - length post) S) with base_classifier
    by (symmetry; apply take_prefix).
  f_equal. f_equal. unfold S.
  rewrite (length_app base_classifier post). exact (Nat.add_sub _ _).
Qed.

Lemma re_sub_no_match (r : regex) (repl s : text) (t : list titem) :
  parse_template (groups r) None repl = Ok t ->
  re_search r s = None ->
  re_sub r repl s = Ok s.
Proof.
  intros Ht Hs. unfold re_sub. rewrite (re_subn_no_match r repl s t Ht Hs). reflexivity.
Qed.

Lemma re_sub_single_match (r : regex) (repl : text) (t : list titem)
    (pre block post : text) (n : nat) (g g' : captures) :
  parse_template (groups r) None repl = Ok t ->
  anchor_free r = true ->
  block <> [] ->
  re_search r (pre ++ block ++ post) = Some (length pre, n, g) ->
  (forall whole, match_at whole r (block ++ post) false = Some (length block, g')) ->
  re_search r post = None ->
  re_sub r repl (pre ++ block ++ post) = Ok (pre ++ expand t g' ++ post).
Proof.
  intros Ht Hr Hb Hs Hm Hp. unfold re_sub, re_subn. rewrite Ht.
  rewrite (subn_of_single_match r t pre block post n g g' Hr Hb Hs Hm Hp).
  reflexivity.
Qed.

(** X26: for a Python version that holds no backslash and a manifest whose
    leftmost and only [requires-python] bound has the shape [>=a.b,<c.d],
    and which after the rewriting of the bound holds no classifier of a
    version 3.x and no classifier of Python 3,
    [update_python_version_in_file] writes the manifest with the bound
    [>=version,<4.0] and nothing else changed: the upper bound becomes 4.0
    whatever it was. *)
Theorem python_bound_is_rewritten :
  forall (fs : gmap string node) (filepath : string)
         (pre post a b c d python_version : text) (n : nat) (g : captures),
    let content := pre ++ python_bound a b c d ++ post in
    let new_content := pre ++ requires_python python_version ++ post in
    fs !! filepath = Some (File content) ->
    is_number a = true -> is_number b = true ->
    is_number c = true -> is_number d = true ->
    backslash_free python_version = true ->
    re_search REQUIRES_PYTHON_REGEX content = Some (length pre, n, g) ->
    re_search REQUIRES_PYTHON_REGEX post = None ->
    re_search VERSION_CLASSIFIER_REGEX new_content = None ->
    re_search BASE_CLASSIFIER_REGEX new_content = None ->
    update_python_version_in_file filepath python_version fs
    = (Ok tt, <[filepath := File new_content]> fs).
Proof.
  intros fs filepath pre post a b c d v n g content new_content
    Hf Ha Hb Hc Hd Hv Hs Hp H2 H3.
  unfold update_python_version_in_file. rewrite Hf.
  destruct (version_classifier_template v Hv) as [t3 Ht3].
  unfold content.
  rewrite (re_sub_single_match REQUIRES_PYTHON_REGEX _ _ pre (python_bound a b c d)
             post n g ∅ (requires_python_template v Hv) eq_refl).
  - rewrite <- (app_nil_r (map TChr _)), expand_chars. cbn [expand].
    rewrite app_nil_r. fold new_content.
    rewrite (re_sub_no_match VERSION_CLASSIFIER_REGEX [] new_content [] eq_refl H2).
    rewrite (re_sub_no_match BASE_CLASSIFIER_REGEX _ new_content t3 Ht3 H3).
    reflexivity.
  - unfold python_bound. intros N. apply (f_equal (@length ascii)) in N.
    rewrite !length_app in N. cbn in N. lia.
  - exact Hs.
  - intros whole. apply python_bound_match; assumption.
  - exact Hp.
Qed.

Lemma added_classifier_template (python_version : text) :
  backslash_free python_version = true ->
  parse_template (groups BASE_CLASSIFIER_REGEX) None (version_classifier python_version)
  = Ok (TGroup 1 :: map TChr (added_classifier python_version)).
Proof.
  intros Hv.
  assert (G : groups BASE_CLASSIFIER_REGEX = 1).
  { unfold BASE_CLASSIFIER_REGEX. cbn [groups cat]. rewrite groups_lit. reflexivity. }
  rewrite G.
  assert (E : parse_template 1 None (added_classifier python_version)
              = Ok (map TChr (added_classifier python_version))).
  { rewrite <- (app_nil_r (added_classifier python_version)) at 1.
    rewrite <- (app_nil_r (map TChr _)).
    apply parse_template_plain; [|reflexivity].
    unfold added_classifier.
    change (nl :: str "    " ++ dq :: str "Programming Language :: Python :: "
              ++ python_version ++ dq :: str ",")
      with ((nl :: str "    " ++ dq :: str "Programming Language :: Python :: ")
              ++ python_version ++ dq :: str ",").
    rewrite !backslash_free_app, Hv. reflexivity. }
  change (parse_template 1 None (version_classifier python_version))
    with (addgroup 1 1 (parse_template 1 None (added_classifier python_version))).
  rewrite E. reflexivity.
Qed.

(** X27: for a Python version that holds no backslash and a manifest
    without a [requires-python] bound and without a classifier of a version
    3.x, whose leftmost and only classifier of Python 3 is followed by a
    comma, [update_python_version_in_file] writes
    the manifest with a line feed, four spaces and the classifier of the
    given version, with its comma, put in after that comma, and nothing else
    changed. *)
Theorem python_classifier_is_added :
  forall (fs : gmap string node) (filepath : string)
         (pre post python_version : text) (n : nat) (g : captures),
    let content := pre ++ base_classifier ++ post in
    fs !! filepath = Some (File content) ->
    backslash_free python_version = true ->
    re_search REQUIRES_PYTHON_REGEX content = None ->
    re_search VERSION_CLASSIFIER_REGEX content = None ->
    re_search BASE_CLASSIFIER_REGEX content = Some (length pre, n, g) ->
    re_search BASE_CLASSIFIER_REGEX post = None ->
    update_python_version_in_file filepath python_version fs
    = (Ok tt,
       <[filepath :=
           File (pre ++ base_classifier ++ added_classifier python_version ++ post)]> fs).
Proof.
  intros fs filepath pre post v n g content Hf Hv H1 H2 Hs Hp.
  unfold update_python_version_in_file. rewrite Hf.
  rewrite (re_sub_no_match REQUIRES_PYTHON_REGEX _ content _
             (requires_python_template v Hv) H1).
  rewrite (re_sub_no_match VERSION_CLASSIFIER_REGEX [] content [] eq_refl H2).
  unfold content.
  rewrite (re_sub_single_match BASE_CLASSIFIER_REGEX _ _ pre base_classifier post n g
             (<[1 := base_classifier]> ∅) (added_classifier_template v Hv) eq_refl).
  - cbn [expand]. rewrite lookup_insert_eq. cbn [default from_option id].
    rewrite <- (app_nil_r (map TChr _)), expand_chars. cbn [expand].
    rewrite app_nil_r, <- !app_assoc. reflexivity.
  - discriminate.
  - exact Hs.
  - intros whole. apply base_classifier_match.
  - exact Hp.
Qed.
End ManifestVersionEffects.

Lemma python_bound_is_rewritten_witness :
  let pre := str "[project]" ++ [nl] in
  let post := nl :: str "dependencies = []" in
  let fs : gmap string PostGen.node :=
    {[ "pyproject.toml"%string :=
         PostGen.File (pre ++ python_bound (str "3") (str "9") (str "3") (str "14") ++ post) ]} in
  PostGen.update_python_version_in_file "pyproject.toml" (str "3.12") fs
  = (Ok tt,
     <["pyproject.toml"%string :=
         PostGen.File (pre ++ PostGen.requires_python (str "3.12") ++ post)]> fs).
Proof.
  intros pre post fs.
  apply (python_bound_is_rewritten fs "pyproject.toml" pre post
           (str "3") (str "9") (str "3") (str "14") (str "3.12")
           (length (python_bound (str "3") (str "9") (str "3") (str "14"))) ∅).
  - reflexivity.
  - reflexivity.
  - reflexivity.
  - reflexivity.
  - reflexivity.
  - reflexivity.
  - vm_compute. reflexivity.
  - vm_compute. reflexivity.
  - vm_compute. reflexivity.
  - vm_compute. reflexivity.
Defined.

Lemma python_classifier_is_added_witness :
  let pre := str "classifiers = [" ++ nl :: str "    " in
  let post := nl :: str "]" in
  let fs : gmap string PostGen.node :=
    {[ "pyproject.toml"%string := PostGen.File (pre ++ base_classifier ++ post) ]} in
  PostGen.update_python_version_in_file "pyproject.toml" (str "3.12") fs
  = (Ok tt,
     <["pyproject.toml"%string :=
         PostGen.File (pre ++ base_classifier ++ added_classifier (str "3.12") ++ post)]> fs).
Proof.
  intros pre post fs.
  apply (python_classifier_is_added fs "pyproject.toml" pre post (str "3.12")
           (length base_classifier) (<[1 := base_classifier]> ∅)).
  - reflexivity.
  - reflexivity.
  - vm_compute. reflexivity.
  - vm_compute. reflexivity.
  - vm_compute. reflexivity.
  - vm_compute. reflexivity.
Defined.

Section ManifestVersionRemoval.
Import PostGen.

Ltac outside :=
  first
    [ assumption
    | reflexivity
    | let c := fresh "c" in let s := fresh "s" in let H := fresh "H" in
      intros c s H;
      first [ apply run_lit_cat_fails | apply run_chr_cat_fails
            | apply run_grp_chr_fails | apply run_chr_fails ];
      refine (outside_ne _ _ c _ H); reflexivity ].

Lemma version_classifier_line_match (whole : nat) (d : text) (comma : bool) (post : text) :
  is_number d = true ->
  match_at whole VERSION_CLASSIFIER_REGEX (version_classifier_line d comma ++ post) false
  = Some (length (version_classifier_line d comma), ∅).
Proof.
  intros Hd. unfold match_at, VERSION_CLASSIFIER_REGEX. cbn [cat andb].
  set (S := version_classifier_line d comma ++ post).
  unfold S at 1. unfold version_classifier_line.
  repeat (rewrite <- ?app_assoc; cbn [app]).
  rewrite run_chr_cat, run_lit_cat.
  rewrite run_many1_commit by outside. rewrite run_chr_cat.
  assert (L : length S - length post = length (version_classifier_line d comma)).
  { unfold S. rewrite (length_app (version_classifier_line d comma) post).
    exact (Nat.add_sub _ _). }
  destruct comma; cbn [app str list_ascii_of_string run];
    unfold chr_eqb; rewrite ?Ascii.eqb_refl; cbn [Ascii.eqb]; rewrite L; reflexivity.
Qed.

(** X28: for a Python version that holds no backslash and a manifest
    without a [requires-python] bound whose leftmost and only classifier of
    a version 3.d ends its line, with or without a comma, and which without
    that classifier holds no classifier of Python 3 followed by a comma,
    [update_python_version_in_file] writes the
    manifest without the classifier and its line feed; the text before it,
    the indentation of its line included, stays. *)
Theorem version_classifier_is_removed :
  forall (fs : gmap string node) (filepath : string)
         (pre post d python_version : text) (comma : bool) (n : nat) (g : captures),
    let content := pre ++ version_classifier_line d comma ++ post in
    fs !! filepath = Some (File content) ->
    is_number d = true ->
    backslash_free python_version = true ->
    re_search REQUIRES_PYTHON_REGEX content = None ->
    re_search VERSION_CLASSIFIER_REGEX content = Some (length pre, n, g) ->
    re_search VERSION_CLASSIFIER_REGEX post = None ->
    re_search BASE_CLASSIFIER_REGEX (pre ++ post) = None ->
    update_python_version_in_file filepath python_version fs
    = (Ok tt, <[filepath := File (pre ++ post)]> fs).
Proof.
  intros fs filepath pre post d v comma n g content Hf Hd Hv H1 Hs Hp H3.
  unfold update_python_version_in_file. rewrite Hf.
  rewrite (re_sub_no_match REQUIRES_PYTHON_REGEX _ content _
             (requires_python_template v Hv) H1).
  unfold content.
  rewrite (re_sub_single_match VERSION_CLASSIFIER_REGEX [] [] pre
             (version_classifier_line d comma) post n g ∅ eq_refl eq_refl).
  - cbn [expand app].
    rewrite (re_sub_no_match BASE_CLASSIFIER_REGEX _ (pre ++ post) _
               (added_classifier_template v Hv) H3).
    reflexivity.
  - discriminate.
  - exact Hs.
  - intros whole. apply version_classifier_line_match. exact Hd.
  - exact Hp.
Qed.
End ManifestVersionRemoval.

Lemma version_classifier_is_removed_witness :
  let pre := str "classifiers = [" ++ nl :: str "    " in
  let post := str "]" in
  let fs : gmap string PostGen.node :=
    {[ "pyproject.toml"%string :=
         PostGen.File (pre ++ version_classifier_line (str "9") true ++ post) ]} in
  PostGen.update_python_version_in_file "pyproject.toml" (str "3.12") fs
  = (Ok tt, <["pyproject.toml"%string := PostGen.File (pre ++ post)]> fs).
Proof.
  intros pre post fs.
  apply (version_classifier_is_removed fs "pyproject.toml" pre post (str "9") (str "3.12")
           true (length (version_classifier_line (str "9") true)) ∅).
  - reflexivity.
  - reflexivity.
  - reflexivity.
  - vm_compute. reflexivity.
  - vm_compute. reflexivity.
  - vm_compute. reflexivity.
  - vm_compute. reflexivity.
Defined.

(** * The file of tox *)

Section ToxIni.
Import PostGen.

(** X29: unlike [remove_file], [remove_tox_ini] does not raise when the
    file is missing. When [tox.ini] is not a directory it returns, leaves a
    project directory without [tox.ini] and with every other entry as
    before, and a second call changes nothing. *)
Theorem remove_tox_ini_is_tolerant :
  forall fs : gmap string node,
    (forall e, fs !! "tox.ini"%string <> Some (Dir e)) ->
    exists fs',
      remove_tox_ini fs = (Ok tt, fs') /\
      fs' !! "tox.ini"%string = None /\
      (forall p : string, p <> "tox.ini"%string -> fs' !! p = fs !! p) /\
      remove_tox_ini fs' = (Ok tt, fs') /\
      (fs !! "tox.ini"%string = None ->
       fs' = fs /\ remove_file "tox.ini" fs = (Raise FileNotFoundError, fs)).
Proof.
  intros fs Hdir. unfold remove_tox_ini, remove_file.
  destruct (fs !! "tox.ini"%string) as [[c|e]|] eqn:E.
  - exists (delete "tox.ini"%string fs). rewrite lookup_delete_eq.
    repeat split; try reflexivity; try discriminate.
    intros p Hp. apply lookup_delete_ne. congruence.
  - exfalso. exact (Hdir e eq_refl).
  - exists fs. rewrite E. repeat split; try reflexivity; assumption.
Qed.

Lemma remove_tox_ini_is_tolerant_witness :
  exists fs',
    remove_tox_ini {[ "README.md"%string := File (str "readme") ]} = (Ok tt, fs') /\
    fs' !! "tox.ini"%string = None.
Proof.
  destruct (remove_tox_ini_is_tolerant {[ "README.md"%string := File (str "readme") ]})
    as (fs' & H1 & H2 & _).
  - intros e. vm_compute. discriminate.
  - exists fs'. auto.
Defined.
End ToxIni.

(** * When the pre-generation hook lets the generation go on *)

Section PreGenWhole.
Import PreGen.

End PreGenWhole.
